(** * ZVault Python SDK client: a shallow embedding of [zvault/client.py]

    The client of [src/sdks/python/zvault/client.py] is embedded as a state
    and exception monad over

    - the client object's mutable fields ([_cache], [_last_refresh]),
    - the process environment [os.environ],
    - an abstract host world [W] (the httpx transport with the remote
      service behind it, the clocks, [time.sleep] and [random.random]),
    - an observable trace of the effects performed (HTTP requests, sleeps,
      assignments to [os.environ]) and the lines printed to stderr.

    Modelling conventions.
    - Python [float]s (clock readings, TTL, delays) are exact rationals [Q]:
      the rounding of IEEE doubles is not represented. Their range is,
      where the code can leave it: [math.pow(2, attempt)] raises
      OverflowError from [attempt = 1024] on.
    - [time.sleep] belongs to the host, which also says for which lengths
      it raises instead of sleeping.
    - Python [dict]s that the code iterates over ([secrets], [_cache]) are
      insertion-ordered association lists with unique keys ([pydict]);
      [os.environ], which is only probed and assigned, is a [gmap]; an
      assignment raises for the names and values that [os.putenv]
      refuses.
    - [resp.json()] is a [json] value; the code's annotated types
      ([dict[str, str]] for secrets) are kept: a [key] or [value] field of a
      secret that is not a JSON string is outside those types and makes the
      model raise [PyError].
    - Clock readings are observations of the world; the world changes only
      through HTTP requests, [time.sleep] and [random.random].
    - A [ZVault] record holds the attributes that [__init__] fixes and the
      methods read; [__init__] is embedded apart, as a function of its
      arguments and of [os.environ] to an [instance] (token, attributes,
      settings of the httpx client, empty cache).
    - [close] and [__exit__] act on a host whose client can be closed
      ([Closable]); what httpx does with a closed client is left to the
      host. [__enter__] returns [self] and is not embedded.
    - Values are immutable: that [get_all] returns the very [dict] object
      it stores in the cache matters only to a caller who mutates the
      returned object, which no property below is about. *)

From Stdlib Require Import ZArith QArith Qpower Lqa Lia Ascii String DecimalString.
From stdpp Require Import gmap strings list.

Set Warnings "-register-all".
Local Open Scope string_scope.
Local Open Scope list_scope.
Local Open Scope Z_scope.

(** ** JSON values, as returned by [resp.json()] *)

Inductive json : Type :=
| JNull
| JBool (b : bool)
| JNum (n : Z)
| JStr (s : string)
| JList (l : list json)
| JDict (d : list (string * json)).

(** ** The exception classes of [zvault/errors.py]

    [PyError] stands for every other [Exception] the code can meet
    (KeyError, TypeError, AttributeError, JSONDecodeError, ...); its
    argument is the class name. *)

Inductive exn : Type :=
| ZVaultAPIError (status_code : Z) (message : json)
| ZVaultConfigError (message : string)
| ZVaultNotFoundError (key env : string)
| ZVaultAuthError (message : json)
| ZVaultTimeoutError (message : string)
| PyError (class : string).

Inductive result (A : Type) : Type :=
| Ok (a : A)
| Raise (e : exn).
Arguments Ok {A} a.
Arguments Raise {A} e.

(** [isinstance(e, ZVaultAPIError)]: none of the sibling classes derives
    from it. *)
Definition is_ZVaultAPIError (e : exn) : bool :=
  match e with ZVaultAPIError _ _ => true | _ => false end.

(** ** Insertion-ordered dictionaries *)

Definition pydict (V : Type) : Type := list (string * V).

Fixpoint dict_get {V} (k : string) (d : pydict V) : option V :=
  match d with
  | [] => None
  | (k', v) :: d' => if String.eqb k' k then Some v else dict_get k d'
  end.

(** [d[k] = v]: an existing key keeps its position, a new one goes last. *)
Fixpoint dict_set {V} (k : string) (v : V) (d : pydict V) : pydict V :=
  match d with
  | [] => [(k, v)]
  | (k', v') :: d' =>
      if String.eqb k' k then (k', v) :: d' else (k', v') :: dict_set k v d'
  end.

Definition dict_keys {V} (d : pydict V) : list string := map fst d.

Definition dict_wf {V} (d : pydict V) : Prop := NoDup (dict_keys d).

(** ** Python operations on JSON values *)

(** [j.get(k, dflt)]: only a dict has [get]. *)
Definition py_get (j : json) (k : string) (dflt : json) : result json :=
  match j with
  | JDict d => Ok (default dflt (dict_get k d))
  | _ => Raise (PyError "AttributeError")
  end.

(** [j[k]] for a string subscript [k]. *)
Definition py_getitem (j : json) (k : string) : result json :=
  match j with
  | JDict d =>
      match dict_get k d with
      | Some x => Ok x
      | None => Raise (PyError "KeyError")
      end
  | _ => Raise (PyError "TypeError")
  end.

Fixpoint chars_of (s : string) : list json :=
  match s with
  | EmptyString => []
  | String c s' => JStr (String c EmptyString) :: chars_of s'
  end.

(** [for k in j]: a list yields its items, a dict its keys, a string its
    characters; nothing else is iterable. *)
Definition py_iter (j : json) : result (list json) :=
  match j with
  | JList l => Ok l
  | JDict d => Ok (map (fun kv => JStr (fst kv)) d)
  | JStr s => Ok (chars_of s)
  | _ => Raise (PyError "TypeError")
  end.

(** The annotated type [str] of a secret's key and value. *)
Definition as_str (j : json) : result string :=
  match j with
  | JStr s => Ok s
  | _ => Raise (PyError "TypeError")
  end.

(** ** [urllib.parse.quote(s, safe='')]

    Strings are byte strings (UTF-8): every byte outside
    [A-Za-z0-9_.-~] becomes [%XX] with upper-case hexadecimal digits. *)

Definition always_safe (c : ascii) : bool :=
  let n := Z.of_N (N_of_ascii c) in
  ((65 <=? n) && (n <=? 90)) || ((97 <=? n) && (n <=? 122))
  || ((48 <=? n) && (n <=? 57))
  || (n =? 95) || (n =? 46) || (n =? 45) || (n =? 126).

Definition hex_digit (n : N) : ascii :=
  ascii_of_N (if (n <? 10)%N then 48 + n else 55 + n)%N.

Fixpoint quote (s : string) : string :=
  match s with
  | EmptyString => EmptyString
  | String c s' =>
      if always_safe c then String c (quote s')
      else
        let n := N_of_ascii c in
        String "%" (String (hex_digit (n / 16)) (String (hex_digit (n mod 16)) (quote s')))
  end.

(** [str(n)] for an integer. *)
Definition str_of_Z (n : Z) : string := NilZero.string_of_int (Z.to_int n).

Definition dquote : string := String (ascii_of_nat 34) EmptyString.

(** ** The host: httpx transport, clocks, sleep and random numbers *)

Inductive http_method : Type := GET | PUT | DELETE.

Record request : Type := mk_request {
  req_method : http_method;
  req_url : string;
  req_json : option json
}.

(** What [self._client.request(method, url, json=json)] does: it returns a
    response (status code and, when the body parses, [resp.json()]) or
    raises. [httpx.TimeoutException] is a subclass of [httpx.HTTPError];
    [HTTPError] below is any other member of that class. *)
Inductive outcome : Type :=
| Response (status_code : Z) (body : option json)
| TimeoutException (msg : string)
| HTTPError (msg : string)
| OtherException (class : string).

(** [time.sleep(d)] checks its argument before it sleeps: when
    [time_sleep_error d w] names an exception class the call raises it
    and no time passes (CPython raises ValueError for a negative length
    and OverflowError for a length that its clock type cannot hold);
    otherwise the call returns in the world [time_sleep d w]. *)
Class Host (W : Type) : Type := {
  client_request : request -> W -> outcome * W;
  time_monotonic : W -> Q;
  time_time : W -> Q;
  time_sleep : Q -> W -> W;
  time_sleep_error : Q -> W -> option string;
  random_random : W -> Q * W
}.

(** Effects a caller or a test double can observe. *)
Inductive event : Type :=
| EvRequest (r : request)
| EvSleep (seconds : Q)
| EvSetenv (k v : string).

Definition is_request (ev : event) : bool :=
  match ev with EvRequest _ => true | _ => false end.

Definition requests_of (t : list event) : list request :=
  omap (fun ev => match ev with EvRequest r => Some r | _ => None end) t.

Definition sleeps_of (t : list event) : list Q :=
  omap (fun ev => match ev with EvSleep d => Some d | _ => None end) t.

Definition setenvs_of (t : list event) : list (string * string) :=
  omap (fun ev => match ev with EvSetenv k v => Some (k, v) | _ => None end) t.

(** ** Client data *)

Definition _DEFAULT_BASE_URL : string := "https://api.zvault.cloud".
Definition _DEFAULT_CACHE_TTL : Q := 300.
Definition _DEFAULT_MAX_RETRIES : Z := 3.
Definition _RETRY_BASE_DELAY : Q := 1 # 2.

Record _CacheEntry : Type := mk_CacheEntry {
  secrets : pydict string;
  expires_at : Q
}.

Record SecretKey : Type := mk_SecretKey {
  sk_key : json;
  sk_version : json;
  sk_comment : json;
  sk_updated_at : json
}.

Record SecretEntry : Type := mk_SecretEntry {
  se_key : json;
  se_value : json;
  se_version : json;
  se_comment : json;
  se_created_at : json;
  se_updated_at : json
}.

Record HealthStatus : Type := mk_HealthStatus {
  ok : bool;
  latency_ms : Q;
  cached_secrets : nat;
  last_refresh : option Q
}.

(** The attributes of a [ZVault] object that never change after
    [__init__]. *)
Record ZVault : Type := mk_ZVault {
  _base_url : string;
  _org_id : string;
  _project_id : string;
  _default_env : string;
  _cache_ttl : Q;
  _max_retries : Z;
  _debug : bool
}.

(** The mutable part: the object's [_cache] and [_last_refresh], the
    process environment, the host world, and what has been observed. *)
Record state (W : Type) : Type := mk_state {
  _cache : pydict _CacheEntry;
  _last_refresh : option Q;
  os_environ : gmap string string;
  world : W;
  trace : list event;
  stderr : list string
}.
Arguments mk_state {W}.
Arguments _cache {W}.
Arguments _last_refresh {W}.
Arguments os_environ {W}.
Arguments world {W}.
Arguments trace {W}.
Arguments stderr {W}.

(** ** State and exception monad *)

Definition M (W A : Type) : Type := state W -> result A * state W.

Definition ret {W A} (a : A) : M W A := fun s => (Ok a, s).

Definition raise {W A} (e : exn) : M W A := fun s => (Raise e, s).

Definition bind {W A B} (m : M W A) (k : A -> M W B) : M W B :=
  fun s =>
    match m s with
    | (Ok a, s1) => k a s1
    | (Raise e, s1) => (Raise e, s1)
    end.

(** [try: m except Exception as e: h e] *)
Definition try_except {W A} (m : M W A) (h : exn -> M W A) : M W A :=
  fun s =>
    match m s with
    | (Ok a, s1) => (Ok a, s1)
    | (Raise e, s1) => h e s1
    end.

Definition lift {W A} (r : result A) : M W A := fun s => (r, s).

Notation "'let!' x ':=' m 'in' k" := (bind m (fun x => k))
  (at level 10, x pattern, m at level 100, k at level 200, only parsing).

Definition Qltb (a b : Q) : bool := negb (Qle_bool b a).

(** [range(n)] *)
Definition range (n : Z) : list Z := map Z.of_nat (seq 0 (Z.to_nat n)).

Section Client.
Context {W : Type} `{Host W}.

Definition get_state : M W (state W) := fun s => (Ok s, s).

Definition emit (ev : event) : M W unit := fun s =>
  (Ok tt, mk_state (_cache s) (_last_refresh s) (os_environ s) (world s)
             (trace s ++ [ev]) (stderr s)).

Definition set_world (w : W) : M W unit := fun s =>
  (Ok tt, mk_state (_cache s) (_last_refresh s) (os_environ s) w
             (trace s) (stderr s)).

Definition set_cache (c : pydict _CacheEntry) : M W unit := fun s =>
  (Ok tt, mk_state c (_last_refresh s) (os_environ s) (world s)
             (trace s) (stderr s)).

Definition set_last_refresh (t : Q) : M W unit := fun s =>
  (Ok tt, mk_state (_cache s) (Some t) (os_environ s) (world s)
             (trace s) (stderr s)).

Definition set_environ (e : gmap string string) : M W unit := fun s =>
  (Ok tt, mk_state (_cache s) (_last_refresh s) e (world s)
             (trace s) (stderr s)).

(** [time.monotonic()] and [time.time()] *)
Definition monotonic : M W Q := fun s => (Ok (time_monotonic (world s)), s).
Definition wall_time : M W Q := fun s => (Ok (time_time (world s)), s).

(** [self._log(message)] *)
Definition _log (self : ZVault) (message : string) : M W unit := fun s =>
  if _debug self then
    (Ok tt, mk_state (_cache s) (_last_refresh s) (os_environ s) (world s)
               (trace s) (stderr s ++ ["[zvault-sdk] " +:+ message]))
  else (Ok tt, s).

(** [math.pow(2, y)] for an integer [y]: the power of two as long as a
    double holds it, that is for [y < 1024], and OverflowError from there
    on. (Below [-1074] the result underflows to 0.0; the retry loop only
    passes [y >= 0].) *)
Definition math_pow_2 (y : Z) : result Q :=
  if y <? 1024 then Ok (2 ^ y)%Q else Raise (PyError "OverflowError").

(** [self._sleep_with_jitter(attempt)]: an exception of [math.pow] or of
    [time.sleep] leaves the method, and [_request] with it, since no
    [except] clause of [_request] names it. *)
Definition _sleep_with_jitter (attempt : Z) : M W unit :=
  let! power := lift (math_pow_2 attempt) in
  let delay := (_RETRY_BASE_DELAY * power)%Q in
  let! s := get_state in
  let (r, w1) := random_random (world s) in
  let jitter := (r * delay * (3 # 10))%Q in
  let! _ := set_world w1 in
  match time_sleep_error (delay + jitter)%Q w1 with
  | Some class => raise (PyError class)
  | None =>
      let! _ := set_world (time_sleep (delay + jitter)%Q w1) in
      emit (EvSleep (delay + jitter)%Q)
  end.

(** *** [self._request(method, path, json)] *)

Definition is_success (status : Z) : bool :=
  (200 <=? status) && (status <=? 299).

Definition retryable_status (status : Z) : bool :=
  (status =? 429) || (status =? 500) || (status =? 502)
  || (status =? 503) || (status =? 504).

Definition http_message (status : Z) : json :=
  JStr ("HTTP " +:+ str_of_Z status).

(** Lines 353-357: the message of an error response. Any exception
    while reading it falls back to [HTTP <status>]. *)
Definition error_message (status : Z) (body : option json) : json :=
  match body with
  | None => http_message status
  | Some b =>
      match py_get b "error" (JDict []) with
      | Raise _ => http_message status
      | Ok err =>
          match py_get err "message" (http_message status) with
          | Raise _ => http_message status
          | Ok msg => msg
          end
      end
  end.

(** How one iteration of the retry loop ends. *)
Inductive flow : Type :=
| Return (v : json)
| Continue
| Throw (e : exn).

(** Lines 347-371: the [try] body once a response has arrived. [Throw]
    is an exception raised inside the [try]; the [except] clauses below
    decide what becomes of it. *)
Definition on_response (self : ZVault) (attempt : Z)
    (last_err : option exn) (status : Z) (body : option json)
    : M W (flow * option exn) :=
  if is_success status then
    if status =? 204 then ret (Return (JDict []), last_err)
    else
      match body with
      | Some j => ret (Return j, last_err)
      | None => ret (Throw (PyError "JSONDecodeError"), last_err)
      end
  else
    let msg := error_message status body in
    if (status =? 401) || (status =? 403) then
      ret (Throw (ZVaultAuthError msg), last_err)
    else if status =? 404 then
      ret (Throw (ZVaultAPIError status msg), last_err)
    else
      let last_err := Some (ZVaultAPIError status msg) in
      if (attempt <? _max_retries self) && retryable_status status then
        let! _ := _sleep_with_jitter attempt in
        ret (Continue, last_err)
      else ret (Throw (ZVaultAPIError status msg), last_err).

(** Lines 373-378: the [except] clauses that see an exception raised by
    the [try] body itself. *)
Definition on_raised (self : ZVault) (attempt : Z) (e : exn) : flow :=
  match e with
  | ZVaultAuthError _ | ZVaultNotFoundError _ _ => Throw e
  | ZVaultAPIError _ _ =>
      if attempt >=? _max_retries self then Throw e else Continue
  | _ => Throw e
  end.

(** Lines 379-390: [client.request] raised an httpx exception. *)
Definition on_transport_error (self : ZVault) (attempt : Z) (err : exn)
    : M W (flow * option exn) :=
  if attempt <? _max_retries self then
    let! _ := _sleep_with_jitter attempt in
    ret (Continue, Some err)
  else ret (Throw err, Some err).

Definition attempt_once (self : ZVault) (req : request) (attempt : Z)
    (last_err : option exn) : M W (flow * option exn) :=
  let! s := get_state in
  let (out, w1) := client_request req (world s) in
  let! _ := set_world w1 in
  let! _ := emit (EvRequest req) in
  match out with
  | Response status body =>
      let! (fl, last_err) := on_response self attempt last_err status body in
      match fl with
      | Throw e => ret (on_raised self attempt e, last_err)
      | _ => ret (fl, last_err)
      end
  | TimeoutException msg =>
      on_transport_error self attempt (ZVaultTimeoutError msg)
  | HTTPError msg =>
      on_transport_error self attempt (ZVaultAPIError 0 (JStr msg))
  | OtherException class => ret (Throw (PyError class), last_err)
  end.

Fixpoint request_loop (self : ZVault) (req : request) (attempts : list Z)
    (last_err : option exn) : M W json :=
  match attempts with
  | [] =>
      match last_err with
      | Some e => raise e
      | None => raise (ZVaultAPIError 0 (JStr "Unknown error"))
      end
  | attempt :: rest =>
      let! (fl, last_err) := attempt_once self req attempt last_err in
      match fl with
      | Return v => ret v
      | Throw e => raise e
      | Continue => request_loop self req rest last_err
      end
  end.

Definition _request (self : ZVault) (method : http_method) (path : string)
    (payload : option json) : M W json :=
  let url := _base_url self +:+ "/v1/cloud" +:+ path in
  request_loop self (mk_request method url payload)
    (range (_max_retries self + 1)) None.

(** *** Private helpers *)

(** [env or self._default_env] *)
Definition _resolve_env (self : ZVault) (env : option string) : string :=
  match env with
  | None => _default_env self
  | Some EmptyString => _default_env self
  | Some e => e
  end.

Definition _require_project_config (self : ZVault) : M W unit :=
  match _org_id self with
  | EmptyString =>
      raise (ZVaultConfigError
        "Missing org_id. Set ZVAULT_ORG_ID env var or pass org_id= argument.")
  | _ =>
      match _project_id self with
      | EmptyString =>
          raise (ZVaultConfigError
            "Missing project_id. Set ZVAULT_PROJECT_ID env var or pass project_id= argument.")
      | _ => ret tt
      end
  end.

(** [entry and time.monotonic() < entry.expires_at] *)
Definition entry_valid (entry : option _CacheEntry) : M W (option _CacheEntry) :=
  match entry with
  | None => ret None
  | Some e =>
      let! now := monotonic in
      if Qltb now (expires_at e) then ret (Some e) else ret None
  end.

Definition _get_cached (env : string) : M W (option (pydict string)) :=
  let! s := get_state in
  let! valid := entry_valid (dict_get env (_cache s)) in
  match valid with
  | Some entry => ret (Some (secrets entry))
  | None => ret None
  end.

Definition _get_cached_key (env key : string) : M W (option string) :=
  let! s := get_state in
  let! valid := entry_valid (dict_get env (_cache s)) in
  match valid with
  | Some entry => ret (dict_get key (secrets entry))
  | None => ret None
  end.

Definition _set_cached_key (self : ZVault) (env key value : string)
    : M W unit :=
  let! s := get_state in
  let! valid := entry_valid (dict_get env (_cache s)) in
  match valid with
  | Some entry =>
      set_cache
        (dict_set env
           (mk_CacheEntry (dict_set key value (secrets entry))
              (expires_at entry))
           (_cache s))
  | None =>
      let! now := monotonic in
      set_cache
        (dict_set env
           (mk_CacheEntry [(key, value)] (now + _cache_ttl self)%Q)
           (_cache s))
  end.

(** *** Paths *)

Definition secrets_path (self : ZVault) (env : string) : string :=
  "/orgs/" +:+ _org_id self +:+ "/projects/" +:+ _project_id self
  +:+ "/envs/" +:+ env +:+ "/secrets".

Definition key_path (self : ZVault) (env key : string) : string :=
  secrets_path self env +:+ "/" +:+ quote key.

(** *** [get_all] *)

(** Lines 139-146: one iteration of [for k in keys]. Only a
    [ZVaultAPIError] is swallowed ([continue]). *)
Definition fetch_key (self : ZVault) (path : string) (k : json)
    (acc : pydict string) : M W (pydict string) :=
  try_except
    (let! name_j := lift (py_getitem k "key") in
     let! name := lift (as_str name_j) in
     let! resp := _request self GET (path +:+ "/" +:+ quote name) None in
     let! secret := lift (py_get resp "secret" (JDict [])) in
     let! value_j := lift (py_getitem secret "value") in
     let! key_j := lift (py_getitem secret "key") in
     let! key := lift (as_str key_j) in
     let! value := lift (as_str value_j) in
     ret (dict_set key value acc))
    (fun e => if is_ZVaultAPIError e then ret acc else raise e).

Fixpoint fetch_keys (self : ZVault) (path : string) (keys : list json)
    (acc : pydict string) : M W (pydict string) :=
  match keys with
  | [] => ret acc
  | k :: rest =>
      let! acc := fetch_key self path k acc in
      fetch_keys self path rest acc
  end.

Definition fetched_message (n : nat) (env : string) : string :=
  "Fetched " +:+ str_of_Z (Z.of_nat n) +:+ " secrets for env "
  +:+ dquote +:+ env +:+ dquote.

Definition degraded_message (n : nat) (env : string) : string :=
  "API unreachable, serving " +:+ str_of_Z (Z.of_nat n)
  +:+ " cached secrets for " +:+ dquote +:+ env +:+ dquote.

(** Lines 133-154: the [try] block of [get_all]. *)
Definition get_all_fetch (self : ZVault) (env : string)
    : M W (pydict string) :=
  let path := secrets_path self env in
  let! keys_resp := _request self GET path None in
  let! keys_j := lift (py_get keys_resp "keys" (JList [])) in
  let! keys := lift (py_iter keys_j) in
  let! fetched := fetch_keys self path keys [] in
  let! now := monotonic in
  let! s := get_state in
  let! _ := set_cache
              (dict_set env
                 (mk_CacheEntry fetched (now + _cache_ttl self)%Q)
                 (_cache s)) in
  let! t := wall_time in
  let! _ := set_last_refresh t in
  let! _ := _log self (fetched_message (length fetched) env) in
  ret fetched.

(** Lines 156-164: the [except Exception] handler of [get_all]. *)
Definition get_all_fallback (self : ZVault) (env : string) (e : exn)
    : M W (pydict string) :=
  let! cached := _get_cached env in
  match cached with
  | Some c =>
      let! _ := _log self (degraded_message (length c) env) in
      ret c
  | None => raise e
  end.

Definition get_all (self : ZVault) (env : option string)
    : M W (pydict string) :=
  let env := _resolve_env self env in
  let! _ := _require_project_config self in
  try_except (get_all_fetch self env) (get_all_fallback self env).

(** *** [get] *)

Definition hit_message (key env : string) : string :=
  "Cache hit for " +:+ dquote +:+ key +:+ dquote +:+ " in "
  +:+ dquote +:+ env +:+ dquote.

(** Lines 182-189: the [try] block of [get]. *)
Definition get_fetch (self : ZVault) (env key : string) : M W string :=
  let! resp := _request self GET (key_path self env key) None in
  let! secret := lift (py_getitem resp "secret") in
  let! value_j := lift (py_getitem secret "value") in
  let! value := lift (as_str value_j) in
  let! _ := _set_cached_key self env key value in
  ret value.

(** Lines 190-193 *)
Definition get_except (env key : string) (e : exn) : M W string :=
  match e with
  | ZVaultAPIError status _ =>
      if status =? 404 then raise (ZVaultNotFoundError key env)
      else raise e
  | _ => raise e
  end.

Definition get (self : ZVault) (key : string) (env : option string)
    : M W string :=
  let env := _resolve_env self env in
  let! _ := _require_project_config self in
  let! cached := _get_cached_key env key in
  match cached with
  | Some v =>
      let! _ := _log self (hit_message key env) in
      ret v
  | None => try_except (get_fetch self env key) (get_except env key)
  end.

(** *** [list_keys] *)

Definition result_bind {A B} (r : result A) (k : A -> result B) : result B :=
  match r with
  | Ok a => k a
  | Raise e => Raise e
  end.

Definition to_SecretKey (k : json) : result SecretKey :=
  result_bind (py_getitem k "key") (fun key =>
  result_bind (py_getitem k "version") (fun version =>
  result_bind (py_get k "comment" (JStr EmptyString)) (fun comment =>
  result_bind (py_get k "updated_at" (JStr EmptyString)) (fun updated_at =>
  Ok (mk_SecretKey key version comment updated_at))))).

Fixpoint result_map {A B} (f : A -> result B) (l : list A) : result (list B) :=
  match l with
  | [] => Ok []
  | x :: l' =>
      result_bind (f x) (fun y =>
      result_bind (result_map f l') (fun ys => Ok (y :: ys)))
  end.

Definition list_keys (self : ZVault) (env : option string)
    : M W (list SecretKey) :=
  let env := _resolve_env self env in
  let! _ := _require_project_config self in
  let! resp := _request self GET (secrets_path self env) None in
  let! keys_j := lift (py_get resp "keys" (JList [])) in
  let! keys := lift (py_iter keys_j) in
  lift (result_map to_SecretKey keys).

(** *** [set] and [delete] *)

Definition to_SecretEntry (s : json) : result SecretEntry :=
  result_bind (py_getitem s "key") (fun key =>
  result_bind (py_getitem s "value") (fun value =>
  result_bind (py_getitem s "version") (fun version =>
  result_bind (py_get s "comment" (JStr EmptyString)) (fun comment =>
  result_bind (py_get s "created_at" (JStr EmptyString)) (fun created_at =>
  result_bind (py_get s "updated_at" (JStr EmptyString)) (fun updated_at =>
  Ok (mk_SecretEntry key value version comment created_at updated_at))))))).

Definition set_payload (value comment : string) : json :=
  JDict [("value", JStr value); ("comment", JStr comment)].

Definition set (self : ZVault) (key value : string) (env : option string)
    (comment : string) : M W SecretEntry :=
  let env := _resolve_env self env in
  let! _ := _require_project_config self in
  let! resp := _request self PUT (key_path self env key)
                 (Some (set_payload value comment)) in
  let! s := lift (py_getitem resp "secret") in
  let! _ := _set_cached_key self env key value in
  lift (to_SecretEntry s).

Definition delete (self : ZVault) (key : string) (env : option string)
    : M W unit :=
  let env := _resolve_env self env in
  let! _ := _require_project_config self in
  let! _ := _request self DELETE (key_path self env key) None in
  ret tt.

(** *** [inject_into_env] *)

(** [k in os.environ] *)
Definition in_environ (k : string) (e : gmap string string) : bool :=
  match e !! k with Some _ => true | None => false end.

(** [c in s] for a character [c]. *)
Fixpoint has_char (c : ascii) (s : string) : bool :=
  match s with
  | EmptyString => false
  | String c' s' => Ascii.eqb c' c || has_char c s'
  end.

(** What [os.environ[k] = v] raises for strings [k] and [v] (CPython on
    POSIX, [os.putenv]): ValueError for a NUL byte in the name or in the
    value and for a name with [=], OSError for the empty name, which
    [setenv] refuses; [None] when the assignment is made. *)
Definition environ_setitem_error (k v : string) : option exn :=
  if has_char "000" k || has_char "000" v then Some (PyError "ValueError")
  else if has_char "=" k then Some (PyError "ValueError")
  else
    match k with
    | EmptyString => Some (PyError "OSError")
    | _ => None
    end.

(** Lines 259-263: [for k, v in secrets.items()]. An assignment that
    [os.environ] refuses ends the loop with its exception; what was
    assigned before it stays assigned. *)
Fixpoint inject_loop (overwrite : bool) (items : list (string * string))
    (count : nat) : M W nat :=
  match items with
  | [] => ret count
  | (k, v) :: rest =>
      let! s := get_state in
      if negb overwrite && in_environ k (os_environ s) then
        inject_loop overwrite rest count
      else
        match environ_setitem_error k v with
        | Some e => raise e
        | None =>
            let! _ := set_environ (<[k := v]> (os_environ s)) in
            let! _ := emit (EvSetenv k v) in
            inject_loop overwrite rest (S count)
        end
  end.

Definition injected_message (count : nat) : string :=
  "Injected " +:+ str_of_Z (Z.of_nat count) +:+ " secrets into os.environ".

Definition inject_into_env (self : ZVault) (env : option string)
    (overwrite : bool) : M W nat :=
  let! fetched := get_all self env in
  let! count := inject_loop overwrite fetched 0%nat in
  let! _ := _log self (injected_message count) in
  ret count.

(** *** [healthy] *)

(** Lines 276-280: the generator under [sum], one clock reading per
    cache entry. *)
Fixpoint count_cached (entries : list (string * _CacheEntry)) (acc : nat)
    : M W nat :=
  match entries with
  | [] => ret acc
  | (_, e) :: rest =>
      let! now := monotonic in
      if Qltb now (expires_at e) then
        count_cached rest (acc + length (secrets e))%nat
      else count_cached rest acc
  end.

Definition healthy (self : ZVault) : M W HealthStatus :=
  let! start := monotonic in
  let! reachable :=
    try_except (let! _ := _request self GET "/me" None in ret true)
               (fun _ => ret false) in
  let! s := get_state in
  let! cached_count := count_cached (_cache s) 0%nat in
  let! finish := monotonic in
  ret (mk_HealthStatus reachable ((finish - start) * 1000)%Q cached_count
         (_last_refresh s)).

End Client.

(** ** A scripted host for running the client on concrete inputs

    The world is a clock and the number of requests served so far. The
    [n]-th request (counting from 0) is answered by [script req n] and
    takes [latency] seconds; [random.random()] always draws [draw];
    [time.sleep] moves the clock. *)

Module Sim.

Record world : Type := mk_world { clock : Q; served : nat }.

(** [sleep_error] is the argument check of [time.sleep]. *)
Definition host_with_sleep (script : request -> nat -> outcome)
    (latency draw : Q) (sleep_error : Q -> option string) : Host world := {|
  client_request r w :=
    (script r (served w), mk_world (clock w + latency)%Q (S (served w)));
  time_monotonic w := clock w;
  time_time w := (clock w + 1700000000)%Q;
  time_sleep d w := mk_world (clock w + d)%Q (served w);
  time_sleep_error d w := sleep_error d;
  random_random w := (draw, w)
|}.

(** The host of a test that patches [time.sleep]: a sleep of any length
    moves the clock and never raises. *)
Definition host (script : request -> nat -> outcome) (latency draw : Q)
    : Host world :=
  host_with_sleep script latency draw (fun _ => None).

(** The argument check of CPython's [time.sleep] with its 64-bit count
    of nanoseconds. *)
Definition cpython_sleep_error (d : Q) : option string :=
  if Qltb d 0 then Some "ValueError"
  else if Qle_bool (9223372036854775807 # 1000000000) d then Some "OverflowError"
  else None.

Definition init (cache : pydict _CacheEntry) (now : Q) : state world :=
  mk_state cache None ∅ (mk_world now 0) [] [].

Definition vault (ttl : Q) (max_retries : Z) : ZVault :=
  mk_ZVault _DEFAULT_BASE_URL "acme" "shop" "development" ttl max_retries false.

(** Services used below. *)
Definition always (o : outcome) : request -> nat -> outcome := fun _ _ => o.

Definition secret_body (k v : string) : json :=
  JDict [("secret", JDict [("key", JStr k); ("value", JStr v); ("version", JNum 1)])].

Definition listing_body (ks : list string) : json :=
  JDict [("keys", JList (map (fun k => JDict [("key", JStr k); ("version", JNum 1)]) ks))].

(** A service holding the single secret [A=1] in every environment:
    the listing answers with the key, every key path with the secret. *)
Definition one_secret : request -> nat -> outcome := fun r _ =>
  if String.eqb (req_url r)
       "https://api.zvault.cloud/v1/cloud/orgs/acme/projects/shop/envs/prod/secrets"
  then Response 200 (Some (listing_body ["A"]))
  else Response 200 (Some (secret_body "A" "1")).

End Sim.

(** * Vocabulary of the properties *)

(** [s'] differs from [s] in the world and by the events [t] only. *)
Definition frame {W} (s s' : state W) (t : list event) : Prop :=
  _cache s' = _cache s /\ _last_refresh s' = _last_refresh s
  /\ os_environ s' = os_environ s /\ stderr s' = stderr s
  /\ trace s' = trace s ++ t.

(** The delay [base * 2^attempt] before the jitter is added. *)
Definition nominal_delay (attempt : Z) : Q :=
  (_RETRY_BASE_DELAY * 2 ^ attempt)%Q.

(** The length of the sleep of attempt [attempt] when [random.random()]
    draws [r]. *)
Definition jittered (attempt : Z) (r : Q) : Q :=
  (nominal_delay attempt + r * nominal_delay attempt * (3 # 10))%Q.

(** [time.sleep] accepts the back-off delay of each of the attempts
    0, ..., [n - 1], in whatever world it is called. *)
Definition sleeps_accepted {W} `{Host W} (n : Z) : Prop :=
  forall attempt w, 0 <= attempt < n ->
    time_sleep_error (jittered attempt (random_random w).1) (random_random w).2
    = None.

(** [s] after the sleep of attempt [attempt]. *)
Definition slept {W} `{Host W} (attempt : Z) (s : state W) : state W :=
  mk_state (_cache s) (_last_refresh s) (os_environ s)
    (time_sleep (jittered attempt (random_random (world s)).1)
       (random_random (world s)).2)
    (trace s ++ [EvSleep (jittered attempt (random_random (world s)).1)])
    (stderr s).

(** [s] after the request [req] has been sent. *)
Definition requested {W} `{Host W} (req : request) (s : state W) : state W :=
  mk_state (_cache s) (_last_refresh s) (os_environ s)
    (client_request req (world s)).2 (trace s ++ [EvRequest req]) (stderr s).

(** The sleeps and the world after [n] attempts at [req] each of which is
    followed by its back-off sleep, the first being attempt [first]: an
    attempt sends the request, draws the jitter and sleeps. *)
Fixpoint backoff_run {W} `{Host W} (req : request) (first : Z) (n : nat)
    (w : W) : list Q * W :=
match n with
| O => ([], w)
| S n' =>
    let w1 := (client_request req w).2 in
    let d := jittered first (random_random w1).1 in
    let rest := backoff_run req (first + 1) n' (time_sleep d (random_random w1).2) in
    (d :: rest.1, rest.2)
end.

(** [s] in the world [w]. *)
Definition in_world {W} (w : W) (s : state W) : state W :=
  mk_state (_cache s) (_last_refresh s) (os_environ s) w (trace s) (stderr s).

(** A trace made of the request [req] and of sleeps only. *)
Definition transport_events (req : request) (t : list event) : Prop :=
  Forall (fun ev => ev = EvRequest req \/ exists d, ev = EvSleep d) t.

(** The request [_request(method, path, json)] hands to httpx. *)
Definition request_of (self : ZVault) (method : http_method) (path : string)
    (payload : option json) : request :=
  mk_request method (_base_url self +:+ "/v1/cloud" +:+ path) payload.

(** The trace of a request that is retried after each of [sleeps]. *)
Fixpoint retry_trace (req : request) (sleeps : list Q) : list event :=
match sleeps with
| [] => [EvRequest req]
| d :: ds => EvRequest req :: EvSleep d :: retry_trace req ds
end.

(** The entry of [env] when it exists and [now] is before its deadline. *)
Definition valid_entry (now : Q) (cache : pydict _CacheEntry) (env : string)
  : option _CacheEntry :=
match dict_get env cache with
| Some e => if Qltb now (expires_at e) then Some e else None
| None => None
end.

(** [s] with its cache replaced. *)
Definition with_cache {W} (c : pydict _CacheEntry) (s : state W) : state W :=
mk_state c (_last_refresh s) (os_environ s) (world s) (trace s) (stderr s).

(** [s] after [_log(message)]. *)
Definition logged {W} (self : ZVault) (message : string) (s : state W)
  : state W :=
if _debug self then
  mk_state (_cache s) (_last_refresh s) (os_environ s) (world s) (trace s)
    (stderr s ++ ["[zvault-sdk] " +:+ message])
else s.

(** The entry [_set_cached_key] leaves for [env]: the valid entry with the
    key merged in and its deadline kept, or else a new single-key entry
    whose deadline is [now + ttl]. *)
Definition stored_entry (self : ZVault) (now : Q) (cache : pydict _CacheEntry)
    (env key value : string) : _CacheEntry :=
match valid_entry now cache env with
| Some e => mk_CacheEntry (dict_set key value (secrets e)) (expires_at e)
| None => mk_CacheEntry [(key, value)] (now + _cache_ttl self)%Q
end.

(** [_require_project_config] with both identifiers present. *)
Definition configured (self : ZVault) : Prop :=
_org_id self <> EmptyString /\ _project_id self <> EmptyString.

(** [m] changes nothing but the world, and adds only requests and sleeps
    to the trace. *)
Definition network_only {W A} (m : M W A) : Prop :=
  forall s, exists t, frame s (m s).2 t /\ setenvs_of t = [].

(** The requests of the three endpoints of an environment. *)
Definition listing_request (self : ZVault) (env : string) : request :=
  request_of self GET (secrets_path self env) None.

Definition key_request (self : ZVault) (env key : string) : request :=
  request_of self GET (key_path self env key) None.


(** The items [inject_into_env] assigns, given the environment [environ]
    it starts from: all of them with [overwrite], else those whose key is
    not set yet. *)
Fixpoint written (overwrite : bool) (environ : gmap string string)
    (items : list (string * string)) : list (string * string) :=
match items with
| [] => []
| (k, v) :: rest =>
    if negb overwrite && in_environ k environ then written overwrite environ rest
    else (k, v) :: written overwrite environ rest
end.

(** The exception of the first item of [l] that [os.environ] refuses. *)
Fixpoint first_refusal (l : list (string * string)) : option exn :=
match l with
| [] => None
| (k, v) :: rest =>
    match environ_setitem_error k v with
    | Some e => Some e
    | None => first_refusal rest
    end
end.

(** The items of [l] before the first one that [os.environ] refuses. *)
Fixpoint accepted_prefix (l : list (string * string)) : list (string * string) :=
match l with
| [] => []
| (k, v) :: rest =>
    match environ_setitem_error k v with
    | Some _ => []
    | None => (k, v) :: accepted_prefix rest
    end
end.

(** [os.environ] after the assignments [l], in order. *)
Definition assign_all (environ : gmap string string)
    (l : list (string * string)) : gmap string string :=
foldl (fun e kv => <[kv.1 := kv.2]> e) environ l.

(** Every cached mapping has unique keys: an invariant of the cache, which
    starts empty and is only written through [dict_set]. *)
Definition cache_wf (cache : pydict _CacheEntry) : Prop :=
forall env e, dict_get env cache = Some e -> dict_wf (secrets e).


(** The trace of the assignments [l] to [os.environ]. *)
Definition setenv_events (l : list (string * string)) : list event :=
  map (fun kv => EvSetenv kv.1 kv.2) l.

(** The number of cached secrets in entries whose deadline is after
    [now], over all environments. *)
Fixpoint unexpired_count (now : Q) (entries : list (string * _CacheEntry))
  : nat :=
match entries with
| [] => 0%nat
| (_, e) :: rest =>
    ((if Qltb now (expires_at e) then length (secrets e) else 0)
     + unexpired_count now rest)%nat
end.

(** ** Scenarios on the scripted host *)

(** The service is down with 503 on every request; [random.random()]
    draws 1/2. *)
Definition always_503 : Host Sim.world :=
  Sim.host (Sim.always (Response 503 None)) 0 (1 # 2).

(** The same service reached from a process whose [time.sleep] is
    CPython's. *)
Definition always_503_real_sleep : Host Sim.world :=
  Sim.host_with_sleep (Sim.always (Response 503 None)) 0 (1 # 2)
    Sim.cpython_sleep_error.

(** Every request is answered 404. *)
Definition always_404 : Host Sim.world :=
Sim.host (Sim.always (Response 404 None)) 0 (1 # 2).

(** The network is down: every request raises an [httpx.HTTPError]. *)
Definition network_down : Host Sim.world :=
Sim.host (Sim.always (HTTPError "connection refused")) 0 (1 # 2).

(** A cache whose only entry, for "prod", has its deadline at 10. *)
Definition prod_cache : pydict _CacheEntry :=
[("prod", mk_CacheEntry [("DATABASE_URL", "postgres://db")] 10)].

(** A service with the single secret [A=1] where every request takes one
    second. *)
Definition slow_service : Host Sim.world := Sim.host Sim.one_secret 1 (1 # 2).

(** A service with the single secret [A=1] that answers at once. *)
Definition fast_service : Host Sim.world := Sim.host Sim.one_secret 0 (1 # 2).

(** The entry of "prod" holds [B] only, and is valid until 100. *)
Definition b_cache : pydict _CacheEntry :=
[("prod", mk_CacheEntry [("B", "2")] 100)].

(** "prod" already holds [A], valid until 100. *)
Definition a_cache : pydict _CacheEntry :=
[("prod", mk_CacheEntry [("A", "old")] 100)].

(** A process environment in which [A] is already set. *)
Definition a_set_locally : state Sim.world :=
mk_state [] None {["A" := "local"]} (Sim.mk_world 0 0) [] [].


(** The probe is answered 204 No Content. *)
Definition answers_204 : Host Sim.world :=
Sim.host (Sim.always (Response 204 None)) 0 (1 # 2).

(** The first request is answered 503, the following ones succeed. *)
Definition flaky_once : Host Sim.world :=
Sim.host (fun r n => match n with O => Response 503 None | _ => Sim.one_secret r n end)
  0 (1 # 2).

(** Every request is answered 401 with a JSON error body. *)
Definition always_401 : Host Sim.world :=
Sim.host
  (Sim.always
     (Response 401 (Some (JDict [("error", JDict [("message", JStr "bad token")])]))))
  0 (1 # 2).

(** * Construction and shutdown *)

(** The arguments of [ZVault(...)]. *)
Record init_args : Type := mk_init_args {
  arg_token : option string;
  arg_base_url : option string;
  arg_org_id : option string;
  arg_project_id : option string;
  arg_default_env : option string;
  arg_cache_ttl : Q;
  arg_timeout : Q;
  arg_max_retries : Z;
  arg_debug : bool
}.

(** [a or b] for an optional string [a]: [None] and the empty string are
    falsy. *)
Definition str_or (a : option string) (b : string) : string :=
match a with
| Some (String c r) => String c r
| _ => b
end.

(** [os.environ.get(k, dflt)] *)
Definition environ_get (environ : gmap string string) (k dflt : string)
  : string :=
default dflt (environ !! k).

(** [s.rstrip("/")] *)
Fixpoint rstrip_slash (s : string) : string :=
match s with
| EmptyString => EmptyString
| String c r =>
    match rstrip_slash r with
    | EmptyString =>
        if Ascii.eqb c "/" then EmptyString else String c EmptyString
    | r' => String c r'
    end
end.

(** What [httpx.Client(timeout=..., headers=...)] is given. *)
Record client_settings : Type := mk_client_settings {
  cs_timeout : Q;
  cs_headers : list (string * string)
}.

(** A freshly constructed client: its token, its fixed attributes, the
    settings of its httpx client, and its empty cache. *)
Record instance : Type := mk_instance {
  _token : string;
  attributes : ZVault;
  _client : client_settings;
  initial_cache : pydict _CacheEntry;
  initial_last_refresh : option Q
}.

(** [ZVault.__init__], lines 84-121, as a function of its arguments and
    of [os.environ]. *)
Definition __init__ (args : init_args) (environ : gmap string string)
  : result instance :=
let token := str_or (arg_token args) (environ_get environ "ZVAULT_TOKEN" EmptyString) in
match token with
| EmptyString =>
    Raise (ZVaultConfigError
      "Missing token. Set ZVAULT_TOKEN env var or pass token= argument.")
| _ =>
    let raw_url :=
      str_or (arg_base_url args) (environ_get environ "ZVAULT_URL" _DEFAULT_BASE_URL) in
    Ok (mk_instance token
          (mk_ZVault (rstrip_slash raw_url)
             (str_or (arg_org_id args) (environ_get environ "ZVAULT_ORG_ID" EmptyString))
             (str_or (arg_project_id args)
                (environ_get environ "ZVAULT_PROJECT_ID" EmptyString))
             (str_or (arg_default_env args)
                (environ_get environ "ZVAULT_ENV" "development"))
             (arg_cache_ttl args) (arg_max_retries args) (arg_debug args))
          (mk_client_settings (arg_timeout args)
             [("Authorization", "Bearer " +:+ token);
              ("Content-Type", "application/json");
              ("User-Agent", "zvault-python-sdk/0.1.0")])
          [] None)
end.

(** [s] ends with the character [c]. *)
Fixpoint ends_with (c : ascii) (s : string) : bool :=
match s with
| EmptyString => false
| String c' EmptyString => Ascii.eqb c' c
| String _ r => ends_with c r
end.

(** A host whose httpx client can be closed. *)
Class Closable (W : Type) : Type := {
  client_close : W -> W
}.

(** [close], lines 289-292: closes the httpx client and clears the
    cache. *)
Definition close {W} `{Closable W} : M W unit := fun s =>
(Ok tt,
 mk_state [] (_last_refresh s) (os_environ s) (client_close (world s))
   (trace s) (stderr s)).

(** [__exit__] is [close]. *)
Definition __exit__ {W} `{Closable W} : M W unit := close.

(** * Vocabulary of the further properties *)

(** Every character of [s] satisfies [p]. *)
Fixpoint all_chars (p : ascii -> bool) (s : string) : bool :=
match s with
| EmptyString => true
| String c r => p c && all_chars p r
end.

(** The value of an upper-case hexadecimal digit. *)
Definition hex_value (c : ascii) : N :=
let n := N_of_ascii c in
(if n <? 58 then n - 48 else n - 55)%N.

(** The exceptions [_request] can raise: everything but
    [ZVaultNotFoundError] and [ZVaultConfigError]. *)
Definition transport_exn (e : exn) : bool :=
match e with
| ZVaultNotFoundError _ _ | ZVaultConfigError _ => false
| _ => true
end.

(** The error an attempt that can be retried leaves in [last_err]: the
    answer has one of the retried statuses, or the transport raised a
    timeout or another httpx error. *)
Definition retry_error (out : outcome) : option exn :=
match out with
| Response status body =>
    if retryable_status status
    then Some (ZVaultAPIError status (error_message status body)) else None
| TimeoutException msg => Some (ZVaultTimeoutError msg)
| HTTPError msg => Some (ZVaultAPIError 0 (JStr msg))
| OtherException _ => None
end.

(** A status that is neither a success, nor 401/403, nor retried with
    back-off: 404, 400, 409, ... *)
Definition rejected_status (status : Z) : bool :=
negb (is_success status) && negb ((status =? 401) || (status =? 403))
&& negb (retryable_status status).

(** Every answer to [req] is an error response that is not 401/403. *)
Definition api_failing {W} `{Host W} (req : request) : Prop :=
forall w, exists status body,
  (client_request req w).1 = Response status body
  /\ is_success status = false
  /\ (status =? 401) || (status =? 403) = false.

(** The monotonic clock of the host never goes back: not over a request,
    not over a sleep of non-negative length, not over a draw of
    [random.random()], which is never negative. *)
Definition clock_monotone {W} `{Host W} : Prop :=
(forall req w, (time_monotonic w <= time_monotonic (client_request req w).2)%Q)
/\ (forall d w, (0 <= d)%Q ->
      (time_monotonic w <= time_monotonic (time_sleep d w))%Q)
/\ (forall w, (0 <= (random_random w).1)%Q
      /\ (time_monotonic w <= time_monotonic (random_random w).2)%Q).

(** The monotonic clock reads no less after [m] than before. *)
Definition clock_advances {W} `{Host W} {A} (m : M W A) : Prop :=
forall s, (time_monotonic (world s) <= time_monotonic (world (m s).2))%Q.

(** No cache entry has its deadline more than the TTL ahead of [now]. *)
Definition deadlines_within (ttl now : Q) (cache : pydict _CacheEntry) : Prop :=
forall env e, dict_get env cache = Some e -> (expires_at e <= now + ttl)%Q.

(** Every request times out. *)
Definition always_timeout : Host Sim.world :=
Sim.host (Sim.always (TimeoutException "timed out")) 0 (1 # 2).

(** Every request is answered 400. *)
Definition always_400 : Host Sim.world :=
Sim.host (Sim.always (Response 400 None)) 0 (1 # 2).

(** The listing names [A] and [B]; the secrets themselves are gone
    (404). *)
Definition listing_only : Host Sim.world :=
Sim.host
  (fun r _ =>
     if String.eqb (req_url r)
          "https://api.zvault.cloud/v1/cloud/orgs/acme/projects/shop/envs/prod/secrets"
     then Response 200 (Some (Sim.listing_body ["A"; "B"]))
     else Response 404 None)
  0 (1 # 2).

(** * Properties *)

(** ** The client on the scripted host *)

Example get_all_example :
  @get_all _ fast_service (Sim.vault 300 3) (Some "prod") (Sim.init [] 7)
  = (Ok [("A", "1")],
     mk_state [("prod", mk_CacheEntry [("A", "1")] 307)] (Some 1700000007%Q) ∅
       (Sim.mk_world 7 2)
       [EvRequest (listing_request (Sim.vault 300 3) "prod");
        EvRequest (key_request (Sim.vault 300 3) "prod" "A")] []).
Proof. vm_compute. reflexivity. Qed.

Example list_keys_example :
  (@list_keys _ fast_service (Sim.vault 300 3) (Some "prod") (Sim.init [] 0)).1
  = Ok [mk_SecretKey (JStr "A") (JNum 1) (JStr EmptyString) (JStr EmptyString)].
Proof. vm_compute. reflexivity. Qed.

(** One 503, one sleep of 0.5 + 0.5 * 0.5 * 0.3 seconds, then success. *)
Example retry_then_success_example :
  (@get _ flaky_once (Sim.vault 300 3) "A" (Some "prod") (Sim.init [] 0)).1
  = Ok "1"
  /\ sleeps_of (trace (@get _ flaky_once (Sim.vault 300 3) "A" (Some "prod")
                         (Sim.init [] 0)).2) = [(46 # 80)%Q]
  /\ length (requests_of (trace (@get _ flaky_once (Sim.vault 300 3) "A"
                                   (Some "prod") (Sim.init [] 0)).2)) = 2%nat.
Proof. vm_compute. split_and!; reflexivity. Qed.

(** A 401 is raised at once, with the message of the error body. *)
Example auth_error_example :
  (@get _ always_401 (Sim.vault 300 3) "A" (Some "prod") (Sim.init [] 0)).1
  = Raise (ZVaultAuthError (JStr "bad token"))
  /\ length (requests_of (trace (@get _ always_401 (Sim.vault 300 3) "A"
                                   (Some "prod") (Sim.init [] 0)).2)) = 1%nat.
Proof. vm_compute. split; reflexivity. Qed.

(** Without an organisation id nothing is sent. *)
Example config_error_example :
  (@get_all _ fast_service
     (mk_ZVault _DEFAULT_BASE_URL EmptyString "shop" "development" 300 3 false)
     None (Sim.init [] 0)).2
  = Sim.init [] 0.
Proof. reflexivity. Qed.

Example quote_example : quote "DB URL/x~1" = "DB%20URL%2Fx~1".
Proof. reflexivity. Qed.

Example str_of_Z_example : str_of_Z 503 = "503".
Proof. reflexivity. Qed.

Lemma Qltb_lt a b : Qltb a b = true <-> (a < b)%Q.
Proof.
  unfold Qltb. rewrite negb_true_iff. split.
  - intros Hf. apply Qnot_le_lt. intros Hle.
    apply Qle_bool_iff in Hle. congruence.
  - intros Hlt. destruct (Qle_bool b a) eqn:Hb; [|reflexivity].
    apply Qle_bool_iff in Hb. exfalso. exact (Qlt_not_le _ _ Hlt Hb).
Qed.

Lemma Qltb_ge a b : Qltb a b = false <-> (b <= a)%Q.
Proof.
  unfold Qltb. rewrite negb_false_iff. apply Qle_bool_iff.
Qed.

(** ** Dictionaries *)

Section Dict.
Context {V : Type}.
Implicit Types (d : pydict V) (k : string) (v : V).

Lemma dict_get_set_eq k v d : dict_get k (dict_set k v d) = Some v.
Proof.
  induction d as [|[k' v'] d IH]; simpl.
  - by rewrite String.eqb_refl.
  - destruct (String.eqb k' k) eqn:E; simpl; rewrite E; [done | exact IH].
Qed.

Lemma dict_get_set_ne k k' v d :
  k <> k' -> dict_get k' (dict_set k v d) = dict_get k' d.
Proof.
  intros Hne. induction d as [|[k0 v0] d IH]; simpl.
  - destruct (String.eqb k k') eqn:E; [|done].
    apply String.eqb_eq in E. done.
  - destruct (String.eqb k0 k) eqn:E; simpl.
    + apply String.eqb_eq in E. subst k0.
      destruct (String.eqb k k') eqn:E'; [|done].
      apply String.eqb_eq in E'. done.
    + by rewrite IH.
Qed.


Lemma dict_keys_set k v d :
  dict_keys (dict_set k v d)
  = if decide (k ∈ dict_keys d) then dict_keys d else dict_keys d ++ [k].
Proof.
  induction d as [|[k' v'] d IH].
  - cbn [dict_set dict_keys map fst].
    rewrite decide_False; [done | apply not_elem_of_nil].
  - cbn [dict_set dict_keys map fst]. fold (dict_keys d).
    destruct (String.eqb k' k) eqn:E.
    + apply String.eqb_eq in E. subst.
      rewrite decide_True; [done | by left].
    + apply String.eqb_neq in E.
      cbn [dict_keys map fst]. fold (dict_keys (dict_set k v d)). rewrite IH.
      destruct (decide (k ∈ dict_keys d)) as [Hin|Hnin].
      * rewrite decide_True; [done | by right].
      * rewrite decide_False; [done |].
        rewrite elem_of_cons. intros [->|?]; done.
Qed.

Lemma dict_wf_set k v d : dict_wf d -> dict_wf (dict_set k v d).
Proof.
  unfold dict_wf. intros Hwf. rewrite dict_keys_set.
  destruct (decide (k ∈ dict_keys d)) as [Hin|Hnin]; [done |].
  apply NoDup_app. split_and!; [done | | apply NoDup_singleton].
  intros x Hx Hx'. apply list_elem_of_singleton in Hx'. by subst.
Qed.

Lemma dict_wf_nil : dict_wf ([] : pydict V).
Proof. apply NoDup_nil_2. Qed.


Lemma dict_get_elem_wf k v d : dict_wf d -> (k, v) ∈ d -> dict_get k d = Some v.
Proof.
  unfold dict_wf. induction d as [|[k' v'] d IH]; simpl.
  - intros _ Hin. by apply elem_of_nil in Hin.
  - intros Hnd Hin. apply NoDup_cons in Hnd as [Hk' Hnd].
    apply elem_of_cons in Hin as [[= -> ->]|Hin].
    + by rewrite String.eqb_refl.
    + destruct (String.eqb k' k) eqn:E; [|by apply IH].
      apply String.eqb_eq in E. subst k'. exfalso. apply Hk'.
      apply list_elem_of_fmap. by exists (k, v).
Qed.

End Dict.

(** ** The transport leaves the client's fields alone *)

Section Transport.
Context {W : Type} `{Host W}.
Implicit Types (s : state W) (self : ZVault) (t : list event).

Lemma frame_refl s : frame s s [].
Proof. unfold frame. by rewrite app_nil_r. Qed.

Lemma frame_trans s1 s2 s3 t1 t2 :
  frame s1 s2 t1 -> frame s2 s3 t2 -> frame s1 s3 (t1 ++ t2).
Proof.
  unfold frame. intros (-> & -> & -> & -> & E1) (-> & -> & -> & -> & ->).
  rewrite E1, app_assoc. done.
Qed.

Lemma sleep_with_jitter_eq attempt s :
  attempt < 1024 ->
  time_sleep_error (jittered attempt (random_random (world s)).1)
    (random_random (world s)).2 = None ->
  _sleep_with_jitter attempt s = (Ok tt, slept attempt s).
Proof.
  intros Hlt. unfold _sleep_with_jitter, math_pow_2, slept, jittered, nominal_delay.
  apply Z.ltb_lt in Hlt. rewrite Hlt.
  unfold bind, lift, get_state, set_world, emit, raise.
  destruct (random_random (world s)) as [r w1]. simpl. by intros ->.
Qed.

Lemma sleep_with_jitter_overflow attempt s :
  1024 <= attempt ->
  _sleep_with_jitter attempt s = (Raise (PyError "OverflowError"), s).
Proof.
  intros Hge. unfold _sleep_with_jitter, math_pow_2.
  apply Z.ltb_ge in Hge. by rewrite Hge.
Qed.

(** A sleep either happens, or raises a Python exception before any time
    has passed. *)
Lemma sleep_with_jitter_cases attempt s :
  _sleep_with_jitter attempt s = (Ok tt, slept attempt s)
  \/ exists class w',
       _sleep_with_jitter attempt s = (Raise (PyError class), in_world w' s)
       /\ (w' = world s \/ w' = (random_random (world s)).2).
Proof.
  destruct (Z.lt_ge_cases attempt 1024) as [Hlt|Hge].
  - destruct (time_sleep_error (jittered attempt (random_random (world s)).1)
                (random_random (world s)).2) as [class|] eqn:Herr.
    + right. exists class, (random_random (world s)).2. split; [|by right].
      revert Herr.
      unfold _sleep_with_jitter, math_pow_2, jittered, nominal_delay.
      apply Z.ltb_lt in Hlt. rewrite Hlt.
      unfold bind, lift, get_state, set_world, emit, raise, in_world.
      destruct (random_random (world s)) as [r w1]. simpl. by intros ->.
    + left. by apply sleep_with_jitter_eq.
  - right. exists "OverflowError", (world s). split; [|by left].
    rewrite sleep_with_jitter_overflow by done. by destruct s.
Qed.

Lemma sleep_with_jitter_frame attempt s :
  exists t,
    frame s (_sleep_with_jitter attempt s).2 t
    /\ (t = [] \/ exists d, t = [EvSleep d]).
Proof.
  destruct (sleep_with_jitter_cases attempt s) as [-> | (c & w' & -> & _)].
  - eexists [_]. split; [done | right; eauto].
  - exists []. split; [| by left].
    unfold frame, in_world. simpl. by rewrite app_nil_r.
Qed.

Lemma on_response_frame self attempt last_err status body s :
  exists t,
    frame s (on_response self attempt last_err status body s).2 t
    /\ (t = [] \/ (attempt < _max_retries self /\ exists d, t = [EvSleep d])).
Proof.
  unfold on_response.
  repeat case_match; try (exists []; split; [apply frame_refl | by left]).
  unfold bind. destruct (sleep_with_jitter_frame attempt s) as (t & Hfr & Ht).
  exists t. split.
  - by destruct (_sleep_with_jitter attempt s) as [[[]|e] s1].
  - destruct Ht as [->|Hd]; [by left | right]. split; [|done].
    match goal with
    | Hb : _ && _ = true |- _ => apply andb_true_iff in Hb as [Hb _]
    end.
    by apply Z.ltb_lt.
Qed.

Lemma on_transport_error_frame self attempt err s :
  exists t,
    frame s (on_transport_error self attempt err s).2 t
    /\ (t = [] \/ (attempt < _max_retries self /\ exists d, t = [EvSleep d])).
Proof.
  unfold on_transport_error.
  destruct (attempt <? _max_retries self) eqn:Hlt;
    [| exists []; split; [apply frame_refl | by left]].
  unfold bind. destruct (sleep_with_jitter_frame attempt s) as (t & Hfr & Ht).
  exists t. split.
  - by destruct (_sleep_with_jitter attempt s) as [[[]|e] s1].
  - destruct Ht as [->|Hd]; [by left | right]. split; [|done].
    by apply Z.ltb_lt.
Qed.

(** One attempt sends the request and then sleeps at most once, and only
    when a retry is left. *)
Lemma attempt_once_shape self req attempt last_err s :
  exists t,
    frame s (attempt_once self req attempt last_err s).2 (EvRequest req :: t)
    /\ (t = [] \/ (attempt < _max_retries self /\ exists d, t = [EvSleep d])).
Proof.
  unfold attempt_once. unfold bind at 1. unfold get_state.
  destruct (client_request req (world s)) as [out w1].
  unfold bind at 1. unfold set_world. unfold bind at 1. unfold emit.
  match goal with
  | |- context [(?m ?st).2] =>
      assert (frame s st [EvRequest req]) as Hfr0 by done;
      assert (exists t, frame st (m st).2 t
                /\ (t = [] \/ (attempt < _max_retries self
                               /\ exists d, t = [EvSleep d]))) as (t & Hfr & Ht);
      [| exists t; split; [exact (frame_trans _ _ _ _ _ Hfr0 Hfr) | exact Ht]]
  end.
  destruct out as [status body|msg|msg|class];
    auto using on_transport_error_frame;
    [| exists []; split; [apply frame_refl | by left]].
  unfold bind.
  match goal with
  | |- context [on_response self attempt last_err status body ?st] =>
      destruct (on_response_frame self attempt last_err status body st)
        as (t & Hfr & Ht);
      exists t; split; [|exact Ht];
      destruct (on_response self attempt last_err status body st)
        as [[[fl le]|e] s1]; [by destruct fl | done]
  end.
Qed.

Lemma attempt_once_frame self req attempt last_err s :
  exists t,
    frame s (attempt_once self req attempt last_err s).2 (EvRequest req :: t)
    /\ transport_events req t.
Proof.
  destruct (attempt_once_shape self req attempt last_err s)
    as (t & Hfr & Ht).
  exists t. split; [done |].
  destruct Ht as [->|(_ & d & ->)]; [by constructor |].
  constructor; [right; eauto | constructor].
Qed.

Lemma request_loop_frame self req attempts last_err s :
  exists t,
    frame s (request_loop self req attempts last_err s).2 t
    /\ transport_events req t
    /\ (attempts <> [] -> exists t', t = EvRequest req :: t').
Proof.
  revert last_err s.
  induction attempts as [|attempt rest IH]; intros last_err s.
  - exists []. split_and!; [|by constructor|done].
    simpl. destruct last_err; apply frame_refl.
  - cbn [request_loop]. unfold bind.
    destruct (attempt_once_frame self req attempt last_err s)
      as (t1 & Hfr & Hev).
    destruct (attempt_once self req attempt last_err s)
      as [[[fl le]|e] s1]; simpl in Hfr.
    + destruct fl as [v| |e].
      * exists (EvRequest req :: t1). split_and!; eauto.
        constructor; [by left | done].
      * destruct (IH le s1) as (t2 & Hfr2 & Hev2 & _).
        exists ((EvRequest req :: t1) ++ t2). split_and!.
        -- eapply frame_trans; eauto.
        -- apply Forall_app. split; [|done].
           constructor; [by left | done].
        -- intros _. by eexists.
      * exists (EvRequest req :: t1). split_and!; eauto.
        constructor; [by left | done].
    + exists (EvRequest req :: t1). split_and!; eauto.
      constructor; [by left | done].
Qed.

Lemma range_nonempty n : 0 <= n -> range (n + 1) <> [].
Proof.
  intros Hn. unfold range.
  replace (Z.to_nat (n + 1)) with (S (Z.to_nat n)) by lia. done.
Qed.

(** [_request] never touches the cache, [_last_refresh], [os.environ]
    or stderr; what it adds to the trace are requests and sleeps, and
    with [max_retries >= 0] the first of them is the request itself. *)
Lemma request_frame self method path payload s :
  exists t,
    frame s (_request self method path payload s).2 t
    /\ transport_events (request_of self method path payload) t
    /\ (0 <= _max_retries self ->
        exists t', t = EvRequest (request_of self method path payload) :: t').
Proof.
  unfold _request.
  destruct (request_loop_frame self (request_of self method path payload)
              (range (_max_retries self + 1)) None s) as (t & ? & ? & Hne).
  exists t. split_and!; [done..|].
  intros Hn. by apply Hne, range_nonempty.
Qed.

Lemma transport_events_no_setenv req t :
  transport_events req t -> setenvs_of t = [].
Proof.
  induction 1 as [|ev t [->|[d ->]] _ IH]; simpl; done.
Qed.

End Transport.

(** ** Claims about single operations *)

Section Operations.
Context {W : Type} `{Host W}.
Implicit Types (s : state W) (self : ZVault) (t : list event).

(** C9. [delete(key, env)] leaves the cache mapping exactly as it was,
    whatever the outcome of the remote DELETE: the key stays in the
    entry of its environment, and no entry of any environment and no
    expiry deadline changes. The full-refresh timestamp and the process
    environment are untouched as well. *)
Theorem C9_delete_keeps_cache self key env s :
  _cache (delete self key env s).2 = _cache s
  /\ _last_refresh (delete self key env s).2 = _last_refresh s
  /\ os_environ (delete self key env s).2 = os_environ s.
Proof.
  unfold delete, bind, _require_project_config, raise, ret.
  destruct (_org_id self); [done |].
  destruct (_project_id self); [done |].
  destruct (request_frame self DELETE
              (key_path self (_resolve_env self env) key) None s)
    as (t & (Hc & Hl & He & _) & _).
  destruct (_request self DELETE _ None s) as [[v|e] s']; simpl in *; done.
Qed.

(** C10. For each operation with an [env] parameter, the empty string
    behaves exactly as no environment at all: it resolves to the
    client's default environment, and the operation is the same
    function of the state. *)
Theorem C10_empty_env_is_default self :
  _resolve_env self (Some EmptyString) = _default_env self
  /\ _resolve_env self None = _default_env self
  /\ get_all self (Some EmptyString) = get_all self None
  /\ (forall key, get self key (Some EmptyString) = get self key None)
  /\ list_keys self (Some EmptyString) = list_keys self None
  /\ (forall key value comment,
       set self key value (Some EmptyString) comment
       = set self key value None comment)
  /\ (forall key, delete self key (Some EmptyString) = delete self key None)
  /\ (forall overwrite,
       inject_into_env self (Some EmptyString) overwrite
       = inject_into_env self None overwrite).
Proof. repeat split. Qed.

End Operations.

(** ** The retry loop *)

Section Retry.
Context {W : Type} `{Host W}.
Implicit Types (s : state W) (self : ZVault) (t : list event).

Lemma requests_of_retry_trace req sleeps :
  requests_of (retry_trace req sleeps) = replicate (S (length sleeps)) req.
Proof. induction sleeps as [|d ds IH]; simpl; [done | by rewrite IH]. Qed.

Lemma sleeps_of_retry_trace req sleeps :
  sleeps_of (retry_trace req sleeps) = sleeps.
Proof. induction sleeps as [|d ds IH]; simpl; [done | by rewrite IH]. Qed.

Lemma nominal_delay_pos attempt : (0 < nominal_delay attempt)%Q.
Proof.
  unfold nominal_delay, _RETRY_BASE_DELAY.
  assert (0 < 2 ^ attempt)%Q by (apply Qpower_0_lt; lra). nra.
Qed.

Lemma nominal_delay_succ attempt :
  (nominal_delay (attempt + 1) == 2 * nominal_delay attempt)%Q.
Proof.
  unfold nominal_delay. rewrite Qpower_plus by lra.
  change (2 ^ 1)%Q with 2%Q. ring.
Qed.

(** A draw in [0, 1) keeps the sleep between the bare delay and 130% of
    it, hence below the next attempt's bare delay. *)
Lemma jittered_bounds attempt r :
  (0 <= r < 1)%Q ->
  (nominal_delay attempt <= jittered attempt r
   /\ jittered attempt r - nominal_delay attempt <= (3 # 10) * nominal_delay attempt
   /\ jittered attempt r < nominal_delay (attempt + 1))%Q.
Proof.
  intros [Hr0 Hr1]. pose proof (nominal_delay_pos attempt) as Hd.
  pose proof (nominal_delay_succ attempt) as Hs.
  unfold jittered. split_and!; nra.
Qed.

(** The sleeps of a back-off run are the jittered delays of its
    attempts. *)
Lemma backoff_run_sleeps req (first : Z) (n : nat) (w : W) :
  length (backoff_run req first n w).1 = n
  /\ forall (i : nat) d, (backoff_run req first n w).1 !! i = Some d ->
       exists w', d = jittered (first + Z.of_nat i) (random_random w').1.
Proof.
  revert first w. induction n as [|n IH]; intros first w; simpl.
  - split; [done |]. intros i d Hi. by rewrite lookup_nil in Hi.
  - destruct (IH (first + 1)
                (time_sleep (jittered first (random_random (client_request req w).2).1)
                   (random_random (client_request req w).2).2)) as [Hlen Hd].
    split; [by rewrite Hlen |].
    intros [|i] d Hi; simpl in Hi.
    + injection Hi as <-. eexists. by rewrite Z.add_0_r.
    + destruct (Hd i d Hi) as [w' ->]. exists w'. f_equal. lia.
Qed.

(** CPython's [time.sleep] accepts the schedule of up to 34 retries: with
    draws in [0, 1) each of these sleeps is shorter than [base * 2^34]
    seconds, which its 64-bit count of nanoseconds holds. *)
Lemma sleeps_accepted_cpython :
  (forall d w, (0 <= d)%Q -> (d < 9223372036854775807 # 1000000000)%Q ->
     time_sleep_error d w = None) ->
  (forall w, (0 <= (random_random w).1 < 1)%Q) ->
  sleeps_accepted 34.
Proof.
  intros Hok Hrand attempt w Hatt.
  destruct (jittered_bounds attempt _ (Hrand w)) as (Hlo & _ & Hhi).
  pose proof (nominal_delay_pos attempt) as Hpos.
  assert (nominal_delay (attempt + 1) <= nominal_delay 34)%Q as Hmono.
  { unfold nominal_delay, _RETRY_BASE_DELAY.
    assert (2 ^ (attempt + 1) <= 2 ^ 34)%Q as Hpow
      by (apply Qpower_le_compat_l; [lia | lra]).
    lra. }
  assert (nominal_delay 34 < 9223372036854775807 # 1000000000)%Q as Hmax
    by reflexivity.
  apply Hok; lra.
Qed.

(** One attempt answered 503. *)
Lemma attempt_once_503_retry self req attempt last_err s body :
  (client_request req (world s)).1 = Response 503 body ->
  attempt < _max_retries self ->
  attempt < 1024 ->
  time_sleep_error
    (jittered attempt (random_random (client_request req (world s)).2).1)
    (random_random (client_request req (world s)).2).2 = None ->
  attempt_once self req attempt last_err s
  = (Ok (Continue, Some (ZVaultAPIError 503 (error_message 503 body))),
     slept attempt (requested req s)).
Proof.
  intros Hreq Hlt Hpow Hsleep.
  unfold attempt_once, bind, get_state, set_world, emit, requested.
  destruct (client_request req (world s)) as [out w1]. simpl in *. subst out.
  unfold on_response, bind, ret. simpl.
  apply Z.ltb_lt in Hlt. rewrite Hlt. simpl.
  by rewrite sleep_with_jitter_eq.
Qed.

Lemma attempt_once_503_last self req attempt last_err s body :
  (client_request req (world s)).1 = Response 503 body ->
  _max_retries self <= attempt ->
  attempt_once self req attempt last_err s
  = (Ok (Throw (ZVaultAPIError 503 (error_message 503 body)),
         Some (ZVaultAPIError 503 (error_message 503 body))),
     requested req s).
Proof.
  intros Hreq Hge.
  unfold attempt_once, bind, get_state, set_world, emit, requested.
  destruct (client_request req (world s)) as [out w1]. simpl in *. subst out.
  unfold on_response, bind, ret. simpl.
  assert ((attempt <? _max_retries self) = false) as Hltb
    by (apply Z.ltb_ge; lia).
  rewrite Hltb.
  simpl. assert ((attempt >=? _max_retries self) = true) as Hgeb
    by (apply Z.geb_le; lia).
  by rewrite Hgeb.
Qed.

Lemma request_loop_503 self req (k first : nat) last_err s :
  (forall w, exists body, (client_request req w).1 = Response 503 body) ->
  Z.of_nat first + Z.of_nat k = _max_retries self ->
  _max_retries self <= 1024 ->
  sleeps_accepted (_max_retries self) ->
  exists msg,
    (request_loop self req (map Z.of_nat (seq first (S k))) last_err s).1
    = Raise (ZVaultAPIError 503 msg)
    /\ frame s (request_loop self req (map Z.of_nat (seq first (S k))) last_err s).2
         (retry_trace req (backoff_run req (Z.of_nat first) k (world s)).1)
    /\ world (request_loop self req (map Z.of_nat (seq first (S k))) last_err s).2
       = (client_request req (backoff_run req (Z.of_nat first) k (world s)).2).2.
Proof.
  intros H503 Hsum Hmax Hacc. revert first last_err s Hsum.
  induction k as [|k IH]; intros first last_err s Hsum.
  - destruct (H503 (world s)) as [body Hb].
    exists (error_message 503 body). cbn [seq map request_loop].
    unfold bind.
    rewrite (attempt_once_503_last self req (Z.of_nat first) last_err s body)
      by (done || lia).
    split_and!; done.
  - destruct (H503 (world s)) as [body Hb].
    change (seq first (S (S k))) with (first :: seq (S first) (S k)).
    cbn [map request_loop]. unfold bind.
    rewrite (attempt_once_503_retry self req (Z.of_nat first) last_err s body)
      by (done || lia || (apply Hacc; lia)).
    destruct (IH (S first)
                (Some (ZVaultAPIError 503 (error_message 503 body)))
                (slept (Z.of_nat first) (requested req s)))
      as (msg & Hres & Hfr & Hw); [lia |].
    exists msg. cbn [backoff_run fst snd retry_trace].
    replace (Z.of_nat first + 1) with (Z.of_nat (S first)) by lia.
    split_and!; [exact Hres | | exact Hw].
    change (EvRequest req :: EvSleep ?d :: ?t)
      with ([EvRequest req; EvSleep d] ++ t).
    eapply frame_trans; [|exact Hfr].
    unfold frame, slept, requested. simpl. by rewrite <-app_assoc.
Qed.

(** C3 (amended). When every attempt of a request is answered 503,
    [max_retries] is a count of at most 1024 and [time.sleep] accepts the
    delays, [_request] makes [max_retries + 1] attempts: the first and
    [max_retries] retries. Before retry number [i] (from 0) it sleeps
    [base * 2^i] plus a jitter [r * base * 2^i * 0.3] with [r] drawn from
    [0, 1), so the jitter is at most 30% of the delay and the sleeps
    strictly increase. It then raises [ZVaultAPIError] with status 503.
    The trace is exactly: request, sleep, request, ..., sleep, request,
    and the world is the one these requests, draws and sleeps lead to.
    (From attempt 1024 on [math.pow] overflows, see the counterexample.) *)
Theorem C3_retries_on_503 self method path payload s :
  0 <= _max_retries self <= 1024 ->
  sleeps_accepted (_max_retries self) ->
  (forall w, exists body,
     (client_request (request_of self method path payload) w).1
     = Response 503 body) ->
  (forall w, (0 <= (random_random w).1 < 1)%Q) ->
  let req := request_of self method path payload in
  let run := backoff_run req 0 (Z.to_nat (_max_retries self)) (world s) in
  exists msg,
    (_request self method path payload s).1 = Raise (ZVaultAPIError 503 msg)
    /\ frame s (_request self method path payload s).2 (retry_trace req run.1)
    /\ world (_request self method path payload s).2
       = (client_request req run.2).2
    /\ length (requests_of (retry_trace req run.1))
       = Z.to_nat (_max_retries self + 1)
    /\ length run.1 = Z.to_nat (_max_retries self)
    /\ (forall (i : nat) d, run.1 !! i = Some d ->
         exists r, (0 <= r < 1)%Q
           /\ d = (_RETRY_BASE_DELAY * 2 ^ Z.of_nat i
                   + r * (_RETRY_BASE_DELAY * 2 ^ Z.of_nat i) * (3 # 10))%Q
           /\ (_RETRY_BASE_DELAY * 2 ^ Z.of_nat i <= d)%Q
           /\ (d - _RETRY_BASE_DELAY * 2 ^ Z.of_nat i
               <= (3 # 10) * (_RETRY_BASE_DELAY * 2 ^ Z.of_nat i))%Q)
    /\ (forall (i : nat) d d',
         run.1 !! i = Some d -> run.1 !! S i = Some d' -> (d < d')%Q).
Proof.
  intros Hmax Hacc H503 Hrand. cbv zeta. unfold _request.
  fold (request_of self method path payload).
  set (req := request_of self method path payload) in *.
  unfold range.
  replace (Z.to_nat (_max_retries self + 1))
    with (S (Z.to_nat (_max_retries self))) by lia.
  destruct (request_loop_503 self req (Z.to_nat (_max_retries self)) 0 None s)
    as (msg & Hres & Hfr & Hw); [done | lia | lia | done |].
  change (Z.of_nat 0) with 0 in *.
  destruct (backoff_run_sleeps req 0 (Z.to_nat (_max_retries self)) (world s))
    as [Hlen Hj].
  exists msg. split_and!; [done | done | done | | done | |].
  - by rewrite requests_of_retry_trace, length_replicate, Hlen.
  - intros i d Hi. destruct (Hj i d Hi) as (w' & ->).
    exists (random_random w').1. rewrite Z.add_0_l.
    destruct (jittered_bounds (Z.of_nat i) _ (Hrand w')) as (Hlo & Hhi & _).
    split_and!;
      [apply (Hrand w') | apply (Hrand w') | reflexivity | exact Hlo | exact Hhi].
  - intros i d d' Hi Hi'.
    destruct (Hj i d Hi) as (w1 & ->).
    destruct (Hj (S i) d' Hi') as (w2 & ->).
    rewrite !Z.add_0_l, Nat2Z.inj_succ, <-Z.add_1_r.
    destruct (jittered_bounds (Z.of_nat i) _ (Hrand w1)) as (_ & _ & Hlt).
    destruct (jittered_bounds (Z.of_nat i + 1) _ (Hrand w2)) as (Hle & _).
    lra.
Qed.

End Retry.

(** The hypotheses of C3 hold on the scripted host with a service that is
    always down with 503. *)
Lemma C3_witness :
  exists msg,
    (@_request _ always_503 (Sim.vault 300 3) GET "/me" None (Sim.init [] 0)).1
    = Raise (ZVaultAPIError 503 msg)
    /\ Sim.clock
         (world (@_request _ always_503 (Sim.vault 300 3) GET "/me" None
                   (Sim.init [] 0)).2)
       = Sim.clock
           (@backoff_run _ always_503
              (request_of (Sim.vault 300 3) GET "/me" None) 0 3
              (Sim.mk_world 0 0)).2
    /\ length (@backoff_run _ always_503
                 (request_of (Sim.vault 300 3) GET "/me" None) 0 3
                 (Sim.mk_world 0 0)).1 = 3%nat.
Proof.
  destruct (@C3_retries_on_503 _ always_503 (Sim.vault 300 3) GET "/me" None
              (Sim.init [] 0)) as (msg & H1 & _ & H3 & _ & H5 & _).
  - simpl. lia.
  - intros attempt w _. reflexivity.
  - intros w. eexists. reflexivity.
  - intros w. simpl. split; [discriminate | reflexivity].
  - exists msg. split; [exact H1 | split; [|exact H5]].
    by rewrite H3.
Defined.

(** C3 as stated fails: with 1025 retries the back-off of attempt 1024 is
    beyond the doubles. [math.pow(2, 1024)] raises OverflowError, which
    leaves [_request] after 1025 requests in place of the
    [ZVaultAPIError] of the 503 after 1026. *)
Lemma C3_counterexample :
  (@_request _ always_503 (Sim.vault 300 1025) GET "/me" None (Sim.init [] 0)).1
  = Raise (PyError "OverflowError")
  /\ length (requests_of
               (trace (@_request _ always_503 (Sim.vault 300 1025) GET "/me" None
                         (Sim.init [] 0)).2)) = 1025%nat.
Proof. vm_compute. split; reflexivity. Qed.

(** With CPython's [time.sleep] the schedule ends earlier: the sleep
    after the 35th request, 0.5 * 2^34 * 1.15 seconds, is more than the
    sleep can count, and its OverflowError leaves [_request]. *)
Example sleep_overflow_example :
  (@_request _ always_503_real_sleep (Sim.vault 300 40) GET "/me" None
     (Sim.init [] 0)).1
  = Raise (PyError "OverflowError")
  /\ length (requests_of
               (trace (@_request _ always_503_real_sleep (Sim.vault 300 40) GET
                         "/me" None (Sim.init [] 0)).2)) = 35%nat
  /\ length (sleeps_of
               (trace (@_request _ always_503_real_sleep (Sim.vault 300 40) GET
                         "/me" None (Sim.init [] 0)).2)) = 34%nat.
Proof. vm_compute. split_and!; reflexivity. Qed.

(** ** The cache helpers as functions of the state *)

Section Cache.
Context {W : Type} `{Host W}.
Implicit Types (s : state W) (self : ZVault) (t : list event).

Lemma entry_valid_eq (o : option _CacheEntry) s :
  entry_valid o s
  = (Ok (match o with
         | Some e => if Qltb (time_monotonic (world s)) (expires_at e)
                     then Some e else None
         | None => None
         end), s).
Proof.
  destruct o as [e|]; [|done].
  unfold entry_valid, bind, monotonic, ret. by case_match.
Qed.

Lemma get_cached_eq env s :
  _get_cached env s
  = (Ok (secrets <$> valid_entry (time_monotonic (world s)) (_cache s) env), s).
Proof.
  unfold _get_cached, bind, get_state, valid_entry. rewrite entry_valid_eq.
  destruct (dict_get env (_cache s)) as [e|]; [|done]. by case_match.
Qed.

Lemma get_cached_key_eq env key s :
  _get_cached_key env key s
  = (Ok (match valid_entry (time_monotonic (world s)) (_cache s) env with
         | Some e => dict_get key (secrets e)
         | None => None
         end), s).
Proof.
  unfold _get_cached_key, bind, get_state, valid_entry. rewrite entry_valid_eq.
  destruct (dict_get env (_cache s)) as [e|]; [|done]. by case_match.
Qed.

Lemma set_cached_key_eq self env key value s :
  _set_cached_key self env key value s
  = (Ok tt,
     with_cache
       (dict_set env
          (stored_entry self (time_monotonic (world s)) (_cache s) env key value)
          (_cache s)) s).
Proof.
  unfold _set_cached_key, bind, get_state, stored_entry, valid_entry.
  rewrite entry_valid_eq.
  destruct (dict_get env (_cache s)) as [e|]; [|done]. by case_match.
Qed.

Lemma log_eq self message s : _log self message s = (Ok tt, logged self message s).
Proof. unfold _log, logged. by case_match. Qed.

Lemma logged_fields self message s :
  _cache (logged self message s) = _cache s
  /\ _last_refresh (logged self message s) = _last_refresh s
  /\ os_environ (logged self message s) = os_environ s
  /\ world (logged self message s) = world s
  /\ trace (logged self message s) = trace s.
Proof. unfold logged. by case_match. Qed.

Lemma require_project_config_ok self s :
  configured self -> _require_project_config self s = (Ok tt, s).
Proof.
  intros [Ho Hp]. unfold _require_project_config.
  destruct (_org_id self); [done |]. destruct (_project_id self); done.
Qed.

Lemma require_project_config_inv self s r s' :
  _require_project_config self s = (r, s') ->
  s' = s /\ (r = Ok tt -> configured self).
Proof.
  unfold _require_project_config, configured, raise, ret.
  destruct (_org_id self); [by intros [= <- <-] |].
  destruct (_project_id self); by intros [= <- <-].
Qed.

End Cache.

(** ** A 404 answer goes through the retry loop *)

Section NotFound.
Context {W : Type} `{Host W}.
Implicit Types (s : state W) (self : ZVault) (t : list event).

(** The [ZVaultAPIError] raised for a 404 is caught by the
    [except ZVaultAPIError] clause, which retries (without sleeping) while
    attempts remain. *)
Lemma attempt_once_404 self req attempt last_err s body w1 :
  client_request req (world s) = (Response 404 body, w1) ->
  exists s',
    attempt_once self req attempt last_err s
    = (Ok (if attempt >=? _max_retries self
           then Throw (ZVaultAPIError 404 (error_message 404 body))
           else Continue, last_err), s')
    /\ frame s s' [EvRequest req].
Proof.
  intros Hreq. unfold attempt_once, bind, get_state, set_world, emit.
  rewrite Hreq. simpl. eexists. split; [reflexivity | done].
Qed.

Lemma request_loop_404 self req (k first : nat) last_err s :
  (forall w, exists body, (client_request req w).1 = Response 404 body) ->
  Z.of_nat first + Z.of_nat k = _max_retries self ->
  exists msg,
    (request_loop self req (map Z.of_nat (seq first (S k))) last_err s).1
    = Raise (ZVaultAPIError 404 msg)
    /\ frame s (request_loop self req (map Z.of_nat (seq first (S k))) last_err s).2
         (replicate (S k) (EvRequest req)).
Proof.
  intros H404. revert first last_err s.
  induction k as [|k IH]; intros first last_err s Hsum;
    destruct (H404 (world s)) as [body Hb];
    destruct (client_request req (world s)) as [out w1] eqn:Hreq;
    simpl in Hb; subst out;
    destruct (attempt_once_404 self req (Z.of_nat first) last_err s body w1 Hreq)
      as (s' & Hat & Hfr).
  - exists (error_message 404 body). cbn [seq map request_loop]. unfold bind.
    rewrite Hat. assert ((Z.of_nat first >=? _max_retries self) = true) as Hge
      by (apply Z.geb_le; lia).
    rewrite Hge. done.
  - destruct (IH (S first) last_err s') as (msg & Hres & Hfr'); [lia |].
    exists msg. change (seq first (S (S k))) with (first :: seq (S first) (S k)).
    cbn [map request_loop]. unfold bind. rewrite Hat.
    assert ((Z.of_nat first >=? _max_retries self) = false) as Hge.
    { destruct (Z.geb_spec (Z.of_nat first) (_max_retries self)); [lia | done]. }
    rewrite Hge. split; [done |].
    change (replicate (S (S k)) (EvRequest req))
      with ([EvRequest req] ++ replicate (S k) (EvRequest req)).
    eapply frame_trans; eauto.
Qed.

(** What [get] does on a cache miss when the service answers 404 to every
    request for the key: it raises [ZVaultNotFoundError(key, env)], after
    [max_retries + 1] requests. *)
Lemma get_404_retried self key env s :
  configured self ->
  0 <= _max_retries self ->
  (_get_cached_key (_resolve_env self env) key s).1 = Ok None ->
  (forall w, exists body,
     (client_request
        (request_of self GET (key_path self (_resolve_env self env) key) None) w).1
     = Response 404 body) ->
  (get self key env s).1 = Raise (ZVaultNotFoundError key (_resolve_env self env))
  /\ frame s (get self key env s).2
       (replicate (Z.to_nat (_max_retries self + 1))
          (EvRequest (request_of self GET
                        (key_path self (_resolve_env self env) key) None))).
Proof.
  intros Hcfg Hmax Hmiss H404. unfold get, bind.
  rewrite require_project_config_ok by done.
  rewrite get_cached_key_eq in Hmiss |- *. simpl in Hmiss.
  injection Hmiss as ->.
  unfold try_except, get_fetch, bind, _request.
  fold (request_of self GET (key_path self (_resolve_env self env) key) None).
  unfold range.
  replace (Z.to_nat (_max_retries self + 1))
    with (S (Z.to_nat (_max_retries self))) by lia.
  destruct (request_loop_404 self
              (request_of self GET (key_path self (_resolve_env self env) key) None)
              (Z.to_nat (_max_retries self)) 0 None s H404)
    as (msg & Hres & Hfr); [lia |].
  destruct (request_loop self _ _ None s) as [r s']. simpl in Hres, Hfr.
  subst r. done.
Qed.

End NotFound.

(** C2 (the code departs from the claim). With the default
    [max_retries = 3], an empty cache and a service that answers 404,
    [get("K", "prod")] does raise [ZVaultNotFoundError("K", "prod")], but
    only after four identical GET requests: the 404 is retried
    [max_retries] times. *)
Theorem C2_get_404_is_retried :
  (@get _ always_404 (Sim.vault 300 _DEFAULT_MAX_RETRIES) "K" (Some "prod")
     (Sim.init [] 0)).1
  = Raise (ZVaultNotFoundError "K" "prod")
  /\ requests_of
       (trace (@get _ always_404 (Sim.vault 300 _DEFAULT_MAX_RETRIES) "K"
                 (Some "prod") (Sim.init [] 0)).2)
     = replicate 4
         (mk_request GET
            "https://api.zvault.cloud/v1/cloud/orgs/acme/projects/shop/envs/prod/secrets/K"
            None).
Proof. split; vm_compute; reflexivity. Qed.

(** ** Computations that only talk to the network *)

Section Preserves.
Context {W : Type} `{Host W}.
Implicit Types (s : state W) (self : ZVault) (t : list event).

Lemma network_only_ret {A} (a : A) : network_only (@ret W A a).
Proof. intros s. exists []. split; [apply frame_refl | done]. Qed.

Lemma network_only_raise {A} e : network_only (@raise W A e).
Proof. intros s. exists []. split; [apply frame_refl | done]. Qed.

Lemma network_only_lift {A} (r : result A) : network_only (@lift W A r).
Proof. intros s. exists []. split; [apply frame_refl | done]. Qed.

Lemma setenvs_of_app t1 t2 : setenvs_of (t1 ++ t2) = setenvs_of t1 ++ setenvs_of t2.
Proof. unfold setenvs_of. apply omap_app. Qed.

Lemma network_only_bind {A B} (m : M W A) (k : A -> M W B) :
  network_only m -> (forall a, network_only (k a)) -> network_only (bind m k).
Proof.
  intros Hm Hk s. unfold bind. destruct (Hm s) as (t1 & Hf1 & Ht1).
  destruct (m s) as [[a|e] s1]; simpl in Hf1.
  - destruct (Hk a s1) as (t2 & Hf2 & Ht2). exists (t1 ++ t2). split.
    + eapply frame_trans; eauto.
    + by rewrite setenvs_of_app, Ht1, Ht2.
  - by exists t1.
Qed.

Lemma network_only_try_except {A} (m : M W A) (h : exn -> M W A) :
  network_only m -> (forall e, network_only (h e)) ->
  network_only (try_except m h).
Proof.
  intros Hm Hh s. unfold try_except. destruct (Hm s) as (t1 & Hf1 & Ht1).
  destruct (m s) as [[a|e] s1]; simpl in Hf1.
  - by exists t1.
  - destruct (Hh e s1) as (t2 & Hf2 & Ht2). exists (t1 ++ t2). split.
    + eapply frame_trans; eauto.
    + by rewrite setenvs_of_app, Ht1, Ht2.
Qed.

Lemma network_only_request self method path payload :
  network_only (_request self method path payload).
Proof.
  intros s. destruct (request_frame self method path payload s)
    as (t & Hf & Hev & _).
  exists t. split; [done |]. by eapply transport_events_no_setenv.
Qed.

Lemma network_only_fetch_key self path k acc :
  network_only (fetch_key self path k acc).
Proof.
  unfold fetch_key. apply network_only_try_except.
  - repeat (apply network_only_bind; [|intros ?]);
      auto using network_only_lift, network_only_request, network_only_ret.
  - intros e. destruct (is_ZVaultAPIError e);
      auto using network_only_ret, network_only_raise.
Qed.

Lemma network_only_fetch_keys self path keys acc :
  network_only (fetch_keys self path keys acc).
Proof.
  revert acc. induction keys as [|k keys IH]; intros acc; simpl.
  - apply network_only_ret.
  - apply network_only_bind; [apply network_only_fetch_key | done].
Qed.

(** The dictionary assembled by [fetch_keys] has unique keys when the one
    it starts from has. *)
Lemma fetch_key_wf self path k acc s r s' :
  dict_wf acc -> fetch_key self path k acc s = (Ok r, s') -> dict_wf r.
Proof.
  intros Hwf. unfold fetch_key, try_except, bind, lift, ret, raise.
  repeat (case_match; simplify_eq; try done); intros; simplify_eq;
    try done; by apply dict_wf_set.
Qed.

Lemma fetch_keys_wf self path keys acc s r s' :
  dict_wf acc -> fetch_keys self path keys acc s = (Ok r, s') -> dict_wf r.
Proof.
  revert acc s. induction keys as [|k keys IH]; intros acc s Hwf; simpl.
  - unfold ret. by intros [= <- <-].
  - unfold bind. destruct (fetch_key self path k acc s) as [[acc'|e] s1] eqn:E;
      [|done].
    intros Hrest. eapply IH; [|done]. by eapply fetch_key_wf.
Qed.

End Preserves.

(** ** [get_all] *)

Section GetAll.
Context {W : Type} `{Host W}.
Implicit Types (s : state W) (self : ZVault) (t : list event).

(** What the [try] block of [get_all] does to the state. It always starts
    with the listing request; when it raises, the cache and
    [_last_refresh] are as before; when it returns [fetched], the entry of
    [env] has been replaced by [fetched] with deadline "clock reading at
    the end of the fetch" + TTL, and [_last_refresh] is the wall-clock
    time. *)
Lemma get_all_fetch_inv self env s r s1 :
  get_all_fetch self env s = (r, s1) ->
  match r with
  | Raise _ => _cache s1 = _cache s /\ _last_refresh s1 = _last_refresh s
  | Ok fetched =>
      _cache s1
      = dict_set env
          (mk_CacheEntry fetched
             (time_monotonic (world s1) + _cache_ttl self)%Q) (_cache s)
      /\ _last_refresh s1 = Some (time_time (world s1))
      /\ dict_wf fetched
  end
  /\ os_environ s1 = os_environ s
  /\ exists t, trace s1 = trace s ++ t /\ setenvs_of t = []
       /\ (0 <= _max_retries self ->
           exists t', t = EvRequest (listing_request self env) :: t').
Proof.
  unfold get_all_fetch, bind.
  destruct (request_frame self GET (secrets_path self env) None s)
    as (t1 & Hf1 & Hev1 & Hfirst).
  apply transport_events_no_setenv in Hev1.
  destruct (_request self GET (secrets_path self env) None s)
    as [[keys_resp|e] sa]; simpl in Hf1;
    destruct Hf1 as (Hc1 & Hl1 & He1 & _ & Ht1).
  2: { intros [= <- <-]. split_and!; eauto. }
  unfold lift at 1.
  destruct (py_get keys_resp "keys" (JList [])) as [keys_j|e].
  2: { intros [= <- <-]. split_and!; eauto. }
  unfold lift at 1. destruct (py_iter keys_j) as [keys|e].
  2: { intros [= <- <-]. split_and!; eauto. }
  destruct (network_only_fetch_keys self (secrets_path self env) keys [] sa)
    as (t2 & (Hc2 & Hl2 & He2 & _ & Ht2) & Hev2).
  destruct (fetch_keys self (secrets_path self env) keys [] sa)
    as [[fetched|e] sb] eqn:Hfetch; simpl in *.
  2: { intros [= <- <-]. split_and!; [congruence.. |].
       exists (t1 ++ t2). rewrite Ht2, Ht1, <-app_assoc, setenvs_of_app, Hev1, Hev2.
       split_and!; [done..|]. intros Hm. destruct (Hfirst Hm) as [t' ->].
       by eexists. }
  unfold monotonic, get_state, set_cache, wall_time, set_last_refresh, ret.
  rewrite log_eq. intros [= <- <-].
  destruct (logged_fields self (fetched_message (length fetched) env)
              (mk_state
                 (dict_set env
                    (mk_CacheEntry fetched
                       (time_monotonic (world sb) + _cache_ttl self)%Q)
                    (_cache sb))
                 (Some (time_time (world sb))) (os_environ sb) (world sb)
                 (trace sb) (stderr sb)))
    as (-> & -> & -> & -> & ->). simpl.
  split_and!; [by rewrite Hc2, Hc1 | done | | by rewrite He2, He1 |].
  { eapply fetch_keys_wf; [apply dict_wf_nil | done]. }
  exists (t1 ++ t2). rewrite Ht2, Ht1, <-app_assoc, setenvs_of_app, Hev1, Hev2.
  split_and!; [done..|]. intros Hm. destruct (Hfirst Hm) as [t' ->].
  by eexists.
Qed.

(** The [except Exception] handler: the stored mapping is served only
    while its deadline has not passed; otherwise the error is re-raised. *)
Lemma get_all_fallback_eq self env e s :
  get_all_fallback self env e s
  = match valid_entry (time_monotonic (world s)) (_cache s) env with
    | Some entry =>
        (Ok (secrets entry),
         logged self (degraded_message (length (secrets entry)) env) s)
    | None => (Raise e, s)
    end.
Proof.
  unfold get_all_fallback, bind. rewrite get_cached_eq.
  destruct (valid_entry _ _ env) as [entry|]; simpl; [|done].
  unfold bind. by rewrite log_eq.
Qed.

(** [get_all] when the fetch fails, for an entry that exists: served if
    the clock is still before its deadline, re-raised if not. *)
Lemma get_all_degraded self env s e s1 entry :
  configured self ->
  get_all_fetch self (_resolve_env self env) s = (Raise e, s1) ->
  dict_get (_resolve_env self env) (_cache s) = Some entry ->
  (get_all self env s).1
  = if Qltb (time_monotonic (world s1)) (expires_at entry)
    then Ok (secrets entry) else Raise e.
Proof.
  intros Hcfg Hfetch Hentry. unfold get_all, bind, try_except.
  rewrite require_project_config_ok by done. rewrite Hfetch.
  rewrite get_all_fallback_eq. unfold valid_entry.
  apply get_all_fetch_inv in Hfetch as ((-> & _) & _). rewrite Hentry.
  destruct (Qltb (time_monotonic (world s1)) (expires_at entry)); done.
Qed.

Lemma get_all_no_entry self env s e s1 :
  configured self ->
  get_all_fetch self (_resolve_env self env) s = (Raise e, s1) ->
  dict_get (_resolve_env self env) (_cache s) = None ->
  get_all self env s = (Raise e, s1).
Proof.
  intros Hcfg Hfetch Hentry. unfold get_all, bind, try_except.
  rewrite require_project_config_ok by done. rewrite Hfetch.
  rewrite get_all_fallback_eq. unfold valid_entry.
  apply get_all_fetch_inv in Hfetch as ((-> & _) & _). by rewrite Hentry.
Qed.

End GetAll.

(** C1 (code bug). The claim, like the docstring of [get_all] ("On
    network failure, returns last-known cached values"), promises the
    last cached mapping whether or not its deadline has passed. The
    handler reads the cache through [_get_cached], which hides an entry
    whose deadline has passed: with the network down and an entry for
    "prod" whose deadline (10) has passed (the clock reads 20),
    [get_all("prod")] re-raises the transport error, while the cache
    holds the last-known mapping before and after the call. *)
Theorem C1_expired_entry_is_not_served :
  dict_get "prod" (_cache (Sim.init prod_cache 20))
  = Some (mk_CacheEntry [("DATABASE_URL", "postgres://db")] 10)
  /\ (@get_all_fetch _ network_down (Sim.vault 300 3) "prod"
        (Sim.init prod_cache 20)).1
     = Raise (ZVaultAPIError 0 (JStr "connection refused"))
  /\ (@get_all _ network_down (Sim.vault 300 3) (Some "prod")
        (Sim.init prod_cache 20)).1
     = Raise (ZVaultAPIError 0 (JStr "connection refused"))
  /\ dict_get "prod"
       (_cache (@get_all _ network_down (Sim.vault 300 3) (Some "prod")
                  (Sim.init prod_cache 20)).2)
     = Some (mk_CacheEntry [("DATABASE_URL", "postgres://db")] 10).
Proof. split_and!; vm_compute; reflexivity. Qed.

(** ** [get] *)

Section Get.
Context {W : Type} `{Host W}.
Implicit Types (s : state W) (self : ZVault) (t : list event).

(** A hit: the entry of the environment is valid and holds the key. No
    request is made; only the debug log can change. *)
Lemma get_hit self key env s entry v :
  configured self ->
  dict_get (_resolve_env self env) (_cache s) = Some entry ->
  (time_monotonic (world s) < expires_at entry)%Q ->
  dict_get key (secrets entry) = Some v ->
  get self key env s
  = (Ok v, logged self (hit_message key (_resolve_env self env)) s).
Proof.
  intros Hcfg Hentry Hnow Hkey. unfold get, bind.
  rewrite require_project_config_ok by done. rewrite get_cached_key_eq.
  unfold valid_entry. rewrite Hentry.
  apply Qltb_lt in Hnow. rewrite Hnow, Hkey. by rewrite log_eq.
Qed.

(** A miss goes to the network. *)
Lemma get_miss self key env s :
  configured self ->
  (_get_cached_key (_resolve_env self env) key s).1 = Ok None ->
  get self key env s
  = try_except (get_fetch self (_resolve_env self env) key)
      (get_except (_resolve_env self env) key) s.
Proof.
  intros Hcfg Hmiss. unfold get, bind.
  rewrite require_project_config_ok by done.
  rewrite get_cached_key_eq in Hmiss |- *. simpl in Hmiss.
  by injection Hmiss as ->.
Qed.

Lemma get_expired_is_miss env key s entry :
  dict_get env (_cache s) = Some entry ->
  (expires_at entry <= time_monotonic (world s))%Q ->
  (_get_cached_key env key s).1 = Ok None.
Proof.
  intros Hentry Hnow. rewrite get_cached_key_eq. unfold valid_entry.
  rewrite Hentry. apply Qltb_ge in Hnow. by rewrite Hnow.
Qed.

(** The network path of [get] starts with the GET of the key. *)
Lemma get_fetch_trace self env key s :
  0 <= _max_retries self ->
  exists t,
    trace (try_except (get_fetch self env key) (get_except env key) s).2
    = trace s ++ EvRequest (key_request self env key) :: t.
Proof.
  intros Hmax. unfold try_except, get_fetch, bind.
  destruct (request_frame self GET (key_path self env key) None s)
    as (t & (_ & _ & _ & _ & Ht) & _ & Hfirst).
  destruct (Hfirst Hmax) as [t' ->]. exists t'.
  destruct (_request self GET (key_path self env key) None s)
    as [[resp|e] s1]; simpl in Ht.
  - unfold lift. destruct (py_getitem resp "secret") as [secret|e]; simpl.
    2: { by destruct e; simpl; try case_match. }
    destruct (py_getitem secret "value") as [value_j|e]; simpl.
    2: { by destruct e; simpl; try case_match. }
    destruct (as_str value_j) as [value|e]; simpl.
    2: { by destruct e; simpl; try case_match. }
    by rewrite set_cached_key_eq.
  - by destruct e; simpl; try case_match.
Qed.

End Get.

(** ** The cache after a full refresh *)

Section Refresh.
Context {W : Type} `{Host W}.
Implicit Types (s : state W) (self : ZVault) (t : list event).

(** [get_all] never answers from the cache without asking the service
    first: its first effect is the listing request. *)
Lemma get_all_trace self env s :
  configured self ->
  0 <= _max_retries self ->
  exists t,
    trace (get_all self env s).2
    = trace s ++ EvRequest (listing_request self (_resolve_env self env)) :: t.
Proof.
  intros Hcfg Hmax. unfold get_all, bind, try_except.
  rewrite require_project_config_ok by done.
  destruct (get_all_fetch self (_resolve_env self env) s) as [r s1] eqn:Hfetch.
  apply get_all_fetch_inv in Hfetch as (_ & _ & t & Ht & _ & Hfirst).
  destruct (Hfirst Hmax) as [t' ->]. exists t'.
  destruct r as [fetched|e]; [done |].
  rewrite get_all_fallback_eq. case_match; [|done].
  simpl. by destruct (logged_fields self
    (degraded_message (length (secrets _c)) (_resolve_env self env)) s1)
    as (_ & _ & _ & _ & ->).
Qed.

(** C4 (amended). After a successful [get_all(E)] the cache entry of [E]
    is the fetched mapping, replacing whatever was there, with deadline
    equal to the monotonic clock reading taken when the fetch has
    completed plus the configured TTL; entries of other environments are
    untouched. While that entry is in the cache, [get(k, E)] for a key in
    it, made before the deadline, returns the cached value and issues no
    request; at or after the deadline [get(k, E)] issues the GET of the
    key. [get_all(E)] itself always issues the listing request, whatever
    the cache holds. *)
Theorem C4_full_refresh_then_cached_reads self env s fetched s1 :
  configured self ->
  0 <= _max_retries self ->
  get_all_fetch self (_resolve_env self env) s = (Ok fetched, s1) ->
  let E := _resolve_env self env in
  let deadline := (time_monotonic (world s1) + _cache_ttl self)%Q in
  get_all self env s = (Ok fetched, s1)
  /\ dict_get E (_cache s1) = Some (mk_CacheEntry fetched deadline)
  /\ (forall E', E <> E' -> dict_get E' (_cache s1) = dict_get E' (_cache s))
  /\ (forall s2 k v,
        dict_get E (_cache s2) = Some (mk_CacheEntry fetched deadline) ->
        dict_get k fetched = Some v ->
        (time_monotonic (world s2) < deadline)%Q ->
        (get self k env s2).1 = Ok v
        /\ trace (get self k env s2).2 = trace s2
        /\ _cache (get self k env s2).2 = _cache s2)
  /\ (forall s2 k,
        dict_get E (_cache s2) = Some (mk_CacheEntry fetched deadline) ->
        (deadline <= time_monotonic (world s2))%Q ->
        exists t,
          trace (get self k env s2).2
          = trace s2 ++ EvRequest (key_request self E k) :: t)
  /\ (forall s2, exists t,
        trace (get_all self env s2).2
        = trace s2 ++ EvRequest (listing_request self E) :: t).
Proof.
  intros Hcfg Hmax Hfetch E deadline.
  pose proof (get_all_fetch_inv _ _ _ _ _ Hfetch) as ((Hc & _ & _) & _).
  split_and!.
  - unfold get_all, bind, try_except.
    rewrite require_project_config_ok by done. subst E. by rewrite Hfetch.
  - rewrite Hc. apply dict_get_set_eq.
  - intros E' Hne. rewrite Hc. by apply dict_get_set_ne.
  - intros s2 k v Hentry Hk Hnow.
    rewrite (get_hit self k env s2 _ v Hcfg Hentry Hnow Hk). simpl.
    destruct (logged_fields self (hit_message k E) s2) as (Hc' & _ & _ & _ & Ht').
    split_and!; [done | exact Ht' | exact Hc'].
  - intros s2 k Hentry Hnow.
    rewrite get_miss; [by apply get_fetch_trace | done |].
    by eapply get_expired_is_miss.
  - intros s2. by apply get_all_trace.
Qed.

End Refresh.

(** C4 as stated fails: a [get_all("prod")] called at time 0 whose two
    requests take one second each stores the deadline 302, not 0 + 300,
    and a second [get_all("prod")] right after it, well before that
    deadline, sends two more requests. *)
Lemma C4_counterexample :
  let self := Sim.vault 300 3 in
  let s0 := Sim.init [] 0 in
  let s1 := (@get_all _ slow_service self (Some "prod") s0).2 in
  let s2 := (@get_all _ slow_service self (Some "prod") s1).2 in
  (@get_all _ slow_service self (Some "prod") s0).1 = Ok [("A", "1")]
  /\ _cache s1 = [("prod", mk_CacheEntry [("A", "1")] 302)]
  /\ ~ (302 == 0 + 300)%Q
  /\ (@time_monotonic _ slow_service (world s1) < 302)%Q
  /\ length (requests_of (trace s1)) = 2%nat
  /\ length (requests_of (trace s2)) = 4%nat.
Proof. vm_compute. split_and!; try reflexivity; discriminate. Qed.

(** The amended C4 on the scripted host. *)
Lemma C4_witness :
  let self := Sim.vault 300 3 in
  let s0 := Sim.init [] 0 in
  @get_all _ slow_service self (Some "prod") s0
  = (Ok [("A", "1")], (@get_all_fetch _ slow_service self "prod" s0).2)
  /\ forall s2, exists t,
       trace (@get_all _ slow_service self (Some "prod") s2).2
       = trace s2 ++ EvRequest (listing_request self "prod") :: t.
Proof.
  intros self s0.
  destruct (@C4_full_refresh_then_cached_reads _ slow_service self
              (Some "prod") s0 [("A", "1")]
              (@get_all_fetch _ slow_service self "prod" s0).2)
    as (H1 & _ & _ & _ & _ & H6).
  - split; discriminate.
  - simpl. lia.
  - vm_compute. reflexivity.
  - split; [exact H1 | exact H6].
Defined.

(** ** Single-key writes to the cache *)

Section Store.
Context {W : Type} `{Host W}.
Implicit Types (s : state W) (self : ZVault) (t : list event).

Lemma valid_entry_Some now cache env e :
  valid_entry now cache env = Some e ->
  dict_get env cache = Some e /\ (now < expires_at e)%Q.
Proof.
  unfold valid_entry. destruct (dict_get env cache) as [e'|]; [|done].
  destruct (Qltb now (expires_at e')) eqn:Hlt; [|done].
  intros [= ->]. split; [done | by apply Qltb_lt].
Qed.

Lemma valid_entry_None now cache env :
  valid_entry now cache env = None ->
  dict_get env cache = None
  \/ exists e, dict_get env cache = Some e /\ (expires_at e <= now)%Q.
Proof.
  unfold valid_entry. destruct (dict_get env cache) as [e'|]; [|by left].
  destruct (Qltb now (expires_at e')) eqn:Hlt; [done |].
  intros _. right. exists e'. split; [done | by apply Qltb_ge].
Qed.

(** The entry [_set_cached_key] stores holds the value under the key. *)
Lemma stored_entry_key self now cache env key value :
  dict_get key (secrets (stored_entry self now cache env key value))
  = Some value.
Proof.
  unfold stored_entry. destruct (valid_entry now cache env); simpl.
  - apply dict_get_set_eq.
  - by rewrite String.eqb_refl.
Qed.

(** With a positive TTL it is still valid at the time it is stored. *)
Lemma stored_entry_fresh self now cache env key value :
  (0 < _cache_ttl self)%Q ->
  (now < expires_at (stored_entry self now cache env key value))%Q.
Proof.
  intros Httl. unfold stored_entry.
  destruct (valid_entry now cache env) as [e|] eqn:Hv; simpl.
  - by apply valid_entry_Some in Hv as [_ ?].
  - lra.
Qed.

(** C5 (amended). When [get(k, E)] misses the cache and the GET of the
    key succeeds with value [v], [v] is returned and stored under [k] in
    the cache entry of [E]; other environments are untouched. If, at the
    time of storing, [E] has an entry whose deadline has not passed, [v]
    is merged into it and its deadline stays as it was. Otherwise a new
    entry holding only [k] replaces whatever was there, with deadline
    equal to the clock reading at that time plus the configured TTL. *)
Theorem C5_get_miss_stores_value self key env s resp secret value s1 :
  configured self ->
  (_get_cached_key (_resolve_env self env) key s).1 = Ok None ->
  _request self GET (key_path self (_resolve_env self env) key) None s
  = (Ok resp, s1) ->
  py_getitem resp "secret" = Ok secret ->
  py_getitem secret "value" = Ok (JStr value) ->
  let E := _resolve_env self env in
  let now := time_monotonic (world s1) in
  let s' := (get self key env s).2 in
  (get self key env s).1 = Ok value
  /\ (exists entry, dict_get E (_cache s') = Some entry
        /\ dict_get key (secrets entry) = Some value)
  /\ (forall e, dict_get E (_cache s) = Some e -> (now < expires_at e)%Q ->
        dict_get E (_cache s')
        = Some (mk_CacheEntry (dict_set key value (secrets e)) (expires_at e)))
  /\ (dict_get E (_cache s) = None
      \/ (exists e, dict_get E (_cache s) = Some e /\ (expires_at e <= now)%Q) ->
        dict_get E (_cache s')
        = Some (mk_CacheEntry [(key, value)] (now + _cache_ttl self)%Q))
  /\ (forall E', E <> E' -> dict_get E' (_cache s') = dict_get E' (_cache s)).
Proof.
  intros Hcfg Hmiss Hreq Hsecret Hvalue. cbv zeta.
  rewrite get_miss by done. unfold try_except, get_fetch, bind.
  rewrite Hreq. unfold lift. rewrite Hsecret, Hvalue. simpl.
  rewrite set_cached_key_eq. simpl.
  destruct (request_frame self GET
              (key_path self (_resolve_env self env) key) None s)
    as (t & (Hc & _) & _).
  rewrite Hreq in Hc. simpl in Hc. rewrite Hc.
  split_and!.
  - done.
  - eexists. split; [apply dict_get_set_eq | apply stored_entry_key].
  - intros e He Hnow. rewrite dict_get_set_eq. f_equal.
    unfold stored_entry, valid_entry. rewrite He.
    apply Qltb_lt in Hnow. by rewrite Hnow.
  - intros Hno. rewrite dict_get_set_eq. f_equal.
    unfold stored_entry, valid_entry. destruct Hno as [->|(e & -> & Hexp)];
      [done |].
    apply Qltb_ge in Hexp. by rewrite Hexp.
  - intros E' Hne. by apply dict_get_set_ne.
Qed.

End Store.

(** C5 as stated fails: at time 50, with TTL 300, [get("A", "prod")]
    misses (the valid entry of "prod" holds only [B]), fetches [A=1] and
    merges it; the entry keeps its deadline 100 instead of getting the
    fresh one, 350. *)
Lemma C5_counterexample :
  let self := Sim.vault 300 3 in
  let s0 := Sim.init b_cache 50 in
  (@_get_cached_key _ fast_service "prod" "A" s0).1 = Ok None
  /\ (@get _ fast_service self "A" (Some "prod") s0).1 = Ok "1"
  /\ _cache (@get _ fast_service self "A" (Some "prod") s0).2
     = [("prod", mk_CacheEntry [("B", "2"); ("A", "1")] 100)]
  /\ ~ (100 == 50 + 300)%Q.
Proof. vm_compute. split_and!; try reflexivity; discriminate. Qed.

(** The amended C5 on the scripted host: the merge keeps the deadline. *)
Lemma C5_witness :
  let self := Sim.vault 300 3 in
  let s0 := Sim.init b_cache 50 in
  (@get _ fast_service self "A" (Some "prod") s0).1 = Ok "1"
  /\ dict_get "prod" (_cache (@get _ fast_service self "A" (Some "prod") s0).2)
     = Some (mk_CacheEntry [("B", "2"); ("A", "1")] 100).
Proof.
  intros self s0.
  destruct (@C5_get_miss_stores_value _ fast_service self "A" (Some "prod") s0
              (Sim.secret_body "A" "1")
              (JDict [("key", JStr "A"); ("value", JStr "1"); ("version", JNum 1)])
              "1"
              (@_request _ fast_service self GET
                 (key_path self "prod" "A") None s0).2)
    as (H1 & _ & H3 & _).
  - split; discriminate.
  - vm_compute. reflexivity.
  - vm_compute. reflexivity.
  - reflexivity.
  - reflexivity.
  - split; [exact H1 |].
    apply (H3 (mk_CacheEntry [("B", "2")] 100)); [reflexivity | reflexivity].
Defined.

(** ** [set] writes through *)

Section SetThenGet.
Context {W : Type} `{Host W}.
Implicit Types (s : state W) (self : ZVault) (t : list event).


End SetThenGet.


(** ** Injection into the process environment *)

Section Inject.
Context {W : Type} `{Host W}.
Implicit Types (s : state W) (self : ZVault) (t : list event).
Implicit Types (environ : gmap string string) (items : list (string * string)).

Lemma in_environ_insert_ne k k' v environ :
  k <> k' -> in_environ k' (<[k := v]> environ) = in_environ k' environ.
Proof. intros Hne. unfold in_environ. by rewrite lookup_insert_ne. Qed.

Lemma written_insert overwrite environ k v items :
  k ∉ items.*1 ->
  written overwrite (<[k := v]> environ) items = written overwrite environ items.
Proof.
  induction items as [|[k' v'] items IH]; simpl; [done |].
  rewrite not_elem_of_cons. intros [Hne Hnin].
  rewrite in_environ_insert_ne by done. rewrite IH by done. done.
Qed.

Lemma written_keys overwrite environ items k :
  k ∈ (written overwrite environ items).*1 ->
  k ∈ items.*1 /\ (overwrite = false -> environ !! k = None).
Proof.
  induction items as [|[k' v'] items IH]; simpl.
  - intros Hin. by apply elem_of_nil in Hin.
  - destruct (negb overwrite && in_environ k' environ) eqn:Hskip.
    + intros Hin. destruct (IH Hin). split; [by right | done].
    + simpl. rewrite elem_of_cons. intros [->|Hin].
      * split; [by left |]. intros ->. simpl in Hskip. unfold in_environ in Hskip.
        by destruct (environ !! k').
      * destruct (IH Hin). split; [by right | done].
Qed.

Lemma written_overwrite environ items : written true environ items = items.
Proof. induction items as [|[k v] items IH]; simpl; [done | by rewrite IH]. Qed.

Lemma written_NoDup overwrite environ items :
  NoDup items.*1 -> NoDup (written overwrite environ items).*1.
Proof.
  induction items as [|[k v] items IH]; simpl; [done |].
  intros Hnd. apply NoDup_cons in Hnd as [Hk Hnd].
  destruct (negb overwrite && in_environ k environ); [by apply IH |].
  simpl. apply NoDup_cons. split; [|by apply IH].
  intros Hin. by apply written_keys in Hin as [? _].
Qed.

Lemma written_fresh environ items k v :
  (k, v) ∈ items -> environ !! k = None -> (k, v) ∈ written false environ items.
Proof.
  intros Hin Hk. induction items as [|[k' v'] items IH]; simpl.
  - by apply elem_of_nil in Hin.
  - apply elem_of_cons in Hin as [[= <- <-]|Hin].
    + unfold in_environ. rewrite Hk. simpl. by left.
    + destruct (in_environ k' environ); simpl; [by apply IH |].
      right. by apply IH.
Qed.

Lemma assign_all_notin environ l k :
  k ∉ l.*1 -> assign_all environ l !! k = environ !! k.
Proof.
  revert environ. induction l as [|[k' v'] l IH]; intros environ; simpl;
    [done |].
  rewrite not_elem_of_cons. intros [Hne Hnin].
  unfold assign_all in *. simpl. rewrite IH by done.
  by rewrite lookup_insert_ne.
Qed.

Lemma assign_all_in environ l k v :
  NoDup l.*1 -> (k, v) ∈ l -> assign_all environ l !! k = Some v.
Proof.
  revert environ. induction l as [|[k' v'] l IH]; intros environ Hnd Hin.
  - by apply elem_of_nil in Hin.
  - simpl in Hnd. apply NoDup_cons in Hnd as [Hk' Hnd].
    unfold assign_all in *. simpl.
    apply elem_of_cons in Hin as [[= -> ->]|Hin].
    + change (foldl _ ?e l) with (assign_all e l).
      rewrite assign_all_notin by done. apply lookup_insert_eq.
    + by apply IH.
Qed.



Lemma accepted_prefix_all l : first_refusal l = None -> accepted_prefix l = l.
Proof.
  induction l as [|[k v] l IH]; simpl; [done |].
  destruct (environ_setitem_error k v); [done |]. intros Hl. by rewrite IH.
Qed.



(** The loop of [inject_into_env] over items with unique keys: it
    assigns the selected items up to the first one that [os.environ]
    refuses, and raises the exception of that one. *)
Lemma inject_loop_eq overwrite items count s :
  NoDup items.*1 ->
  inject_loop overwrite items count s
  = (match first_refusal (written overwrite (os_environ s) items) with
     | None =>
         Ok (count + length (written overwrite (os_environ s) items))%nat
     | Some e => Raise e
     end,
     mk_state (_cache s) (_last_refresh s)
       (assign_all (os_environ s)
          (accepted_prefix (written overwrite (os_environ s) items)))
       (world s)
       (trace s
        ++ setenv_events
             (accepted_prefix (written overwrite (os_environ s) items)))
       (stderr s)).
Proof.
  revert count s. induction items as [|[k v] items IH]; intros count s Hnd.
  - simpl. unfold ret. rewrite Nat.add_0_r, app_nil_r. by destruct s.
  - simpl in Hnd. apply NoDup_cons in Hnd as [Hk Hnd].
    cbn [inject_loop written]. unfold bind, get_state.
    destruct (negb overwrite && in_environ k (os_environ s)).
    + by apply IH.
    + cbn [first_refusal accepted_prefix].
      destruct (environ_setitem_error k v) as [e|].
      * unfold raise. simpl. rewrite app_nil_r. by destruct s.
      * unfold set_environ, emit. rewrite IH by done. simpl.
        rewrite written_insert by done. f_equal.
        -- destruct (first_refusal _); [done |]. f_equal. simpl. lia.
        -- by rewrite <-app_assoc.
Qed.

(** What [get_all] returns has unique keys, and [get_all] performs no
    assignment to [os.environ]. *)
Lemma get_all_inv self env s fetched s1 :
  cache_wf (_cache s) ->
  get_all self env s = (Ok fetched, s1) ->
  dict_wf fetched /\ os_environ s1 = os_environ s
  /\ exists t, trace s1 = trace s ++ t /\ setenvs_of t = [].
Proof.
  intros Hwf. unfold get_all, bind, try_except.
  destruct (_require_project_config self s) as [[[]|e] s0] eqn:Hcfg;
    apply require_project_config_inv in Hcfg as [-> _]; [|done].
  destruct (get_all_fetch self (_resolve_env self env) s) as [r sa] eqn:Hfetch.
  apply get_all_fetch_inv in Hfetch as (Hr & He & t & Ht & Hset & _).
  destruct r as [m|e].
  - intros [= <- <-]. destruct Hr as (_ & _ & ?). eauto.
  - rewrite get_all_fallback_eq. destruct Hr as [Hc _].
    destruct (valid_entry _ _ _) as [entry|] eqn:Hv; [|done].
    intros [= <- <-]. apply valid_entry_Some in Hv as [Hv _].
    rewrite Hc in Hv.
    destruct (logged_fields self
                (degraded_message (length (secrets entry)) (_resolve_env self env))
                sa) as (_ & _ & -> & _ & ->).
    split_and!; eauto.
Qed.

(** [inject_into_env] after a successful fetch. *)
Lemma inject_into_env_run self env overwrite s fetched s1 :
  dict_wf fetched ->
  get_all self env s = (Ok fetched, s1) ->
  (inject_into_env self env overwrite s).1
  = match first_refusal (written overwrite (os_environ s1) fetched) with
    | None => Ok (length (written overwrite (os_environ s1) fetched))
    | Some e => Raise e
    end
  /\ os_environ (inject_into_env self env overwrite s).2
     = assign_all (os_environ s1)
         (accepted_prefix (written overwrite (os_environ s1) fetched))
  /\ trace (inject_into_env self env overwrite s).2
     = trace s1
       ++ setenv_events
            (accepted_prefix (written overwrite (os_environ s1) fetched)).
Proof.
  intros Hnd Hget. unfold inject_into_env, bind. rewrite Hget.
  rewrite inject_loop_eq by exact Hnd.
  destruct (first_refusal _) as [e|]; simpl; [done |].
  rewrite log_eq. simpl.
  match goal with |- context [logged self ?m ?st] =>
    destruct (logged_fields self m st) as (_ & _ & -> & _ & ->)
  end. done.
Qed.


End Inject.



(** ** [healthy] *)

Section Health.
Context {W : Type} `{Host W}.
Implicit Types (s : state W) (self : ZVault) (t : list event).

Lemma count_cached_eq entries acc s :
  count_cached entries acc s
  = (Ok (acc + unexpired_count (time_monotonic (world s)) entries)%nat, s).
Proof.
  revert acc. induction entries as [|[env e] rest IH]; intros acc; simpl.
  - unfold ret. by rewrite Nat.add_0_r.
  - unfold bind, monotonic.
    destruct (Qltb (time_monotonic (world s)) (expires_at e)); rewrite IH;
      do 2 f_equal; lia.
Qed.






End Health.


(** ** The cache invariant is kept by every operation *)

Section Invariant.
Context {W : Type} `{Host W}.
Implicit Types (s : state W) (self : ZVault) (t : list event).

Lemma cache_wf_nil : cache_wf [].
Proof. intros env e Hget. discriminate Hget. Qed.

Lemma cache_wf_set env e cache :
  cache_wf cache -> dict_wf (secrets e) -> cache_wf (dict_set env e cache).
Proof.
  intros Hwf He env' e' Hget. destruct (decide (env = env')) as [<-|Hne].
  - rewrite dict_get_set_eq in Hget. by injection Hget as <-.
  - rewrite dict_get_set_ne in Hget by done. by eapply Hwf.
Qed.

Lemma stored_entry_wf self now cache env key value :
  cache_wf cache ->
  dict_wf (secrets (stored_entry self now cache env key value)).
Proof.
  intros Hwf. unfold stored_entry.
  destruct (valid_entry now cache env) as [e|] eqn:Hv; simpl.
  - apply valid_entry_Some in Hv as [Hv _]. apply dict_wf_set. by eapply Hwf.
  - apply (dict_wf_set key value []), dict_wf_nil.
Qed.

Lemma get_all_cache_wf self env s :
  cache_wf (_cache s) -> cache_wf (_cache (get_all self env s).2).
Proof.
  intros Hwf. unfold get_all, bind, try_except.
  destruct (_require_project_config self s) as [[[]|e] s0] eqn:Hcfg;
    apply require_project_config_inv in Hcfg as [-> _]; [|done].
  destruct (get_all_fetch self (_resolve_env self env) s) as [r sa] eqn:Hfetch.
  apply get_all_fetch_inv in Hfetch as (Hr & _).
  destruct r as [m|e]; simpl.
  - destruct Hr as (-> & _ & Hm). by apply cache_wf_set.
  - destruct Hr as [Hc _]. rewrite get_all_fallback_eq.
    destruct (valid_entry _ _ _) as [entry|]; simpl; [|by rewrite Hc].
    destruct (logged_fields self
                (degraded_message (length (secrets entry)) (_resolve_env self env))
                sa) as (-> & _). by rewrite Hc.
Qed.

Lemma get_cache_wf self key env s :
  cache_wf (_cache s) -> cache_wf (_cache (get self key env s).2).
Proof.
  intros Hwf. unfold get, bind.
  destruct (_require_project_config self s) as [[[]|e] s0] eqn:Hcfg;
    apply require_project_config_inv in Hcfg as [-> _]; [|done].
  rewrite get_cached_key_eq.
  destruct (match valid_entry _ _ _ with Some _ => _ | None => _ end) as [v|].
  - rewrite log_eq. simpl.
    by destruct (logged_fields self (hit_message key (_resolve_env self env)) s)
      as (-> & _).
  - unfold try_except, get_fetch, bind.
    destruct (request_frame self GET
                (key_path self (_resolve_env self env) key) None s)
      as (t & (Hc & _) & _).
    destruct (_request self GET _ None s) as [[resp|e] s1]; simpl in Hc.
    2: { destruct e; simpl; try case_match; simpl; by rewrite Hc. }
    unfold lift. destruct (py_getitem resp "secret") as [secret|e]; simpl.
    2: { destruct e; simpl; try case_match; simpl; by rewrite Hc. }
    destruct (py_getitem secret "value") as [value_j|e]; simpl.
    2: { destruct e; simpl; try case_match; simpl; by rewrite Hc. }
    destruct (as_str value_j) as [value|e]; simpl.
    2: { destruct e; simpl; try case_match; simpl; by rewrite Hc. }
    rewrite set_cached_key_eq. simpl. rewrite Hc.
    apply cache_wf_set; [done | by apply stored_entry_wf].
Qed.

Lemma set_cache_wf self key value env comment s :
  cache_wf (_cache s) ->
  cache_wf (_cache (set self key value env comment s).2).
Proof.
  intros Hwf. unfold set, bind.
  destruct (_require_project_config self s) as [[[]|e] s0] eqn:Hcfg;
    apply require_project_config_inv in Hcfg as [-> _]; [|done].
  destruct (request_frame self PUT (key_path self (_resolve_env self env) key)
              (Some (set_payload value comment)) s) as (t & (Hc & _) & _).
  destruct (_request self PUT _ _ s) as [[resp|e] s1]; simpl in Hc;
    [|simpl; by rewrite Hc].
  unfold lift. destruct (py_getitem resp "secret") as [secret|e];
    [|simpl; by rewrite Hc].
  rewrite set_cached_key_eq.
  assert (cache_wf
            (dict_set (_resolve_env self env)
               (stored_entry self (time_monotonic (world s1)) (_cache s1)
                  (_resolve_env self env) key value) (_cache s1))) as Hnew.
  { rewrite Hc. apply cache_wf_set; [done | by apply stored_entry_wf]. }
  by destruct (to_SecretEntry secret).
Qed.

End Invariant.

(** * Further properties of the transport *)

Section TransportCases.
Context {W : Type} `{Host W}.
Implicit Types (s : state W) (self : ZVault) (t : list event).

Lemma retryable_status_cases status :
  retryable_status status = true ->
  status = 429 \/ status = 500 \/ status = 502 \/ status = 503 \/ status = 504.
Proof.
  unfold retryable_status. rewrite !orb_true_iff, !Z.eqb_eq. tauto.
Qed.

(** A first answer with a 2xx status ends [_request] at once: one
    request, no sleep. The result is the empty dict for 204, the parsed
    body otherwise, and the JSON decoding error when the body does not
    parse; that error is not retried. *)
Theorem request_2xx_decides self method path payload s status body w1 :
  0 <= _max_retries self ->
  client_request (request_of self method path payload) (world s)
  = (Response status body, w1) ->
  is_success status = true ->
  (_request self method path payload s).1
  = (if status =? 204 then Ok (JDict [])
     else match body with
          | Some j => Ok j
          | None => Raise (PyError "JSONDecodeError")
          end)
  /\ frame s (_request self method path payload s).2
       [EvRequest (request_of self method path payload)]
  /\ world (_request self method path payload s).2 = w1.
Proof.
  intros Hmax Hreq Hok. unfold _request, range.
  fold (request_of self method path payload).
  replace (Z.to_nat (_max_retries self + 1))
    with (S (Z.to_nat (_max_retries self))) by lia.
  cbn [seq map request_loop]. unfold bind at 1.
  unfold attempt_once, bind, get_state, set_world, emit. rewrite Hreq.
  unfold on_response. rewrite Hok.
  destruct (status =? 204); [done |]. by destruct body.
Qed.

(** A 401 or 403 is never retried: [ZVaultAuthError] is raised after the
    one request, with the message of the error body. *)
Theorem request_auth_error_not_retried self method path payload s status body w1 :
  0 <= _max_retries self ->
  client_request (request_of self method path payload) (world s)
  = (Response status body, w1) ->
  status = 401 \/ status = 403 ->
  (_request self method path payload s).1
  = Raise (ZVaultAuthError (error_message status body))
  /\ frame s (_request self method path payload s).2
       [EvRequest (request_of self method path payload)].
Proof.
  intros Hmax Hreq Hst. unfold _request, range.
  fold (request_of self method path payload).
  replace (Z.to_nat (_max_retries self + 1))
    with (S (Z.to_nat (_max_retries self))) by lia.
  cbn [seq map request_loop]. unfold bind at 1.
  unfold attempt_once, bind, get_state, set_world, emit. rewrite Hreq.
  by destruct Hst as [-> | ->].
Qed.

(** With a negative [max_retries] the loop body never runs: nothing is
    sent and the state is untouched. *)
Theorem request_negative_max_retries self method path payload s :
  _max_retries self < 0 ->
  _request self method path payload s
  = (Raise (ZVaultAPIError 0 (JStr "Unknown error")), s).
Proof.
  intros Hneg. unfold _request, range.
  replace (Z.to_nat (_max_retries self + 1)) with 0%nat by lia. done.
Qed.

End TransportCases.

Lemma request_2xx_decides_witness :
  (@_request _ answers_204 (Sim.vault 300 3) DELETE "/x" None (Sim.init [] 0)).1
  = Ok (JDict []).
Proof.
  apply (@request_2xx_decides _ answers_204 (Sim.vault 300 3) DELETE "/x" None
           (Sim.init [] 0) 204 None (Sim.mk_world 0 1)).
  - simpl. lia.
  - reflexivity.
  - reflexivity.
Defined.

Lemma request_auth_error_not_retried_witness :
  (@_request _ always_401 (Sim.vault 300 3) GET "/me" None (Sim.init [] 0)).1
  = Raise (ZVaultAuthError (JStr "bad token")).
Proof.
  apply (@request_auth_error_not_retried _ always_401 (Sim.vault 300 3) GET
           "/me" None (Sim.init [] 0) 401
           (Some (JDict [("error", JDict [("message", JStr "bad token")])]))
           (Sim.mk_world 0 1)).
  - simpl. lia.
  - reflexivity.
  - left. reflexivity.
Defined.

Lemma request_negative_max_retries_witness :
  @_request _ fast_service (Sim.vault 300 (-1)) GET "/me" None (Sim.init [] 0)
  = (Raise (ZVaultAPIError 0 (JStr "Unknown error")), Sim.init [] 0).
Proof.
  apply (@request_negative_max_retries _ fast_service (Sim.vault 300 (-1))).
  simpl. lia.
Defined.

(** ** Failures that are retried with back-off *)

Section RetryableFailures.
Context {W : Type} `{Host W}.
Implicit Types (s : state W) (self : ZVault) (t : list event).

Lemma attempt_once_retryable_retry self req attempt last_err s e :
  retry_error (client_request req (world s)).1 = Some e ->
  attempt < _max_retries self ->
  attempt < 1024 ->
  time_sleep_error
    (jittered attempt (random_random (client_request req (world s)).2).1)
    (random_random (client_request req (world s)).2).2 = None ->
  attempt_once self req attempt last_err s
  = (Ok (Continue, Some e), slept attempt (requested req s)).
Proof.
  intros Herr Hlt Hpow Hsleep. apply Z.ltb_lt in Hlt.
  unfold attempt_once, bind, get_state, set_world, emit, requested.
  destruct (client_request req (world s)) as [out w1]. simpl in *.
  destruct out as [status body|msg|msg|class]; simpl in Herr; [| | |done].
  - destruct (retryable_status status) eqn:Hst; [|done].
    injection Herr as <-.
    unfold on_response, bind, ret.
    apply retryable_status_cases in Hst as [-> | [-> | [-> | [-> | ->]]]];
      simpl; rewrite Hlt; simpl; by rewrite sleep_with_jitter_eq.
  - injection Herr as <-. unfold on_transport_error, bind, ret. rewrite Hlt.
    by rewrite sleep_with_jitter_eq.
  - injection Herr as <-. unfold on_transport_error, bind, ret. rewrite Hlt.
    by rewrite sleep_with_jitter_eq.
Qed.

Lemma attempt_once_retryable_last self req attempt last_err s e :
  retry_error (client_request req (world s)).1 = Some e ->
  _max_retries self <= attempt ->
  attempt_once self req attempt last_err s
  = (Ok (Throw e, Some e), requested req s).
Proof.
  intros Herr Hge.
  assert ((attempt <? _max_retries self) = false) as Hltb
    by (apply Z.ltb_ge; lia).
  assert ((attempt >=? _max_retries self) = true) as Hgeb
    by (apply Z.geb_le; lia).
  unfold attempt_once, bind, get_state, set_world, emit, requested.
  destruct (client_request req (world s)) as [out w1]. simpl in *.
  destruct out as [status body|msg|msg|class]; simpl in Herr; [| | |done].
  - destruct (retryable_status status) eqn:Hst; [|done].
    injection Herr as <-.
    unfold on_response, bind, ret.
    apply retryable_status_cases in Hst as [-> | [-> | [-> | [-> | ->]]]];
      simpl; rewrite Hltb; simpl; by rewrite Hgeb.
  - injection Herr as <-. unfold on_transport_error, bind, ret.
    by rewrite Hltb.
  - injection Herr as <-. unfold on_transport_error, bind, ret.
    by rewrite Hltb.
Qed.

Lemma request_loop_retryable self req (k first : nat) last_err s :
  (forall w, is_Some (retry_error (client_request req w).1)) ->
  Z.of_nat first + Z.of_nat k = _max_retries self ->
  _max_retries self <= 1024 ->
  sleeps_accepted (_max_retries self) ->
  exists e,
    (request_loop self req (map Z.of_nat (seq first (S k))) last_err s).1
    = Raise e
    /\ retry_error
         (client_request req (backoff_run req (Z.of_nat first) k (world s)).2).1
       = Some e
    /\ frame s (request_loop self req (map Z.of_nat (seq first (S k))) last_err s).2
         (retry_trace req (backoff_run req (Z.of_nat first) k (world s)).1)
    /\ world (request_loop self req (map Z.of_nat (seq first (S k))) last_err s).2
       = (client_request req (backoff_run req (Z.of_nat first) k (world s)).2).2.
Proof.
  intros Hretry Hsum Hmax Hacc. revert first last_err s Hsum.
  induction k as [|k IH]; intros first last_err s Hsum;
    destruct (Hretry (world s)) as [e He].
  - exists e. cbn [seq map request_loop]. unfold bind.
    rewrite (attempt_once_retryable_last self req (Z.of_nat first) last_err s e)
      by (done || lia).
    split_and!; done.
  - change (seq first (S (S k))) with (first :: seq (S first) (S k)).
    cbn [map request_loop]. unfold bind.
    rewrite (attempt_once_retryable_retry self req (Z.of_nat first) last_err s e)
      by (done || lia || (apply Hacc; lia)).
    destruct (IH (S first) (Some e) (slept (Z.of_nat first) (requested req s)))
      as (e' & Hres & He' & Hfr & Hw); [lia |].
    exists e'. cbn [backoff_run fst snd retry_trace].
    replace (Z.of_nat first + 1) with (Z.of_nat (S first)) by lia.
    split_and!; [exact Hres | exact He' | | exact Hw].
    change (EvRequest req :: EvSleep ?d :: ?t)
      with ([EvRequest req; EvSleep d] ++ t).
    eapply frame_trans; [|exact Hfr].
    unfold frame, slept, requested. simpl. by rewrite <-app_assoc.
Qed.

(** Every failure that is retried with back-off follows the schedule of
    the 503. Let [max_retries] be a count of at most 1024 and let
    [time.sleep] accept the delays. When each attempt ends in a 429, 500,
    502, 503 or 504 answer, a timeout or another httpx error, [_request]
    makes [max_retries + 1] attempts with [max_retries] sleeps between
    them, the sleep before retry [i] lying between [base * 2^i] and 130%
    of it, and then raises the error of the last attempt:
    [ZVaultTimeoutError] for a timeout, [ZVaultAPIError(0, ...)] for
    another httpx error, [ZVaultAPIError] with the status otherwise. The
    world in the end is the one these requests, draws and sleeps lead
    to. *)
Theorem request_retryable_exhausted self method path payload s :
  0 <= _max_retries self <= 1024 ->
  sleeps_accepted (_max_retries self) ->
  (forall w, is_Some
     (retry_error (client_request (request_of self method path payload) w).1)) ->
  (forall w, (0 <= (random_random w).1 < 1)%Q) ->
  let req := request_of self method path payload in
  let run := backoff_run req 0 (Z.to_nat (_max_retries self)) (world s) in
  exists e,
    (_request self method path payload s).1 = Raise e
    /\ retry_error (client_request req run.2).1 = Some e
    /\ frame s (_request self method path payload s).2 (retry_trace req run.1)
    /\ world (_request self method path payload s).2
       = (client_request req run.2).2
    /\ length run.1 = Z.to_nat (_max_retries self)
    /\ (forall (i : nat) d, run.1 !! i = Some d ->
         (nominal_delay (Z.of_nat i) <= d
          /\ d <= (13 # 10) * nominal_delay (Z.of_nat i))%Q).
Proof.
  intros Hmax Hacc Hretry Hrand. cbv zeta. unfold _request.
  fold (request_of self method path payload). unfold range.
  replace (Z.to_nat (_max_retries self + 1))
    with (S (Z.to_nat (_max_retries self))) by lia.
  destruct (request_loop_retryable self (request_of self method path payload)
              (Z.to_nat (_max_retries self)) 0 None s)
    as (e & Hres & He & Hfr & Hw); [done | lia | lia | done |].
  change (Z.of_nat 0) with 0 in *.
  destruct (backoff_run_sleeps (request_of self method path payload) 0
              (Z.to_nat (_max_retries self)) (world s)) as [Hlen Hj].
  exists e. split_and!; [done..|].
  intros i d Hi. destruct (Hj i d Hi) as (w' & ->). rewrite Z.add_0_l.
  destruct (jittered_bounds (Z.of_nat i) _ (Hrand w')) as (Hlo & Hhi & _).
  split; [done | lra].
Qed.

(** When every attempt times out, [max_retries] is a count of at most
    1024 and [time.sleep] accepts the delays, the error raised in the end
    is [ZVaultTimeoutError], after [max_retries + 1] requests. *)
Theorem request_timeouts_exhausted self method path payload s :
  0 <= _max_retries self <= 1024 ->
  sleeps_accepted (_max_retries self) ->
  (forall w, exists msg,
     (client_request (request_of self method path payload) w).1
     = TimeoutException msg) ->
  exists msg,
    (_request self method path payload s).1 = Raise (ZVaultTimeoutError msg)
    /\ length (requests_of (trace (_request self method path payload s).2))
       = (length (requests_of (trace s)) + Z.to_nat (_max_retries self + 1))%nat.
Proof.
  intros Hmax Hacc Htimeout. unfold _request.
  fold (request_of self method path payload). unfold range.
  replace (Z.to_nat (_max_retries self + 1))
    with (S (Z.to_nat (_max_retries self))) by lia.
  destruct (request_loop_retryable self (request_of self method path payload)
              (Z.to_nat (_max_retries self)) 0 None s)
    as (e & Hres & He & (_ & _ & _ & _ & Ht) & _); [|lia|lia|done|].
  { intros w. destruct (Htimeout w) as [msg ->]. by eexists. }
  change (Z.of_nat 0) with 0 in *.
  destruct (backoff_run_sleeps (request_of self method path payload) 0
              (Z.to_nat (_max_retries self)) (world s)) as [Hlen _].
  match type of He with
  | retry_error (client_request _ ?w).1 = _ =>
      destruct (Htimeout w) as [msg Hmsg]
  end.
  rewrite Hmsg in He. simpl in He.
  injection He as <-. exists msg. split; [done |].
  rewrite Ht. unfold requests_of. rewrite omap_app, length_app.
  match goal with
  | |- context [omap _ (retry_trace ?r ?l)] =>
      change (omap _ (retry_trace r l)) with (requests_of (retry_trace r l))
  end.
  rewrite requests_of_retry_trace, length_replicate, Hlen. lia.
Qed.

End RetryableFailures.

Lemma request_retryable_exhausted_witness :
  exists e,
    (@_request _ always_timeout (Sim.vault 300 3) GET "/me" None
       (Sim.init [] 0)).1 = Raise e
    /\ length (@backoff_run _ always_timeout
                 (request_of (Sim.vault 300 3) GET "/me" None) 0 3
                 (Sim.mk_world 0 0)).1 = 3%nat.
Proof.
  destruct (@request_retryable_exhausted _ always_timeout (Sim.vault 300 3)
              GET "/me" None (Sim.init [] 0))
    as (e & Hres & _ & _ & _ & Hlen & _).
  - simpl. lia.
  - intros attempt w _. reflexivity.
  - intros w. eexists. reflexivity.
  - intros w. simpl. split; [discriminate | reflexivity].
  - exists e. split; [exact Hres | exact Hlen].
Defined.

Lemma request_timeouts_exhausted_witness :
  exists msg,
    (@_request _ always_timeout (Sim.vault 300 3) GET "/me" None
       (Sim.init [] 0)).1 = Raise (ZVaultTimeoutError msg).
Proof.
  destruct (@request_timeouts_exhausted _ always_timeout (Sim.vault 300 3)
              GET "/me" None (Sim.init [] 0)) as (msg & Hres & _).
  - simpl. lia.
  - intros attempt w _. reflexivity.
  - intros w. eexists. reflexivity.
  - exists msg. exact Hres.
Defined.

(** ** Failures that are retried at once *)

Section RejectedStatus.
Context {W : Type} `{Host W}.
Implicit Types (s : state W) (self : ZVault) (t : list event).

Lemma attempt_once_rejected self req attempt last_err s status body w1 :
  client_request req (world s) = (Response status body, w1) ->
  rejected_status status = true ->
  exists le s',
    attempt_once self req attempt last_err s
    = (Ok (if attempt >=? _max_retries self
           then Throw (ZVaultAPIError status (error_message status body))
           else Continue, le), s')
    /\ frame s s' [EvRequest req].
Proof.
  intros Hreq Hrej. unfold rejected_status in Hrej.
  apply andb_true_iff in Hrej as [Hrej Hnr].
  apply andb_true_iff in Hrej as [Hns Hna].
  apply negb_true_iff in Hns, Hna, Hnr.
  unfold attempt_once, bind, get_state, set_world, emit. rewrite Hreq. simpl.
  unfold on_response, bind, ret. rewrite Hns, Hna, Hnr, andb_false_r.
  destruct (status =? 404); simpl; do 2 eexists; (split; [reflexivity | done]).
Qed.

Lemma request_loop_rejected self req (k first : nat) last_err s :
  (forall w, exists status body,
     (client_request req w).1 = Response status body
     /\ rejected_status status = true) ->
  Z.of_nat first + Z.of_nat k = _max_retries self ->
  exists status msg,
    (request_loop self req (map Z.of_nat (seq first (S k))) last_err s).1
    = Raise (ZVaultAPIError status msg)
    /\ rejected_status status = true
    /\ frame s (request_loop self req (map Z.of_nat (seq first (S k))) last_err s).2
         (replicate (S k) (EvRequest req)).
Proof.
  intros Hrej. revert first last_err s.
  induction k as [|k IH]; intros first last_err s Hsum;
    destruct (Hrej (world s)) as (status & body & Hb & Hst);
    destruct (client_request req (world s)) as [out w1] eqn:Hreq;
    simpl in Hb; subst out;
    destruct (attempt_once_rejected self req (Z.of_nat first) last_err s
                status body w1 Hreq Hst) as (le & s' & Hat & Hfr).
  - exists status, (error_message status body).
    cbn [seq map request_loop]. unfold bind. rewrite Hat.
    assert ((Z.of_nat first >=? _max_retries self) = true) as Hge
      by (apply Z.geb_le; lia).
    rewrite Hge. done.
  - destruct (IH (S first) le s') as (status' & msg & Hres & Hst' & Hfr');
      [lia |].
    exists status', msg.
    change (seq first (S (S k))) with (first :: seq (S first) (S k)).
    cbn [map request_loop]. unfold bind. rewrite Hat.
    assert ((Z.of_nat first >=? _max_retries self) = false) as Hge.
    { destruct (Z.geb_spec (Z.of_nat first) (_max_retries self)); [lia | done]. }
    rewrite Hge. split_and!; [done | done |].
    change (replicate (S (S k)) (EvRequest req))
      with ([EvRequest req] ++ replicate (S k) (EvRequest req)).
    eapply frame_trans; eauto.
Qed.

(** Error statuses outside the back-off list (400, 404, 409, 422, ...,
    anything that is not 2xx, 401, 403, 429, 500, 502, 503 or 504) are
    retried as well, without any sleep: when every attempt gets such an
    answer, [max_retries + 1] requests are sent back to back before
    [ZVaultAPIError] with that status is raised. *)
Theorem request_rejected_status_retried_at_once self method path payload s :
  0 <= _max_retries self ->
  (forall w, exists status body,
     (client_request (request_of self method path payload) w).1
     = Response status body
     /\ rejected_status status = true) ->
  exists status msg,
    (_request self method path payload s).1 = Raise (ZVaultAPIError status msg)
    /\ rejected_status status = true
    /\ frame s (_request self method path payload s).2
         (replicate (Z.to_nat (_max_retries self + 1))
            (EvRequest (request_of self method path payload))).
Proof.
  intros Hmax Hrej. unfold _request.
  fold (request_of self method path payload). unfold range.
  replace (Z.to_nat (_max_retries self + 1))
    with (S (Z.to_nat (_max_retries self))) by lia.
  apply request_loop_rejected; [done | lia].
Qed.

Lemma requests_of_app t1 t2 :
  requests_of (t1 ++ t2) = requests_of t1 ++ requests_of t2.
Proof. unfold requests_of. apply omap_app. Qed.

Lemma sleeps_of_app t1 t2 : sleeps_of (t1 ++ t2) = sleeps_of t1 ++ sleeps_of t2.
Proof. unfold sleeps_of. apply omap_app. Qed.

(** One attempt sends one request and sleeps at most once, and only
    when a retry is left. *)
Lemma attempt_once_effects self req attempt last_err s :
  exists t,
    frame s (attempt_once self req attempt last_err s).2 (EvRequest req :: t)
    /\ requests_of t = []
    /\ (length (sleeps_of t)
        <= (if (attempt <? _max_retries self)%Z then 1 else 0))%nat.
Proof.
  destruct (attempt_once_shape self req attempt last_err s) as (t & Hfr & Ht).
  exists t. split; [done |].
  destruct Ht as [->|(Hlt & d & ->)]; simpl.
  - split; [done |]. destruct (attempt <? _max_retries self); lia.
  - apply Z.ltb_lt in Hlt. rewrite Hlt. split; [done | lia].
Qed.

Lemma request_loop_effects self req (n first : nat) last_err s :
  exists t,
    frame s (request_loop self req (map Z.of_nat (seq first n)) last_err s).2 t
    /\ (exists m, (m <= n)%nat /\ requests_of t = replicate m req)
    /\ (Z.of_nat (length (sleeps_of t))
        <= Z.max 0 (Z.min (Z.of_nat n) (_max_retries self - Z.of_nat first))).
Proof.
  revert first last_err s. induction n as [|n IH]; intros first last_err s.
  - exists []. split_and!.
    + simpl. destruct last_err; apply frame_refl.
    + exists 0%nat. split; [lia | done].
    + simpl. lia.
  - cbn [seq map request_loop]. unfold bind.
    destruct (attempt_once_effects self req (Z.of_nat first) last_err s)
      as (t1 & Hfr & Hreq1 & Hsl1).
    destruct (attempt_once self req (Z.of_nat first) last_err s)
      as [[[fl le]|e] s1]; simpl in Hfr.
    2: { exists (EvRequest req :: t1). split_and!; [done | |].
         - exists 1%nat. split; [lia |]. simpl. by rewrite Hreq1.
         - simpl. destruct (Z.ltb_spec (Z.of_nat first) (_max_retries self)); lia. }
    destruct fl as [v| |e].
    + exists (EvRequest req :: t1). split_and!; [done | |].
      * exists 1%nat. split; [lia |]. simpl. by rewrite Hreq1.
      * simpl. destruct (Z.ltb_spec (Z.of_nat first) (_max_retries self)); lia.
    + destruct (IH (S first) le s1) as (t2 & Hfr2 & (m & Hm & Hreq2) & Hsl2).
      exists ((EvRequest req :: t1) ++ t2). split_and!.
      * eapply frame_trans; eauto.
      * exists (S m). split; [lia |].
        rewrite requests_of_app.
        change (requests_of (EvRequest req :: t1)) with (req :: requests_of t1).
        by rewrite Hreq1, Hreq2.
      * rewrite sleeps_of_app, length_app.
        change (sleeps_of (EvRequest req :: t1)) with (sleeps_of t1).
        destruct (Z.ltb_spec (Z.of_nat first) (_max_retries self)); lia.
    + exists (EvRequest req :: t1). split_and!; [done | |].
      * exists 1%nat. split; [lia |]. simpl. by rewrite Hreq1.
      * simpl. destruct (Z.ltb_spec (Z.of_nat first) (_max_retries self)); lia.
Qed.

(** How much [_request] can do, whatever the service answers: at most
    [max_retries + 1] requests, all of them the same request, and at most
    [max_retries] sleeps; it writes neither the cache nor [os.environ]. *)
Theorem request_effort_bounded self method path payload s :
  exists t,
    frame s (_request self method path payload s).2 t
    /\ (exists m,
          (m <= Z.to_nat (_max_retries self + 1))%nat
          /\ requests_of t = replicate m (request_of self method path payload))
    /\ (length (sleeps_of t) <= Z.to_nat (_max_retries self))%nat
    /\ setenvs_of t = [].
Proof.
  unfold _request. fold (request_of self method path payload). unfold range.
  destruct (request_loop_effects self (request_of self method path payload)
              (Z.to_nat (_max_retries self + 1)) 0 None s)
    as (t & Hfr & Hreq & Hsl).
  destruct (request_loop_frame self (request_of self method path payload)
              (map Z.of_nat (seq 0 (Z.to_nat (_max_retries self + 1)))) None s)
    as (t' & Hfr' & Hev & _).
  assert (t' = t) as ->.
  { destruct Hfr as (_ & _ & _ & _ & Ht), Hfr' as (_ & _ & _ & _ & Ht').
    rewrite Ht in Ht'. by apply app_inv_head in Ht'. }
  exists t. split_and!; [done | done | lia |].
  by eapply transport_events_no_setenv.
Qed.

End RejectedStatus.

Lemma request_rejected_status_retried_at_once_witness :
  exists status msg,
    (@_request _ always_400 (Sim.vault 300 3) GET "/me" None (Sim.init [] 0)).1
    = Raise (ZVaultAPIError status msg)
    /\ sleeps_of (trace (@_request _ always_400 (Sim.vault 300 3) GET "/me" None
                           (Sim.init [] 0)).2) = [].
Proof.
  destruct (@request_rejected_status_retried_at_once _ always_400
              (Sim.vault 300 3) GET "/me" None (Sim.init [] 0))
    as (status & msg & Hres & _ & _).
  - simpl. lia.
  - intros w. exists 400, None. split; reflexivity.
  - exists status, msg. split; [exact Hres | vm_compute; reflexivity].
Defined.

(** * Percent-encoding of keys *)

Lemma hex_digits_safe c :
  always_safe (hex_digit (N_of_ascii c / 16)) = true
  /\ always_safe (hex_digit (N_of_ascii c mod 16)) = true.
Proof.
  destruct c as [[] [] [] [] [] [] [] []]; split; vm_compute; reflexivity.
Qed.

Lemma hex_digits_decode c :
  ascii_of_N (16 * hex_value (hex_digit (N_of_ascii c / 16))
              + hex_value (hex_digit (N_of_ascii c mod 16))) = c.
Proof.
  destruct c as [[] [] [] [] [] [] [] []]; vm_compute; reflexivity.
Qed.

(** The encoded key consists of unreserved characters and [%] only: no
    [/], [?], [#] or space can reach the request path through a key. *)
Theorem quote_output_chars s :
  all_chars (fun c => always_safe c || Ascii.eqb c "%") (quote s) = true.
Proof.
  induction s as [|c s IH]; [done |]. simpl.
  destruct (always_safe c) eqn:Hc; simpl.
  - by rewrite Hc, IH.
  - destruct (hex_digits_safe c) as [-> ->]. simpl. exact IH.
Qed.

(** A string of unreserved characters is left as it is. *)
Theorem quote_safe_id s : all_chars always_safe s = true -> quote s = s.
Proof.
  induction s as [|c s IH]; [done |]. simpl.
  intros Hall. apply andb_true_iff in Hall as [Hc Hs].
  rewrite Hc. by rewrite IH.
Qed.

Lemma append_inj_r (p a b : string) : p +:+ a = p +:+ b -> a = b.
Proof.
  induction p as [|c p IH]; simpl; [done |]. intros [= Heq]. by apply IH.
Qed.

(** Encoding loses nothing: different keys are encoded differently. *)
Lemma quote_inj s1 s2 : quote s1 = quote s2 -> s1 = s2.
Proof.
  revert s2. induction s1 as [|c1 s1 IH]; intros [|c2 s2]; simpl.
  - done.
  - by destruct (always_safe c2).
  - by destruct (always_safe c1).
  - destruct (always_safe c1) eqn:H1, (always_safe c2) eqn:H2.
    + intros [= -> Hq]. f_equal. by apply IH.
    + intros [= -> _]. discriminate H1.
    + intros [= <- _]. discriminate H2.
    + intros [= Hhi Hlo Hq].
      rewrite <-(hex_digits_decode c1), <-(hex_digits_decode c2), Hhi, Hlo.
      f_equal. by apply IH.
Qed.

(** Two keys of an environment are fetched, written and deleted at
    different URLs. *)
Theorem key_path_inj self env k1 k2 :
  k1 <> k2 -> key_path self env k1 <> key_path self env k2.
Proof.
  unfold key_path. intros Hne Heq. apply Hne.
  apply append_inj_r in Heq. apply append_inj_r in Heq. by apply quote_inj.
Qed.

Lemma quote_safe_id_witness : quote "DATABASE_URL" = "DATABASE_URL".
Proof. apply quote_safe_id. reflexivity. Defined.

Lemma key_path_inj_witness :
  "A b" <> "A%20b"
  /\ key_path (Sim.vault 300 3) "prod" "A b"
     <> key_path (Sim.vault 300 3) "prod" "A%20b".
Proof.
  assert ("A b" <> "A%20b") as Hne by discriminate.
  split; [exact Hne |].
  exact (key_path_inj (Sim.vault 300 3) "prod" "A b" "A%20b" Hne).
Defined.

(** * Missing project configuration *)

Section MissingConfig.
Context {W : Type} `{Host W}.
Implicit Types (s : state W) (self : ZVault) (t : list event).

Lemma require_project_config_missing self s :
  _org_id self = EmptyString \/ _project_id self = EmptyString ->
  exists msg, _require_project_config self s = (Raise (ZVaultConfigError msg), s).
Proof.
  unfold _require_project_config, raise, ret.
  intros [Ho | Hp].
  - rewrite Ho. by eexists.
  - destruct (_org_id self); [by eexists |]. rewrite Hp. by eexists.
Qed.

(** Without an organisation id or a project id, every project-scoped
    operation raises [ZVaultConfigError] before doing anything: no request
    is sent, and the cache, [os.environ] and the trace are as before. *)
Theorem config_error_before_any_effect self s :
  _org_id self = EmptyString \/ _project_id self = EmptyString ->
  (forall env, exists msg,
     get_all self env s = (Raise (ZVaultConfigError msg), s))
  /\ (forall key env, exists msg,
        get self key env s = (Raise (ZVaultConfigError msg), s))
  /\ (forall env, exists msg,
        list_keys self env s = (Raise (ZVaultConfigError msg), s))
  /\ (forall key value env comment, exists msg,
        set self key value env comment s = (Raise (ZVaultConfigError msg), s))
  /\ (forall key env, exists msg,
        delete self key env s = (Raise (ZVaultConfigError msg), s))
  /\ (forall env overwrite, exists msg,
        inject_into_env self env overwrite s
        = (Raise (ZVaultConfigError msg), s)).
Proof.
  intros Hmissing.
  destruct (require_project_config_missing self s Hmissing) as [msg Hreq].
  split_and!; intros; exists msg;
    unfold get_all, get, list_keys, set, delete, inject_into_env, get_all, bind;
    by rewrite Hreq.
Qed.

End MissingConfig.

Lemma config_error_before_any_effect_witness :
  exists msg,
    @get _ fast_service
      (mk_ZVault _DEFAULT_BASE_URL "acme" EmptyString "development" 300 3 false)
      "A" None (Sim.init [] 0)
    = (Raise (ZVaultConfigError msg), Sim.init [] 0).
Proof.
  destruct (@config_error_before_any_effect _ fast_service
              (mk_ZVault _DEFAULT_BASE_URL "acme" EmptyString "development"
                 300 3 false) (Sim.init [] 0)) as (_ & Hget & _).
  - right. reflexivity.
  - exact (Hget "A" None).
Defined.

(** * Errors of [get] *)

Section GetErrors.
Context {W : Type} `{Host W}.
Implicit Types (s : state W) (self : ZVault) (t : list event).

Lemma sleep_with_jitter_exn attempt s e s' :
  _sleep_with_jitter attempt s = (Raise e, s') -> transport_exn e = true.
Proof.
  destruct (sleep_with_jitter_cases attempt s) as [-> | (c & w' & -> & _)];
    [done | by intros [= <- _]].
Qed.

Lemma attempt_once_exn self req attempt last_err s :
  (forall e, last_err = Some e -> transport_exn e = true) ->
  match (attempt_once self req attempt last_err s).1 with
  | Ok (fl, le) =>
      (forall e, fl = Throw e -> transport_exn e = true)
      /\ (forall e, le = Some e -> transport_exn e = true)
  | Raise e => transport_exn e = true
  end.
Proof.
  intros Hle.
  unfold attempt_once, bind, get_state, set_world, emit.
  destruct (client_request req (world s)) as [out w1]. simpl.
  destruct out as [status body|msg|msg|class].
  - unfold on_response, bind, ret.
    repeat (case_match; simpl in *; simplify_eq);
      try (by eapply sleep_with_jitter_exn);
      (split; intros e' He'); try (by apply Hle); unfold on_raised in *;
      repeat (case_match; simplify_eq); try done.
    all: by simplify_eq.
  - unfold on_transport_error, bind, ret.
    repeat (case_match; simpl in *; simplify_eq);
      try (by eapply sleep_with_jitter_exn);
      split; intros e' He'; by simplify_eq.
  - unfold on_transport_error, bind, ret.
    repeat (case_match; simpl in *; simplify_eq);
      try (by eapply sleep_with_jitter_exn);
      split; intros e' He'; by simplify_eq.
  - simpl. split; intros e' He'; [by simplify_eq | by apply Hle].
Qed.

Lemma request_loop_exn self req attempts last_err s e :
  (forall e', last_err = Some e' -> transport_exn e' = true) ->
  (request_loop self req attempts last_err s).1 = Raise e ->
  transport_exn e = true.
Proof.
  revert last_err s. induction attempts as [|attempt rest IH];
    intros last_err s Hle; simpl.
  - destruct last_err as [e'|]; simpl; intros [= <-]; [by apply Hle | done].
  - unfold bind.
    pose proof (attempt_once_exn self req attempt last_err s Hle) as Hat.
    destruct (attempt_once self req attempt last_err s)
      as [[[fl le]|e'] s']; simpl in Hat.
    + destruct Hat as [Hfl Hle']. destruct fl as [v| |e']; simpl.
      * done.
      * by apply IH.
      * intros [= <-]. by apply Hfl.
    + by intros [= <-].
Qed.

(** [_request] raises neither [ZVaultNotFoundError] nor
    [ZVaultConfigError]. *)
Lemma request_exn self method path payload s e :
  (_request self method path payload s).1 = Raise e -> transport_exn e = true.
Proof. unfold _request. apply request_loop_exn. done. Qed.

Lemma py_getitem_exn j k e :
  py_getitem j k = Raise e -> exists class, e = PyError class.
Proof.
  destruct j; simpl; try (intros [= <-]; by eexists).
  case_match; [done | intros [= <-]; by eexists].
Qed.

Lemma as_str_exn j e : as_str j = Raise e -> exists class, e = PyError class.
Proof. destruct j; simpl; try done; intros [= <-]; by eexists. Qed.

(** A [get] that raises has not touched the client: the cache, the
    refresh timestamp and [os.environ] are as before. *)
Theorem get_error_leaves_cache self key env s e :
  (get self key env s).1 = Raise e ->
  _cache (get self key env s).2 = _cache s
  /\ _last_refresh (get self key env s).2 = _last_refresh s
  /\ os_environ (get self key env s).2 = os_environ s.
Proof.
  unfold get, bind.
  destruct (_require_project_config self s) as [[[]|e0] s0] eqn:Hcfg;
    apply require_project_config_inv in Hcfg as [-> _]; [|done].
  rewrite get_cached_key_eq.
  destruct (match valid_entry _ _ _ with Some _ => _ | None => _ end) as [v|].
  { rewrite log_eq. done. }
  unfold try_except, get_fetch, bind.
  destruct (request_frame self GET
              (key_path self (_resolve_env self env) key) None s)
    as (t & (Hc & Hl & He & _) & _).
  destruct (_request self GET _ None s) as [[resp|e1] s1]; simpl in Hc, Hl, He.
  2: { intros _. destruct e1; simpl; try case_match; simpl; done. }
  unfold lift. destruct (py_getitem resp "secret") as [secret|e1]; simpl.
  2: { intros _. destruct e1; simpl; try case_match; simpl; done. }
  destruct (py_getitem secret "value") as [value_j|e1]; simpl.
  2: { intros _. destruct e1; simpl; try case_match; simpl; done. }
  destruct (as_str value_j) as [value|e1]; simpl.
  2: { intros _. destruct e1; simpl; try case_match; simpl; done. }
  rewrite set_cached_key_eq. done.
Qed.

(** [get] raises [ZVaultNotFoundError] exactly when its request ends in
    a [ZVaultAPIError] with status 404, and the error then carries the
    key that was asked for and the resolved environment. *)
Theorem get_not_found_iff self key env s k' e' :
  configured self ->
  (_get_cached_key (_resolve_env self env) key s).1 = Ok None ->
  (get self key env s).1 = Raise (ZVaultNotFoundError k' e')
  <-> k' = key /\ e' = _resolve_env self env
      /\ exists msg,
           (_request self GET (key_path self (_resolve_env self env) key) None s).1
           = Raise (ZVaultAPIError 404 msg).
Proof.
  intros Hcfg Hmiss. rewrite get_miss by done.
  unfold try_except, get_fetch, bind.
  pose proof (request_exn self GET (key_path self (_resolve_env self env) key)
                None s) as Hexn.
  destruct (_request self GET _ None s) as [[resp|e1] s1]; simpl in Hexn |- *.
  - unfold lift. split.
    + destruct (py_getitem resp "secret") as [secret|e2] eqn:Hs; simpl.
      2: { by apply py_getitem_exn in Hs as [class ->]. }
      destruct (py_getitem secret "value") as [value_j|e2] eqn:Hvj; simpl.
      2: { by apply py_getitem_exn in Hvj as [class ->]. }
      destruct (as_str value_j) as [value|e2] eqn:Hv; simpl.
      2: { by apply as_str_exn in Hv as [class ->]. }
      by rewrite set_cached_key_eq.
    + by intros (_ & _ & msg & ?).
  - specialize (Hexn e1 eq_refl). split.
    + destruct e1; simpl in *; try done.
      destruct (status_code =? 404) eqn:H404; simpl; [|done].
      apply Z.eqb_eq in H404. subst. intros [= <- <-]. eauto.
    + intros (-> & -> & msg & [= ->]). done.
Qed.

End GetErrors.

Lemma get_error_leaves_cache_witness :
  _cache (@get _ always_404 (Sim.vault 300 3) "A" (Some "prod")
            (Sim.init b_cache 0)).2 = b_cache.
Proof.
  apply (@get_error_leaves_cache _ always_404 (Sim.vault 300 3) "A"
           (Some "prod") (Sim.init b_cache 0) (ZVaultNotFoundError "A" "prod")).
  vm_compute. reflexivity.
Defined.

Lemma get_not_found_iff_witness :
  exists msg,
    (@_request _ always_404 (Sim.vault 300 3) GET
       (key_path (Sim.vault 300 3) "prod" "A") None (Sim.init [] 0)).1
    = Raise (ZVaultAPIError 404 msg).
Proof.
  apply (@get_not_found_iff _ always_404 (Sim.vault 300 3) "A" (Some "prod")
           (Sim.init [] 0) "A" "prod").
  - split; discriminate.
  - reflexivity.
  - vm_compute. reflexivity.
Defined.

(** * The cache layer *)

Section CacheLayer.
Context {W : Type} `{Host W}.
Implicit Types (s : state W) (self : ZVault) (t : list event).

(** Round trip of the cache helpers: after [_set_cached_key(env, key,
    value)] with a positive TTL, [_get_cached_key(env, key)] answers
    [value]; for every other key and every other environment the cache
    answers what it answered before. *)
Theorem set_cached_key_then_get self env key value s :
  (0 < _cache_ttl self)%Q ->
  let s' := (_set_cached_key self env key value s).2 in
  (_get_cached_key env key s').1 = Ok (Some value)
  /\ (forall env' key',
        env' <> env \/ key' <> key ->
        (_get_cached_key env' key' s').1 = (_get_cached_key env' key' s).1).
Proof.
  intros Httl. cbv zeta. rewrite set_cached_key_eq. simpl.
  set (stored := stored_entry self (time_monotonic (world s)) (_cache s)
                   env key value).
  split.
  - rewrite get_cached_key_eq. simpl. unfold valid_entry.
    rewrite dict_get_set_eq.
    pose proof (stored_entry_fresh self (time_monotonic (world s)) (_cache s)
                  env key value Httl) as Hfresh.
    apply Qltb_lt in Hfresh. fold stored in Hfresh. rewrite Hfresh.
    f_equal. apply stored_entry_key.
  - intros env' key' Hne. rewrite !get_cached_key_eq. simpl. f_equal.
    destruct (decide (env = env')) as [<-|Henv].
    + destruct Hne as [? | Hkey]; [done |].
      unfold valid_entry at 1. rewrite dict_get_set_eq.
      subst stored. unfold stored_entry.
      destruct (valid_entry (time_monotonic (world s)) (_cache s) env)
        as [e|] eqn:Hv; simpl.
      * apply valid_entry_Some in Hv as [_ Hlt]. apply Qltb_lt in Hlt.
        rewrite Hlt. by apply dict_get_set_ne.
      * destruct (Qltb _ _); [|done]. simpl.
        destruct (String.eqb key key') eqn:E; [|done].
        apply String.eqb_eq in E. by subst.
    + unfold valid_entry. by rewrite dict_get_set_ne.
Qed.


End CacheLayer.

Lemma set_cached_key_then_get_witness :
  (@_get_cached_key _ fast_service "prod" "A"
     (@_set_cached_key _ fast_service (Sim.vault 300 3) "prod" "A" "1"
        (Sim.init b_cache 50)).2).1 = Ok (Some "1")
  /\ (@_get_cached_key _ fast_service "prod" "B"
        (@_set_cached_key _ fast_service (Sim.vault 300 3) "prod" "A" "1"
           (Sim.init b_cache 50)).2).1 = Ok (Some "2").
Proof.
  destruct (@set_cached_key_then_get _ fast_service (Sim.vault 300 3) "prod"
              "A" "1" (Sim.init b_cache 50)) as [Hsame Hother].
  - reflexivity.
  - split; [exact Hsame |]. rewrite Hother; [reflexivity |].
    right. discriminate.
Defined.


(** * Writes and listings *)

Section Writes.
Context {W : Type} `{Host W}.
Implicit Types (s : state W) (self : ZVault) (t : list event).

(** When the PUT of [set] fails, [set] raises that error and the cache
    is not written: a key that was cached keeps its old value, which a
    following [get] before the deadline still returns. *)
Theorem set_failed_put_keeps_cache self key value env comment s e s1 :
  configured self ->
  _request self PUT (key_path self (_resolve_env self env) key)
    (Some (set_payload value comment)) s = (Raise e, s1) ->
  set self key value env comment s = (Raise e, s1)
  /\ _cache s1 = _cache s
  /\ (forall entry old,
        dict_get (_resolve_env self env) (_cache s) = Some entry ->
        dict_get key (secrets entry) = Some old ->
        (time_monotonic (world s1) < expires_at entry)%Q ->
        (get self key env s1).1 = Ok old).
Proof.
  intros Hcfg Hput.
  destruct (request_frame self PUT (key_path self (_resolve_env self env) key)
              (Some (set_payload value comment)) s) as (t & (Hc & _) & _).
  rewrite Hput in Hc. simpl in Hc. split_and!.
  - unfold set, bind. rewrite require_project_config_ok by done.
    by rewrite Hput.
  - done.
  - intros entry old Hentry Hold Hnow. rewrite <-Hc in Hentry.
    by rewrite (get_hit self key env s1 entry old Hcfg Hentry Hnow Hold).
Qed.

(** The cache is written before the result of [set] is built: when the
    answer to the PUT has a ["secret"] that lacks a field of
    [SecretEntry], [set] raises and the new value is in the cache all the
    same. *)
Theorem set_caches_before_result self key value env comment s resp s1 secret e :
  configured self ->
  (0 < _cache_ttl self)%Q ->
  _request self PUT (key_path self (_resolve_env self env) key)
    (Some (set_payload value comment)) s = (Ok resp, s1) ->
  py_getitem resp "secret" = Ok secret ->
  to_SecretEntry secret = Raise e ->
  (set self key value env comment s).1 = Raise e
  /\ (_get_cached_key (_resolve_env self env) key
        (set self key value env comment s).2).1 = Ok (Some value).
Proof.
  intros Hcfg Httl Hput Hsecret Hentry. unfold set, bind.
  rewrite require_project_config_ok by done. rewrite Hput.
  unfold lift. rewrite Hsecret, Hentry. simpl.
  rewrite set_cached_key_eq. simpl. split; [done |].
  rewrite get_cached_key_eq. simpl. unfold valid_entry.
  rewrite dict_get_set_eq.
  pose proof (stored_entry_fresh self (time_monotonic (world s1)) (_cache s1)
                (_resolve_env self env) key value Httl) as Hfresh.
  apply Qltb_lt in Hfresh. rewrite Hfresh. f_equal. apply stored_entry_key.
Qed.

Lemma result_map_length {A B} (f : A -> result B) l l' :
  result_map f l = Ok l' ->
  length l' = length l
  /\ forall (i : nat) x, l !! i = Some x ->
       exists y, l' !! i = Some y /\ f x = Ok y.
Proof.
  revert l'. induction l as [|a l IH]; intros l'; simpl.
  - intros [= <-]. split; [done |]. intros i x Hi. by rewrite lookup_nil in Hi.
  - unfold result_bind. destruct (f a) as [y|e] eqn:Hfa; [|done].
    destruct (result_map f l) as [ys|e]; [|done].
    intros [= <-]. destruct (IH ys eq_refl) as [Hlen Hall].
    split; [simpl; by rewrite Hlen |].
    intros [|i] x Hi; simpl in Hi |- *.
    + injection Hi as <-. eauto.
    + by apply Hall.
Qed.

(** [list_keys] reads nothing from and writes nothing to the cache: the
    cache, the refresh timestamp and [os.environ] are as before, whatever
    the outcome. When it returns, it returns one [SecretKey] per entry
    of the listing, in the order of the listing, each with the entry's
    ["key"] and ["version"]. *)
Theorem list_keys_projects_listing self env s :
  _cache (list_keys self env s).2 = _cache s
  /\ _last_refresh (list_keys self env s).2 = _last_refresh s
  /\ os_environ (list_keys self env s).2 = os_environ s
  /\ (forall l,
        (list_keys self env s).1 = Ok l ->
        exists resp keys_j items,
          (_request self GET (secrets_path self (_resolve_env self env)) None s).1
          = Ok resp
          /\ py_get resp "keys" (JList []) = Ok keys_j
          /\ py_iter keys_j = Ok items
          /\ length l = length items
          /\ forall (i : nat) item, items !! i = Some item ->
               exists sk, l !! i = Some sk
                 /\ py_getitem item "key" = Ok (sk_key sk)
                 /\ py_getitem item "version" = Ok (sk_version sk)).
Proof.
  unfold list_keys, bind.
  destruct (_require_project_config self s) as [[[]|e0] s0] eqn:Hcfg;
    apply require_project_config_inv in Hcfg as [-> _]; [|done].
  destruct (request_frame self GET (secrets_path self (_resolve_env self env))
              None s) as (t & (Hc & Hl & He & _) & _).
  destruct (_request self GET _ None s) as [[resp|e1] s1];
    simpl in Hc, Hl, He |- *; [|done].
  unfold lift. destruct (py_get resp "keys" (JList [])) as [keys_j|e1] eqn:Hkeys;
    simpl; [|done].
  destruct (py_iter keys_j) as [items|e1] eqn:Hiter; simpl; [|done].
  split_and!; [done..|].
  intros l Hl'. exists resp, keys_j, items. split_and!; [done..| |].
  - by apply result_map_length in Hl' as [? _].
  - intros i item Hi. apply result_map_length in Hl' as [_ Hall].
    destruct (Hall i item Hi) as (sk & Hsk & Hproj). exists sk.
    split; [done |]. unfold to_SecretKey, result_bind in Hproj.
    destruct (py_getitem item "key") as [k|]; [|done].
    destruct (py_getitem item "version") as [v|]; [|done].
    destruct (py_get item "comment" _) as [c|]; [|done].
    destruct (py_get item "updated_at" _) as [u|]; [|done].
    by injection Hproj as <-.
Qed.

(** Only a successful full refresh moves [_last_refresh]: [get], [set]
    and [list_keys] leave it alone in every outcome, and so does
    [get_all] unless its fetch succeeds, in which case it becomes the
    wall-clock time at the end of the fetch. *)
Theorem last_refresh_only_by_full_refresh self s :
  (forall key env, _last_refresh (get self key env s).2 = _last_refresh s)
  /\ (forall key value env comment,
        _last_refresh (set self key value env comment s).2 = _last_refresh s)
  /\ (forall env, _last_refresh (list_keys self env s).2 = _last_refresh s)
  /\ (forall env,
        match get_all_fetch self (_resolve_env self env) s with
        | (Ok _, s1) =>
            configured self ->
            _last_refresh (get_all self env s).2 = Some (time_time (world s1))
        | (Raise _, _) =>
            _last_refresh (get_all self env s).2 = _last_refresh s
        end).
Proof.
  split_and!.
  - intros key env. unfold get, bind.
    destruct (_require_project_config self s) as [[[]|e0] s0] eqn:Hcfg;
      apply require_project_config_inv in Hcfg as [-> _]; [|done].
    rewrite get_cached_key_eq.
    destruct (match valid_entry _ _ _ with Some _ => _ | None => _ end) as [v|].
    { rewrite log_eq. simpl.
      by destruct (logged_fields self (hit_message key (_resolve_env self env)) s)
        as (_ & -> & _). }
    unfold try_except, get_fetch, bind.
    destruct (request_frame self GET
                (key_path self (_resolve_env self env) key) None s)
      as (t & (_ & Hl & _) & _).
    destruct (_request self GET _ None s) as [[resp|e1] s1]; simpl in Hl.
    2: { destruct e1; simpl; try case_match; simpl; done. }
    unfold lift. destruct (py_getitem resp "secret") as [secret|e1]; simpl.
    2: { destruct e1; simpl; try case_match; simpl; done. }
    destruct (py_getitem secret "value") as [value_j|e1]; simpl.
    2: { destruct e1; simpl; try case_match; simpl; done. }
    destruct (as_str value_j) as [value|e1]; simpl.
    2: { destruct e1; simpl; try case_match; simpl; done. }
    rewrite set_cached_key_eq. done.
  - intros key value env comment. unfold set, bind.
    destruct (_require_project_config self s) as [[[]|e0] s0] eqn:Hcfg;
      apply require_project_config_inv in Hcfg as [-> _]; [|done].
    destruct (request_frame self PUT (key_path self (_resolve_env self env) key)
                (Some (set_payload value comment)) s) as (t & (_ & Hl & _) & _).
    destruct (_request self PUT _ _ s) as [[resp|e] s1]; simpl in Hl;
      [|done].
    unfold lift. destruct (py_getitem resp "secret") as [secret|e]; [|done].
    rewrite set_cached_key_eq. by destruct (to_SecretEntry secret).
  - intros env. unfold list_keys, bind.
    destruct (_require_project_config self s) as [[[]|e0] s0] eqn:Hcfg;
      apply require_project_config_inv in Hcfg as [-> _]; [|done].
    destruct (request_frame self GET (secrets_path self (_resolve_env self env))
                None s) as (t & (_ & Hl & _) & _).
    destruct (_request self GET _ None s) as [[resp|e1] s1];
      simpl in Hl |- *; [|done].
    unfold lift. destruct (py_get resp "keys" (JList [])) as [keys_j|e1];
      simpl; [|done].
    by destruct (py_iter keys_j) as [items|e1].
  - intros env.
    destruct (get_all_fetch self (_resolve_env self env) s) as [r s1] eqn:Hfetch.
    pose proof (get_all_fetch_inv _ _ _ _ _ Hfetch) as (Hr & _).
    unfold get_all, bind, try_except.
    destruct r as [fetched|e].
    + intros Hcfg. rewrite require_project_config_ok by done.
      rewrite Hfetch. by destruct Hr as (_ & Hl & _).
    + destruct (_require_project_config self s) as [[[]|e0] s0] eqn:Hcfg;
        apply require_project_config_inv in Hcfg as [-> _]; [|done].
      rewrite Hfetch, get_all_fallback_eq. destruct Hr as [_ Hl].
      destruct (valid_entry _ _ _) as [entry|]; simpl; [|done].
      by destruct (logged_fields self
                     (degraded_message (length (secrets entry))
                        (_resolve_env self env)) s1) as (_ & -> & _).
Qed.

End Writes.

Lemma set_failed_put_keeps_cache_witness :
  (@get _ network_down (Sim.vault 300 0) "A" (Some "prod")
     (@set _ network_down (Sim.vault 300 0) "A" "new" (Some "prod") "c"
        (Sim.init a_cache 0)).2).1 = Ok "old".
Proof.
  destruct (@set_failed_put_keeps_cache _ network_down (Sim.vault 300 0) "A"
              "new" (Some "prod") "c" (Sim.init a_cache 0)
              (ZVaultAPIError 0 (JStr "connection refused"))
              (@_request _ network_down (Sim.vault 300 0) PUT
                 (key_path (Sim.vault 300 0) "prod" "A")
                 (Some (set_payload "new" "c")) (Sim.init a_cache 0)).2)
    as (Hset & _ & Hget).
  - split; discriminate.
  - vm_compute. reflexivity.
  - rewrite Hset. simpl.
    apply (Hget (mk_CacheEntry [("A", "old")] 100) "old"); reflexivity.
Defined.

(** The answer to the PUT has a secret without ["version"]. *)
Lemma set_caches_before_result_witness :
  let incomplete :=
    Sim.host
      (Sim.always
         (Response 200
            (Some (JDict [("secret", JDict [("key", JStr "A"); ("value", JStr "1")])]))))
      0 (1 # 2) in
  (@set _ incomplete (Sim.vault 300 3) "A" "1" (Some "prod") "c"
     (Sim.init [] 0)).1 = Raise (PyError "KeyError")
  /\ (@_get_cached_key _ incomplete "prod" "A"
        (@set _ incomplete (Sim.vault 300 3) "A" "1" (Some "prod") "c"
           (Sim.init [] 0)).2).1 = Ok (Some "1").
Proof.
  intros incomplete.
  apply (@set_caches_before_result _ incomplete (Sim.vault 300 3) "A" "1"
           (Some "prod") "c" (Sim.init [] 0)
           (JDict [("secret", JDict [("key", JStr "A"); ("value", JStr "1")])])
           (@_request _ incomplete (Sim.vault 300 3) PUT
              (key_path (Sim.vault 300 3) "prod" "A")
              (Some (set_payload "1" "c")) (Sim.init [] 0)).2
           (JDict [("key", JStr "A"); ("value", JStr "1")])).
  - split; discriminate.
  - reflexivity.
  - vm_compute. reflexivity.
  - reflexivity.
  - reflexivity.
Defined.

(** * Partial results of [get_all] *)

Section PartialResults.
Context {W : Type} `{Host W}.
Implicit Types (s : state W) (self : ZVault) (t : list event).

Lemma attempt_once_api_failing self req attempt last_err s :
  api_failing req ->
  _max_retries self <= 1024 ->
  sleeps_accepted (_max_retries self) ->
  0 <= attempt ->
  (forall e, last_err = Some e -> is_ZVaultAPIError e = true) ->
  exists fl le s',
    attempt_once self req attempt last_err s = (Ok (fl, le), s')
    /\ (forall v, fl <> Return v)
    /\ (forall e, fl = Throw e -> is_ZVaultAPIError e = true)
    /\ (forall e, le = Some e -> is_ZVaultAPIError e = true).
Proof.
  intros Hfail Hmax Hacc Hatt Hle.
  destruct (Hfail (world s)) as (status & body & Hb & Hns & Hna).
  unfold attempt_once, bind, get_state, set_world, emit.
  destruct (client_request req (world s)) as [out w1]. simpl in Hb. subst out.
  simpl. unfold on_response, bind, ret. rewrite Hns, Hna.
  destruct (status =? 404).
  { do 3 eexists. split; [reflexivity |]. split_and!;
      intros; simplify_eq; try (by apply Hle).
    all: unfold on_raised in *; by case_match; simplify_eq. }
  destruct ((attempt <? _max_retries self) && retryable_status status)
    eqn:Hretry.
  - apply andb_true_iff in Hretry as [Hlt _]. apply Z.ltb_lt in Hlt.
    rewrite sleep_with_jitter_eq by (simpl; first [lia | apply Hacc; lia]).
    do 3 eexists. split; [reflexivity |]. split_and!; intros; by simplify_eq.
  - do 3 eexists. split; [reflexivity |]. split_and!;
      intros; simplify_eq; try done.
    all: unfold on_raised in *; by case_match; simplify_eq.
Qed.

(** A request whose every answer is an error status other than 401/403
    ends in [ZVaultAPIError], as long as its back-off sleeps do not
    raise. *)
Lemma request_api_failing self method path payload s :
  api_failing (request_of self method path payload) ->
  _max_retries self <= 1024 ->
  sleeps_accepted (_max_retries self) ->
  exists status msg,
    (_request self method path payload s).1 = Raise (ZVaultAPIError status msg).
Proof.
  intros Hfail Hmax Hacc. unfold _request.
  fold (request_of self method path payload).
  assert (forall attempts last_err s0,
            Forall (fun attempt => 0 <= attempt) attempts ->
            (forall e, last_err = Some e -> is_ZVaultAPIError e = true) ->
            exists e, (request_loop self (request_of self method path payload)
                         attempts last_err s0).1 = Raise e
                      /\ is_ZVaultAPIError e = true) as Hloop.
  { induction attempts as [|attempt rest IH]; intros last_err s0 Hpos Hle;
      simpl.
    - destruct last_err as [e|]; eexists; (split; [reflexivity |]);
        [by apply Hle | done].
    - unfold bind. apply Forall_cons in Hpos as [Hatt Hpos].
      destruct (attempt_once_api_failing self _ attempt last_err s0 Hfail
                  Hmax Hacc Hatt Hle)
        as (fl & le & s' & -> & Hnr & Hfl & Hle').
      destruct fl as [v| |e].
      + by destruct (Hnr v).
      + by apply IH.
      + exists e. split; [done | by apply Hfl]. }
  destruct (Hloop (range (_max_retries self + 1)) None s) as (e & Hres & He);
    [| done |].
  { unfold range. apply Forall_fmap, Forall_forall. intros n _. simpl. lia. }
  destruct e; try done. by do 2 eexists.
Qed.

(** A listed key whose own fetch fails with an API error is passed over:
    the mapping under construction is returned as it is. *)
Lemma fetch_key_skips self path name item acc s :
  _max_retries self <= 1024 ->
  sleeps_accepted (_max_retries self) ->
  py_getitem item "key" = Ok (JStr name) ->
  api_failing (request_of self GET (path +:+ "/" +:+ quote name) None) ->
  (fetch_key self path item acc s).1 = Ok acc.
Proof.
  intros Hmax Hacc Hname Hfail. unfold fetch_key, try_except, bind, lift.
  rewrite Hname. simpl.
  destruct (request_api_failing self GET (path +:+ "/" +:+ quote name) None s
              Hfail Hmax Hacc) as (status & msg & Hres).
  destruct (_request self GET _ None s) as [r s1]. simpl in Hres. by subst r.
Qed.

Lemma fetch_keys_all_skipped self path items acc s :
  _max_retries self <= 1024 ->
  sleeps_accepted (_max_retries self) ->
  (forall item, item ∈ items ->
     exists name, py_getitem item "key" = Ok (JStr name)
       /\ api_failing (request_of self GET (path +:+ "/" +:+ quote name) None)) ->
  (fetch_keys self path items acc s).1 = Ok acc.
Proof.
  intros Hmax Hacc.
  revert s. induction items as [|item items IH]; intros s Hall; simpl; [done |].
  unfold bind. destruct (Hall item) as (name & Hname & Hfail); [by left |].
  pose proof (fetch_key_skips self path name item acc s Hmax Hacc Hname Hfail)
    as Hskip.
  destruct (fetch_key self path item acc s) as [r s1]. simpl in Hskip. subst r.
  apply IH. intros item' Hin. apply Hall. by right.
Qed.

(** Best effort can end with nothing: when the listing succeeds and the
    fetch of every listed key fails with an API error (404 after a
    concurrent delete, 500, ...), [get_all] does not fail. It returns the
    empty mapping and stores it as the cache entry of the environment, in
    place of whatever was cached. The back-off sleeps of the 5xx answers
    must not raise: [max_retries] is at most 1024 and [time.sleep]
    accepts the delays. *)
Theorem get_all_every_key_failing self env s resp s1 items :
  configured self ->
  _max_retries self <= 1024 ->
  sleeps_accepted (_max_retries self) ->
  _request self GET (secrets_path self (_resolve_env self env)) None s
  = (Ok resp, s1) ->
  py_get resp "keys" (JList []) = Ok (JList items) ->
  (forall item, item ∈ items ->
     exists name, py_getitem item "key" = Ok (JStr name)
       /\ api_failing (key_request self (_resolve_env self env) name)) ->
  (get_all self env s).1 = Ok []
  /\ exists deadline,
       dict_get (_resolve_env self env) (_cache (get_all self env s).2)
       = Some (mk_CacheEntry [] deadline).
Proof.
  intros Hcfg Hmax Hacc Hlist Hkeys Hall. unfold get_all, bind, try_except.
  rewrite require_project_config_ok by done.
  destruct (get_all_fetch self (_resolve_env self env) s) as [r s2] eqn:Hfetch.
  pose proof (get_all_fetch_inv _ _ _ _ _ Hfetch) as (Hr & _).
  assert (r = Ok []) as ->.
  { unfold get_all_fetch, bind in Hfetch. rewrite Hlist in Hfetch.
    unfold lift at 1 2 in Hfetch. rewrite Hkeys in Hfetch. simpl in Hfetch.
    pose proof (fetch_keys_all_skipped self
                  (secrets_path self (_resolve_env self env)) items [] s1
                  Hmax Hacc Hall)
      as Hskip.
    destruct (fetch_keys self _ items [] s1) as [r' s3]. simpl in Hskip.
    subst r'. unfold monotonic, get_state, set_cache, wall_time,
      set_last_refresh, ret in Hfetch.
    rewrite log_eq in Hfetch. by injection Hfetch as <- _. }
  simpl. split; [done |]. destruct Hr as (-> & _). eexists.
  apply dict_get_set_eq.
Qed.

End PartialResults.

Lemma get_all_every_key_failing_witness :
  (@get_all _ listing_only (Sim.vault 300 3) (Some "prod")
     (Sim.init a_cache 0)).1 = Ok [].
Proof.
  apply (@get_all_every_key_failing _ listing_only (Sim.vault 300 3)
           (Some "prod") (Sim.init a_cache 0)
           (Sim.listing_body ["A"; "B"])
           (@_request _ listing_only (Sim.vault 300 3) GET
              (secrets_path (Sim.vault 300 3) "prod") None (Sim.init a_cache 0)).2
           [JDict [("key", JStr "A"); ("version", JNum 1)];
            JDict [("key", JStr "B"); ("version", JNum 1)]]).
  - split; discriminate.
  - simpl. lia.
  - intros attempt w _. reflexivity.
  - vm_compute. reflexivity.
  - reflexivity.
  - intros item Hin.
    apply elem_of_cons in Hin as [-> | Hin];
      [| apply elem_of_cons in Hin as [-> | Hin];
         [| by apply elem_of_nil in Hin]].
    + exists "A". split; [reflexivity |]. intros w. exists 404, None.
      split_and!; reflexivity.
    + exists "B". split; [reflexivity |]. intros w. exists 404, None.
      split_and!; reflexivity.
Defined.

(** * More on [inject_into_env] *)

Section InjectMore.
Context {W : Type} `{Host W}.
Implicit Types (s : state W) (self : ZVault) (t : list event).
Implicit Types (environ : gmap string string) (items : list (string * string)).

(** [get_all] makes no assignment to [os.environ], whatever its
    outcome. *)
Lemma get_all_environ self env s :
  os_environ (get_all self env s).2 = os_environ s
  /\ exists t, trace (get_all self env s).2 = trace s ++ t
       /\ setenvs_of t = [].
Proof.
  unfold get_all, bind, try_except.
  destruct (_require_project_config self s) as [[[]|e] s0] eqn:Hcfg;
    apply require_project_config_inv in Hcfg as [-> _].
  2: { split; [done |]. exists []. by rewrite app_nil_r. }
  destruct (get_all_fetch self (_resolve_env self env) s) as [r sa] eqn:Hfetch.
  apply get_all_fetch_inv in Hfetch as (_ & He & t & Ht & Hset & _).
  destruct r as [m|e]; [eauto |].
  rewrite get_all_fallback_eq.
  destruct (valid_entry _ _ _) as [entry|]; simpl; [|eauto].
  destruct (logged_fields self
              (degraded_message (length (secrets entry)) (_resolve_env self env))
              sa) as (_ & _ & -> & _ & ->). eauto.
Qed.

(** When [get_all] raises, [inject_into_env] raises the same error and
    no variable of the process environment has been assigned. *)
Theorem inject_into_env_failure self env overwrite s e :
  (get_all self env s).1 = Raise e ->
  (inject_into_env self env overwrite s).1 = Raise e
  /\ os_environ (inject_into_env self env overwrite s).2 = os_environ s
  /\ exists t,
       trace (inject_into_env self env overwrite s).2 = trace s ++ t
       /\ setenvs_of t = [].
Proof.
  intros Hraise. destruct (get_all_environ self env s) as (He & t & Ht & Hset).
  unfold inject_into_env, bind.
  destruct (get_all self env s) as [r s1]. simpl in *. subst r. eauto.
Qed.

Lemma assign_all_written_covers overwrite environ items k :
  NoDup items.*1 -> k ∈ items.*1 ->
  in_environ k (assign_all environ (written overwrite environ items)) = true.
Proof.
  intros Hnd Hin. unfold in_environ.
  destruct (decide (k ∈ (written overwrite environ items).*1)) as [Hw|Hw].
  - apply list_elem_of_fmap in Hw as ([k' v] & -> & Hkv).
    rewrite (assign_all_in _ _ k' v); [done | by apply written_NoDup | done].
  - rewrite assign_all_notin by done.
    destruct (environ !! k) eqn:Hk; [done |]. exfalso. apply Hw.
    apply list_elem_of_fmap in Hin as ([k' v] & -> & Hkv).
    apply list_elem_of_fmap. exists (k', v). split; [done |].
    destruct overwrite.
    + by rewrite written_overwrite.
    + by apply written_fresh.
Qed.

Lemma written_all_present environ items :
  (forall k, k ∈ items.*1 -> in_environ k environ = true) ->
  written false environ items = [].
Proof.
  induction items as [|[k v] items IH]; simpl; [done |].
  intros Hall. rewrite Hall by by left. apply IH.
  intros k' Hin. apply Hall. by right.
Qed.

(** Injecting is idempotent: after an [inject_into_env] that returned, a
    second one without [overwrite] that fetches the same mapping assigns
    nothing and returns 0. *)
Theorem inject_into_env_twice self env overwrite s fetched s1 s3 n :
  cache_wf (_cache s) ->
  get_all self env s = (Ok fetched, s1) ->
  (inject_into_env self env overwrite s).1 = Ok n ->
  let s2 := (inject_into_env self env overwrite s).2 in
  get_all self env s2 = (Ok fetched, s3) ->
  (inject_into_env self env false s2).1 = Ok 0%nat
  /\ os_environ (inject_into_env self env false s2).2 = os_environ s2.
Proof.
  intros Hwf Hget Hfirst s2 Hget2.
  destruct (get_all_inv self env s fetched s1 Hwf Hget) as (Hnd & _).
  destruct (inject_into_env_run self env overwrite s fetched s1 Hnd Hget)
    as (Hres & Henv2 & _). fold s2 in Henv2.
  rewrite Hfirst in Hres.
  destruct (first_refusal (written overwrite (os_environ s1) fetched))
    eqn:Href; [done |].
  rewrite accepted_prefix_all in Henv2 by done.
  destruct (get_all_environ self env s2) as (He3 & _).
  rewrite Hget2 in He3. simpl in He3.
  destruct (inject_into_env_run self env false s2 fetched s3 Hnd Hget2)
    as (Hcount & Henv3 & _).
  assert (written false (os_environ s3) fetched = []) as Hnone.
  { apply written_all_present. intros k Hk. rewrite He3, Henv2.
    by apply assign_all_written_covers. }
  rewrite Hnone in Hcount, Henv3. simpl in Hcount, Henv3.
  by rewrite Hcount, Henv3.
Qed.

End InjectMore.

Lemma inject_into_env_failure_witness :
  os_environ (@inject_into_env _ network_down (Sim.vault 300 3) (Some "prod")
                true a_set_locally).2 = os_environ a_set_locally.
Proof.
  apply (@inject_into_env_failure _ network_down (Sim.vault 300 3) (Some "prod")
           true a_set_locally (ZVaultAPIError 0 (JStr "connection refused"))).
  vm_compute. reflexivity.
Defined.

Lemma inject_into_env_twice_witness :
  (@inject_into_env _ fast_service (Sim.vault 300 3) (Some "prod") false
     (@inject_into_env _ fast_service (Sim.vault 300 3) (Some "prod") true
        a_set_locally).2).1 = Ok 0%nat.
Proof.
  apply (@inject_into_env_twice _ fast_service (Sim.vault 300 3) (Some "prod")
           true a_set_locally [("A", "1")]
           (@get_all _ fast_service (Sim.vault 300 3) (Some "prod")
              a_set_locally).2
           (@get_all _ fast_service (Sim.vault 300 3) (Some "prod")
              (@inject_into_env _ fast_service (Sim.vault 300 3) (Some "prod")
                 true a_set_locally).2).2 1%nat).
  - intros env e Hget. discriminate Hget.
  - vm_compute. reflexivity.
  - vm_compute. reflexivity.
  - vm_compute. reflexivity.
Defined.

(** * Construction *)

Lemma rstrip_slash_app_slash s : rstrip_slash (s +:+ "/") = rstrip_slash s.
Proof.
  induction s as [|c s IH]; [done |].
  simpl. by rewrite IH.
Qed.

Lemma rstrip_slash_no_slash s : ends_with "/" (rstrip_slash s) = false.
Proof.
  induction s as [|c s IH]; [done |]. simpl.
  destruct (rstrip_slash s) as [|c' r'] eqn:Hr.
  - destruct (Ascii.eqb c "/") eqn:Hc; [done |]. simpl. exact Hc.
  - exact IH.
Qed.

(** Construction fails exactly when there is no token: the [token]
    argument is absent or empty and [ZVAULT_TOKEN] is unset or empty. The
    error is then a [ZVaultConfigError]. *)
Theorem init_config_error_iff args environ :
  (exists e, __init__ args environ = Raise e)
  <-> (arg_token args = None \/ arg_token args = Some EmptyString)
      /\ (environ !! "ZVAULT_TOKEN" = None
          \/ environ !! "ZVAULT_TOKEN" = Some EmptyString).
Proof.
  unfold __init__, str_or, environ_get. split.
  - intros [e He].
    destruct (arg_token args) as [[|c r]|]; [| done |];
      (split; [auto |]);
      destruct (environ !! "ZVAULT_TOKEN") as [[|c r]|]; simpl in He; auto;
      done.
  - intros [[-> | ->] [-> | ->]]; simpl; by eexists.
Qed.

(** The base URL of a client never ends with a slash, wherever it comes
    from (the [base_url] argument, [ZVAULT_URL] or the default), and a
    trailing slash added to the argument or to the variable it is taken
    from makes no difference to the client that is built. *)
Theorem init_base_url_slash args environ inst :
  __init__ args environ = Ok inst ->
  ends_with "/" (_base_url (attributes inst)) = false
  /\ (forall url,
        arg_base_url args = Some url -> url <> EmptyString ->
        __init__
          (mk_init_args (arg_token args) (Some (url +:+ "/")) (arg_org_id args)
             (arg_project_id args) (arg_default_env args) (arg_cache_ttl args)
             (arg_timeout args) (arg_max_retries args) (arg_debug args))
          environ
        = Ok inst)
  /\ (forall url,
        arg_base_url args = None \/ arg_base_url args = Some EmptyString ->
        environ !! "ZVAULT_URL" = Some url ->
        __init__ args (<["ZVAULT_URL" := url +:+ "/"]> environ) = Ok inst).
Proof.
  unfold __init__.
  destruct (str_or (arg_token args) _) as [|c r] eqn:Htoken; [done |].
  intros [= <-]. simpl. split_and!.
  - apply rstrip_slash_no_slash.
  - intros url Hurl Hne. rewrite Htoken, Hurl.
    destruct url as [|c0 r0]; [done |]. simpl.
    change (String c0 (r0 +:+ "/")) with (String c0 r0 +:+ "/").
    by rewrite rstrip_slash_app_slash.
  - intros url Harg Hvar.
    assert (forall k dflt, k <> "ZVAULT_URL" ->
              environ_get (<["ZVAULT_URL" := url +:+ "/"]> environ) k dflt
              = environ_get environ k dflt) as Hother.
    { intros k dflt Hk. unfold environ_get. by rewrite lookup_insert_ne. }
    rewrite (Hother "ZVAULT_TOKEN") by discriminate. rewrite Htoken.
    assert (str_or (arg_base_url args)
              (environ_get (<["ZVAULT_URL" := url +:+ "/"]> environ)
                 "ZVAULT_URL" _DEFAULT_BASE_URL) = url +:+ "/") as ->.
    { unfold environ_get. rewrite lookup_insert_eq.
      destruct Harg as [-> | ->]; reflexivity. }
    assert (str_or (arg_base_url args)
              (environ_get environ "ZVAULT_URL" _DEFAULT_BASE_URL) = url) as ->.
    { unfold environ_get. rewrite Hvar. destruct Harg as [-> | ->]; reflexivity. }
    rewrite rstrip_slash_app_slash.
    by rewrite (Hother "ZVAULT_ORG_ID"), (Hother "ZVAULT_PROJECT_ID"),
      (Hother "ZVAULT_ENV") by discriminate.
Qed.

(** Each setting is resolved as: the argument when it is given and not
    empty, else the environment variable when it is set (even to the
    empty string), else the built-in default; the environment of a call
    without [env] is then the resolved default environment. *)
Theorem init_precedence args environ inst :
  __init__ args environ = Ok inst ->
  let resolve (arg : option string) (var dflt : string) :=
    match arg with
    | Some (String c r) => String c r
    | _ => match environ !! var with Some v => v | None => dflt end
    end in
  _token inst = resolve (arg_token args) "ZVAULT_TOKEN" EmptyString
  /\ _token inst <> EmptyString
  /\ _base_url (attributes inst)
     = rstrip_slash (resolve (arg_base_url args) "ZVAULT_URL" _DEFAULT_BASE_URL)
  /\ _org_id (attributes inst)
     = resolve (arg_org_id args) "ZVAULT_ORG_ID" EmptyString
  /\ _project_id (attributes inst)
     = resolve (arg_project_id args) "ZVAULT_PROJECT_ID" EmptyString
  /\ _resolve_env (attributes inst) None
     = resolve (arg_default_env args) "ZVAULT_ENV" "development"
  /\ dict_get "Authorization" (cs_headers (_client inst))
     = Some ("Bearer " +:+ _token inst)
  /\ initial_cache inst = [].
Proof.
  unfold __init__. fold (str_or (arg_token args)
                           (environ_get environ "ZVAULT_TOKEN" EmptyString)).
  destruct (str_or (arg_token args) _) as [|c r] eqn:Htoken; [done |].
  intros [= <-]. cbv zeta. simpl. rewrite <-Htoken.
  unfold str_or, environ_get.
  split_and!; try done.
  unfold str_or, environ_get in Htoken. by rewrite Htoken.
Qed.

Lemma init_base_url_slash_witness :
  __init__
    (mk_init_args (Some "t") (Some "https://vault.test//") None None None
       300 10 3 false) ∅
  = Ok (mk_instance "t"
          (mk_ZVault "https://vault.test" EmptyString EmptyString "development"
             300 3 false)
          (mk_client_settings 10
             [("Authorization", "Bearer t");
              ("Content-Type", "application/json");
              ("User-Agent", "zvault-python-sdk/0.1.0")])
          [] None)
  /\ __init__
       (mk_init_args (Some "t") None None None None 300 10 3 false)
       (<["ZVAULT_URL" := "https://vault.test/"]> {["ZVAULT_URL" := "https://vault.test"]})
     = Ok (mk_instance "t"
             (mk_ZVault "https://vault.test" EmptyString EmptyString "development"
                300 3 false)
             (mk_client_settings 10
                [("Authorization", "Bearer t");
                 ("Content-Type", "application/json");
                 ("User-Agent", "zvault-python-sdk/0.1.0")])
             [] None).
Proof.
  split.
  - destruct (init_base_url_slash
                (mk_init_args (Some "t") (Some "https://vault.test/") None None
                   None 300 10 3 false) ∅
                (mk_instance "t"
                   (mk_ZVault "https://vault.test" EmptyString EmptyString
                      "development" 300 3 false)
                   (mk_client_settings 10
                      [("Authorization", "Bearer t");
                       ("Content-Type", "application/json");
                       ("User-Agent", "zvault-python-sdk/0.1.0")])
                   [] None)) as (_ & Harg & _); [reflexivity |].
    apply (Harg "https://vault.test/"); [reflexivity | discriminate].
  - destruct (init_base_url_slash
                (mk_init_args (Some "t") None None None None 300 10 3 false)
                {["ZVAULT_URL" := "https://vault.test"]}
                (mk_instance "t"
                   (mk_ZVault "https://vault.test" EmptyString EmptyString
                      "development" 300 3 false)
                   (mk_client_settings 10
                      [("Authorization", "Bearer t");
                       ("Content-Type", "application/json");
                       ("User-Agent", "zvault-python-sdk/0.1.0")])
                   [] None)) as (_ & _ & Hvar); [reflexivity |].
    apply (Hvar "https://vault.test"); [by left | reflexivity].
Defined.

Lemma init_precedence_witness :
  match __init__
          (mk_init_args None None (Some "acme") None (Some EmptyString)
             300 10 3 false)
          (<["ZVAULT_TOKEN" := "t"]> (<["ZVAULT_ENV" := "staging"]> ∅)) with
  | Ok inst =>
      _resolve_env (attributes inst) None = "staging"
      /\ _org_id (attributes inst) = "acme"
  | Raise _ => False
  end.
Proof.
  destruct (__init__ _ _) as [inst|e] eqn:Hinit; [|discriminate Hinit].
  destruct (init_precedence _ _ inst Hinit)
    as (_ & _ & _ & Horg & _ & Henv & _).
  split; [rewrite Henv | rewrite Horg]; reflexivity.
Defined.

(** * Shutdown *)

Section Shutdown.
Context {W : Type} `{Host W} `{Closable W}.
Implicit Types (s : state W) (self : ZVault) (t : list event).

(** [close] empties the cache and keeps [_last_refresh]: afterwards no
    key is served from the cache, a failing [get_all] has nothing to fall
    back on and re-raises, and [healthy] reports 0 cached secrets together
    with the old refresh timestamp. *)
Theorem close_clears_cache self s :
  let s' := (close s).2 in
  (forall env key, (_get_cached_key env key s').1 = Ok None)
  /\ (forall env e s1,
        configured self ->
        get_all_fetch self (_resolve_env self env) s' = (Raise e, s1) ->
        get_all self env s' = (Raise e, s1))
  /\ (exists hs, (healthy self s').1 = Ok hs
        /\ cached_secrets hs = 0%nat
        /\ last_refresh hs = _last_refresh s)
  /\ os_environ s' = os_environ s
  /\ trace s' = trace s
  /\ _cache (close s').2 = _cache s'.
Proof.
  intros s'. assert (_cache s' = []) as Hempty by reflexivity.
  assert (_last_refresh s' = _last_refresh s) as Hlast by reflexivity.
  split_and!; [| | | reflexivity | reflexivity | reflexivity].
  - intros env key. rewrite get_cached_key_eq. unfold valid_entry.
    by rewrite Hempty.
  - intros env e s1 Hcfg Hfetch. apply get_all_no_entry; [done..|].
    by rewrite Hempty.
  - unfold healthy, bind, monotonic, try_except, get_state.
    destruct (request_frame self GET "/me" None s') as (t & (Hc & Hl & _) & _).
    destruct (_request self GET "/me" None s') as [[v|e] s1];
      simpl in Hc, Hl |- *; rewrite count_cached_eq; simpl;
      eexists; (split; [reflexivity |]); simpl;
      rewrite Hc, Hl; split; reflexivity.
Qed.

End Shutdown.

(** * Deadlines stay within the TTL *)

Section Freshness.
Context {W : Type} `{Host W}.
Hypothesis Hclock : clock_monotone.
Implicit Types (s : state W) (self : ZVault) (t : list event).

Lemma advances_same_world {A} (m : M W A) :
  (forall s, world (m s).2 = world s) -> clock_advances m.
Proof. intros Hw s. rewrite Hw. apply Qle_refl. Qed.

Lemma advances_ret {A} (a : A) : clock_advances (@ret W A a).
Proof. by apply advances_same_world. Qed.

Lemma advances_raise {A} e : clock_advances (@raise W A e).
Proof. by apply advances_same_world. Qed.

Lemma advances_lift {A} (r : result A) : clock_advances (@lift W A r).
Proof. by apply advances_same_world. Qed.

Lemma advances_log self message : clock_advances (_log self message).
Proof.
  apply advances_same_world. intros s. rewrite log_eq. simpl.
  by destruct (logged_fields self message s) as (_ & _ & _ & -> & _).
Qed.

Lemma advances_bind {A B} (m : M W A) (k : A -> M W B) :
  clock_advances m -> (forall a, clock_advances (k a)) ->
  clock_advances (bind m k).
Proof.
  intros Hm Hk s. unfold bind. specialize (Hm s).
  destruct (m s) as [[a|e] s1]; simpl in Hm; [|done].
  eapply Qle_trans; [exact Hm | apply Hk].
Qed.

Lemma advances_try_except {A} (m : M W A) (h : exn -> M W A) :
  clock_advances m -> (forall e, clock_advances (h e)) ->
  clock_advances (try_except m h).
Proof.
  intros Hm Hh s. unfold try_except. specialize (Hm s).
  destruct (m s) as [[a|e] s1]; simpl in Hm; [done |].
  eapply Qle_trans; [exact Hm | apply Hh].
Qed.

Lemma advances_sleep attempt : clock_advances (_sleep_with_jitter attempt).
Proof.
  intros s. destruct (proj2 (proj2 Hclock) (world s)) as [Hr Hrand].
  destruct (sleep_with_jitter_cases attempt s)
    as [-> | (c & w' & -> & [-> | ->])]; simpl.
  - eapply Qle_trans; [exact Hrand |]. apply (proj1 (proj2 Hclock)).
    pose proof (nominal_delay_pos attempt) as Hd. unfold jittered. nra.
  - apply Qle_refl.
  - exact Hrand.
Qed.

Lemma advances_on_response self attempt last_err status body :
  clock_advances (on_response self attempt last_err status body).
Proof.
  unfold on_response. repeat case_match; auto using advances_ret.
  apply advances_bind; auto using advances_sleep, advances_ret.
Qed.

Lemma advances_on_transport_error self attempt err :
  clock_advances (on_transport_error self attempt err).
Proof.
  unfold on_transport_error. case_match; auto using advances_ret.
  apply advances_bind; auto using advances_sleep, advances_ret.
Qed.

Lemma advances_attempt_once self req attempt last_err :
  clock_advances (attempt_once self req attempt last_err).
Proof.
  intros s. unfold attempt_once. unfold bind at 1. unfold get_state.
  pose proof (proj1 Hclock req (world s)) as Hreq.
  destruct (client_request req (world s)) as [out w1]. simpl in Hreq.
  unfold bind at 1. unfold set_world. unfold bind at 1. unfold emit.
  match goal with
  | |- (_ <= time_monotonic (world (?m ?st).2))%Q =>
      assert (clock_advances m) as Hm; [| specialize (Hm st)]
  end.
  { destruct out as [status body|msg|msg|class];
      auto using advances_on_transport_error, advances_ret.
    apply advances_bind; [apply advances_on_response |].
    intros [fl le]. destruct fl; auto using advances_ret. }
  simpl in Hm. eapply Qle_trans; [exact Hreq | exact Hm].
Qed.

Lemma advances_request self method path payload :
  clock_advances (_request self method path payload).
Proof.
  unfold _request. generalize (range (_max_retries self + 1)) as attempts.
  generalize (@None exn) as last_err.
  intros last_err attempts. revert last_err.
  induction attempts as [|attempt rest IH]; intros last_err; simpl.
  - destruct last_err; apply advances_raise.
  - apply advances_bind; [apply advances_attempt_once |].
    intros [fl le]. destruct fl;
      auto using advances_ret, advances_raise.
Qed.

Lemma advances_fetch_keys self path keys acc :
  clock_advances (fetch_keys self path keys acc).
Proof.
  revert acc. induction keys as [|k keys IH]; intros acc; simpl.
  - apply advances_ret.
  - apply advances_bind; [|done]. unfold fetch_key.
    apply advances_try_except.
    + repeat (apply advances_bind; [|intros ?]);
        auto using advances_lift, advances_request, advances_ret.
    + intros e. destruct (is_ZVaultAPIError e);
        auto using advances_ret, advances_raise.
Qed.

Lemma deadlines_within_later ttl now now' cache :
  (now <= now')%Q -> deadlines_within ttl now cache ->
  deadlines_within ttl now' cache.
Proof.
  intros Hle Hin env e Hget. specialize (Hin env e Hget). lra.
Qed.

Lemma deadlines_within_set ttl now cache env e :
  deadlines_within ttl now cache -> (expires_at e <= now + ttl)%Q ->
  deadlines_within ttl now (dict_set env e cache).
Proof.
  intros Hin He env' e' Hget. destruct (decide (env = env')) as [<-|Hne].
  - rewrite dict_get_set_eq in Hget. by injection Hget as <-.
  - rewrite dict_get_set_ne in Hget by done. by eapply Hin.
Qed.

Lemma stored_entry_deadline self now cache env key value :
  deadlines_within (_cache_ttl self) now cache ->
  (expires_at (stored_entry self now cache env key value)
   <= now + _cache_ttl self)%Q.
Proof.
  intros Hin. unfold stored_entry.
  destruct (valid_entry now cache env) as [e|] eqn:Hv; simpl.
  - apply valid_entry_Some in Hv as [Hv _]. by eapply Hin.
  - apply Qle_refl.
Qed.

(** With clocks that never go back, no operation leaves a cache entry
    whose deadline is more than the TTL ahead of the clock: a full
    refresh and a newly created entry get exactly [now + TTL], a merge
    keeps an older deadline, and nothing ever extends one. *)
Theorem deadlines_stay_within_ttl self s :
  deadlines_within (_cache_ttl self) (time_monotonic (world s)) (_cache s) ->
  (forall env,
     deadlines_within (_cache_ttl self)
       (time_monotonic (world (get_all self env s).2))
       (_cache (get_all self env s).2))
  /\ (forall key env,
        deadlines_within (_cache_ttl self)
          (time_monotonic (world (get self key env s).2))
          (_cache (get self key env s).2))
  /\ (forall key value env comment,
        deadlines_within (_cache_ttl self)
          (time_monotonic (world (set self key value env comment s).2))
          (_cache (set self key value env comment s).2)).
Proof.
  intros Hin. split_and!.
  - intros env. unfold get_all, bind, try_except.
    destruct (_require_project_config self s) as [[[]|e] s0] eqn:Hcfg;
      apply require_project_config_inv in Hcfg as [-> _]; [|done].
    assert (clock_advances (get_all_fetch self (_resolve_env self env))) as Hadv.
    { unfold get_all_fetch.
      repeat (apply advances_bind; [|intros ?]);
        auto using advances_lift, advances_request, advances_ret,
          advances_fetch_keys, advances_log;
        by apply advances_same_world. }
    specialize (Hadv s).
    destruct (get_all_fetch self (_resolve_env self env) s) as [r s1] eqn:Hfetch.
    simpl in Hadv. apply get_all_fetch_inv in Hfetch as (Hr & _).
    destruct r as [fetched|e]; simpl.
    + destruct Hr as (-> & _). apply deadlines_within_set; [|apply Qle_refl].
      by eapply deadlines_within_later.
    + destruct Hr as [Hc _]. rewrite get_all_fallback_eq.
      destruct (valid_entry _ _ _) as [entry|]; simpl.
      * destruct (logged_fields self
                    (degraded_message (length (secrets entry))
                       (_resolve_env self env)) s1) as (-> & _ & _ & -> & _).
        rewrite Hc. by eapply deadlines_within_later.
      * rewrite Hc. by eapply deadlines_within_later.
  - intros key env. unfold get, bind.
    destruct (_require_project_config self s) as [[[]|e0] s0] eqn:Hcfg;
      apply require_project_config_inv in Hcfg as [-> _]; [|done].
    rewrite get_cached_key_eq.
    destruct (match valid_entry _ _ _ with Some _ => _ | None => _ end) as [v|].
    { rewrite log_eq. simpl.
      by destruct (logged_fields self (hit_message key (_resolve_env self env)) s)
        as (-> & _ & _ & -> & _). }
    unfold try_except, get_fetch, bind.
    pose proof (advances_request self GET
                  (key_path self (_resolve_env self env) key) None s) as Hadv.
    destruct (request_frame self GET
                (key_path self (_resolve_env self env) key) None s)
      as (t & (Hc & _) & _).
    destruct (_request self GET _ None s) as [[resp|e1] s1];
      simpl in Hc, Hadv.
    2: { destruct e1; simpl; try case_match; simpl; rewrite Hc;
         by eapply deadlines_within_later. }
    unfold lift. destruct (py_getitem resp "secret") as [secret|e1]; simpl.
    2: { destruct e1; simpl; try case_match; simpl; rewrite Hc;
         by eapply deadlines_within_later. }
    destruct (py_getitem secret "value") as [value_j|e1]; simpl.
    2: { destruct e1; simpl; try case_match; simpl; rewrite Hc;
         by eapply deadlines_within_later. }
    destruct (as_str value_j) as [value|e1]; simpl.
    2: { destruct e1; simpl; try case_match; simpl; rewrite Hc;
         by eapply deadlines_within_later. }
    rewrite set_cached_key_eq. simpl. rewrite Hc.
    assert (deadlines_within (_cache_ttl self) (time_monotonic (world s1))
              (_cache s)) as Hin1 by by eapply deadlines_within_later.
    apply deadlines_within_set; [done |]. by apply stored_entry_deadline.
  - intros key value env comment. unfold set, bind.
    destruct (_require_project_config self s) as [[[]|e0] s0] eqn:Hcfg;
      apply require_project_config_inv in Hcfg as [-> _]; [|done].
    pose proof (advances_request self PUT
                  (key_path self (_resolve_env self env) key)
                  (Some (set_payload value comment)) s) as Hadv.
    destruct (request_frame self PUT (key_path self (_resolve_env self env) key)
                (Some (set_payload value comment)) s) as (t & (Hc & _) & _).
    destruct (_request self PUT _ _ s) as [[resp|e] s1]; simpl in Hc, Hadv.
    2: { simpl. rewrite Hc. by eapply deadlines_within_later. }
    unfold lift. destruct (py_getitem resp "secret") as [secret|e].
    2: { simpl. rewrite Hc. by eapply deadlines_within_later. }
    rewrite set_cached_key_eq.
    assert (deadlines_within (_cache_ttl self) (time_monotonic (world s1))
              (_cache s)) as Hin1 by by eapply deadlines_within_later.
    assert (deadlines_within (_cache_ttl self) (time_monotonic (world s1))
              (dict_set (_resolve_env self env)
                 (stored_entry self (time_monotonic (world s1)) (_cache s1)
                    (_resolve_env self env) key value) (_cache s1))) as Hnew.
    { rewrite Hc. apply deadlines_within_set; [done |].
      by apply stored_entry_deadline. }
    by destruct (to_SecretEntry secret).
Qed.

End Freshness.

Lemma deadlines_stay_within_ttl_witness :
  let self := Sim.vault 300 3 in
  let s := Sim.init b_cache 0 in
  deadlines_within 300 0 b_cache
  /\ deadlines_within 300
       (Sim.clock (world (@get_all _ slow_service self (Some "prod") s).2))
       (_cache (@get_all _ slow_service self (Some "prod") s).2).
Proof.
  cbv zeta.
  assert (@clock_monotone _ slow_service) as Hclock.
  { split_and!; simpl.
    - intros req w. lra.
    - intros d w Hd. lra.
    - intros w. split; [unfold Qle; simpl; lia | apply Qle_refl]. }
  assert (deadlines_within 300 0 b_cache) as Hin.
  { intros env e Hget. unfold b_cache, dict_get in Hget. simpl in Hget.
    case_match; simplify_eq. simpl. unfold Qle. simpl. lia. }
  split; [exact Hin |].
  exact (proj1 (@deadlines_stay_within_ttl _ slow_service Hclock
                  (Sim.vault 300 3) (Sim.init b_cache 0) Hin) (Some "prod")).
Defined.
